(** * goblockchain: the ledger engine of package [block]

    A shallow embedding of the ledger of [Tobi-Akindele/goblockchain]
    (the file declaring [package block]; the early [block.go] of
    [package main] has the same [ValidProof]) and the properties of
    proof-of-work validation, mining, balance accounting, transaction
    admission, chain validation and consensus resolution.

    The code is embedded twice.  [Section Ledger] is the code on ledgers
    whose slices hold no nil pointer, with neighbours that take every
    notification and a machine that allocates what it is asked; [Module Full]
    is the code on the data as Go has it, with the nil entries a decoded chain
    may hold, the notification requests of [CreateBlock] and [Mining], and
    the allocation of [strings.Repeat].  The last part of the file shows that
    the two agree where both apply.

    Conventions of the embedding.
    - Go [int] and [int64] are [Z]; the one arithmetic step of the code on
      them ([nonce += 1]) is written with its wrap-around, for the 64-bit
      [int] of the platforms the node runs on.
    - Go [float32] is an IEEE-754 binary32 number: [spec_float] with
      precision 24 and maximal exponent 128, every operation rounded.
    - A [[]*Transaction] is a [slice]: [None] is the nil slice, [Some l]
      a non-nil one; [json.Marshal] tells them apart ([null] against
      an array), so the block hash does too.  In [Section Ledger] a slice of
      pointers is the list of the pointees ([NewTransaction] and [newBlock]
      allocate); in [Module Full] it is a list of pointers, [None] the nil
      pointer.
    - A run-time panic, and a loop or a request that has not finished within
      the fuel it was given, are results of their own ([outcome]).
    - Methods with a [*Blockchain] receiver that assign to its fields return
      the new ledger; those that only read it return no ledger.
    - What the Go libraries compute ([encoding/json], [crypto/sha256],
      [crypto/ecdsa]) is a parameter of the development ([GoRuntime]), and
      so is the longest string the process can allocate ([GoMachine]).
    - The mutex, the timers and the log lines write no field of the ledger
      and are left out.  The HTTP exchanges are inputs: the answer to
      [http.Get] of a neighbour's chain ([Network]) and, in [Module Full],
      what becomes of each notification request ([Full.Web]). *)

From Stdlib Require Import ZArith NArith List String Ascii Bool Lia Eqdep_dec.
From Stdlib Require Import Strings.Byte DecimalString.
From Stdlib Require Import Floats.SpecFloat.
Import ListNotations.

Local Open Scope Z_scope.

(** ** Results of Go code *)

Inductive panic : Type :=
| IndexOutOfRange        (* [chain[0]] or [bc.Chain[len(bc.Chain)-1]] on an empty slice *)
| SliceBoundsOutOfRange  (* [s[:3]] on a string shorter than 3 *)
| NegativeRepeatCount    (* [strings.Repeat] with a negative count *)
| NilDereference         (* a field read through a nil pointer *)
| DecodePanic            (* a panic raised inside [Block.UnmarshalJSON] *)
| OutOfMemory.           (* an allocation the process cannot make *)

Inductive outcome (A : Type) : Type :=
| Returns (a : A)
| Panics (p : panic)
| OutOfFuel.

Arguments Returns {A} a.
Arguments Panics {A} p.
Arguments OutOfFuel {A}.

Definition bind {A B : Type} (m : outcome A) (k : A -> outcome B) : outcome B :=
  match m with
  | Returns a => k a
  | Panics p => Panics p
  | OutOfFuel => OutOfFuel
  end.

Notation "x <- m ;; k" := (bind m (fun x => k))
  (at level 61, m at next level, right associativity).

(** ** Machine integers and floats *)

(** The value a Go [int] (64 bits) holds after an arithmetic result [z]. *)
Definition wrap64 (z : Z) : Z := (z + 2 ^ 63) mod 2 ^ 64 - 2 ^ 63.

Definition int_incr (n : Z) : Z := wrap64 (n + 1).

Definition float32 : Type := spec_float.

Definition f32_zero : float32 := S754_zero false.
Definition f32_add : float32 -> float32 -> float32 := SFadd 24 128.
Definition f32_sub : float32 -> float32 -> float32 := SFsub 24 128.
Definition f32_lt : float32 -> float32 -> bool := SFltb.
Definition f32_le : float32 -> float32 -> bool := SFleb.

(** ** Slices *)

Definition slice (A : Type) : Type := option (list A).

Definition elems {A : Type} (s : slice A) : list A :=
  match s with
  | Some l => l
  | None => []
  end.

Definition append {A : Type} (s : slice A) (x : A) : slice A :=
  Some (elems s ++ [x]).

Definition len {A : Type} (l : list A) : nat := List.length l.

(** ** Arrays of 32 bytes *)

Definition bytes : Type := list byte.

Record Array32 : Type := mkArray32 {
  a32_bytes : bytes;
  a32_len : List.length a32_bytes = 32%nat
}.

Definition bytes_eqb (x y : bytes) : bool :=
  if list_eq_dec Byte.byte_eq_dec x y then true else false.

(** Go's [==] on [[32]byte]. *)
Definition Array32_eqb (x y : Array32) : bool :=
  bytes_eqb (a32_bytes x) (a32_bytes y).

(** The zero value of [[32]byte]. *)
Definition Array32_zero : Array32 := mkArray32 (repeat x00 32) eq_refl.

(** ** Formatting *)

Definition hex_digit (n : N) : ascii :=
  match n with
  | 0%N => "0" | 1%N => "1" | 2%N => "2" | 3%N => "3"
  | 4%N => "4" | 5%N => "5" | 6%N => "6" | 7%N => "7"
  | 8%N => "8" | 9%N => "9" | 10%N => "a" | 11%N => "b"
  | 12%N => "c" | 13%N => "d" | 14%N => "e" | _ => "f"
  end%char.

Fixpoint hex_of_bytes (bs : bytes) : string :=
  match bs with
  | [] => EmptyString
  | b :: bs' =>
      String (hex_digit (Byte.to_N b / 16))
        (String (hex_digit (Byte.to_N b mod 16)) (hex_of_bytes bs'))
  end.

(** [fmt.Sprintf("%x", a)] for a [[32]byte]: two lower-case digits a byte. *)
Definition Sprintf_x (a : Array32) : string := hex_of_bytes (a32_bytes a).

(** [count] copies of [s], one after the other. *)
Fixpoint repeat_string (s : string) (n : nat) : string :=
  match n with
  | O => EmptyString
  | S n' => (s ++ repeat_string s n')%string
  end.

(** [strings.Repeat(s, count)] on a machine that can allocate the result. *)
Definition strings_Repeat (s : string) (count : Z) : outcome string :=
  if count <? 0 then Panics NegativeRepeatCount
  else Returns (repeat_string s (Z.to_nat count)).

(** The length of the longest string the process can allocate: beyond it
    [strings.Repeat] does not return ([makeslice: len out of range], or the
    runtime stops, out of memory).  A process that runs at all can hold a
    line of text. *)
Class GoMachine : Type := {
  max_alloc : Z;
  max_alloc_min : 64 <= max_alloc
}.

(** [strings.Repeat(s, count)] with its allocation. *)
Module strings.

Definition Repeat {mc : GoMachine} (s : string) (count : Z) : outcome string :=
  if count <? 0 then Panics NegativeRepeatCount
  else if max_alloc <? count * Z.of_nat (String.length s) then Panics OutOfMemory
  else Returns (repeat_string s (Z.to_nat count)).

End strings.

(** The slice expression [s[:hi]] on a string. *)
Definition slice_to (s : string) (hi : nat) : outcome string :=
  if (hi <=? String.length s)%nat then Returns (substring 0 hi s)
  else Panics SliceBoundsOutOfRange.

(** ** What the Go libraries compute *)

(** The values handed to [json.Marshal]: a struct is the list of its JSON
    keys (the field tags) with the field values, in declaration order. *)
#[warnings="-register-all"]
Inductive GoValue : Type :=
| GoInt (n : Z)
| GoString (s : string)
| GoFloat32 (f : float32)
| GoStruct (fields : list (string * GoValue))
| GoSlice (items : slice GoValue)
| GoNil.

(** [GoNil] is a nil pointer, which [json.Marshal] writes as [null]. *)

(** - [json_Marshal v] is the text [json.Marshal] returns, [None] when it
      returns an error (a NaN or infinite float);
    - [sha256_Sum256] is [sha256.Sum256];
    - [PublicKey] and [BigInt] are what [*ecdsa.PublicKey] and [*big.Int]
      point to; [ecdsa_Verify] is [ecdsa.Verify], its own panics included,
      on a key pointer that may be nil. *)
Class GoRuntime : Type := {
  json_Marshal : GoValue -> option bytes;
  sha256_Sum256 : bytes -> Array32;
  PublicKey : Type;
  BigInt : Type;
  ecdsa_Verify : option PublicKey -> bytes -> BigInt -> BigInt -> outcome bool
}.

(** [utils.Signature], as [VerifyTransactionSignature] reads it. *)
Record Signature {rt : GoRuntime} : Type := mkSignature {
  sig_R : BigInt;
  sig_S : BigInt
}.

(** What [http.Get] of a neighbour's chain gives: an error with a nil
    response, or a response with its status code and its body, the body
    given by what [json.Decoder.Decode] leaves in [bcResp.Chain] (the error
    it returns is discarded by the caller; a nil chain is [[]]) or by the
    panic it raises from [Block.UnmarshalJSON]. *)
Inductive GetResult (B : Type) : Type :=
| GetError
| GetResponse (StatusCode : Z) (Body : outcome (list B)).

Arguments GetError {B}.
Arguments GetResponse {B} StatusCode Body.

(** ** The data model *)

Definition MINING_DIFFICULTY : Z := 3.
Definition MINING_SENDER : string := "THE BLOCKCHAIN".
(** [1.0] as a float32: [8388608 * 2^-23]. *)
Definition MINING_REWARD : float32 := S754_finite false 8388608 (-23).

Record Transaction : Type := mkTransaction {
  SenderBlockchainAddress : string;
  RecipientBlockchainAddress : string;
  Value : float32
}.

Record Block : Type := mkBlock {
  Nonce : Z;
  PreviousHash : Array32;
  Timestamp : Z;
  Transactions : slice Transaction
}.

Record Blockchain : Type := mkBlockchain {
  TransactionPool : slice Transaction;
  Chain : list Block;
  BlockChainAddress : string;
  Port : Z;
  neighbours : list string
}.

Definition Network : Type := string -> GetResult Block.

Definition NewTransaction (sender recipient : string) (value : float32) : Transaction :=
  {| SenderBlockchainAddress := sender;
     RecipientBlockchainAddress := recipient;
     Value := value |}.

Definition newBlock (now : Z) (nonce : Z) (previousHash : Array32)
    (transactions : slice Transaction) : Block :=
  {| Nonce := nonce;
     PreviousHash := previousHash;
     Timestamp := now;
     Transactions := transactions |}.

Definition set_TransactionPool (bc : Blockchain) (pool : slice Transaction) : Blockchain :=
  {| TransactionPool := pool;
     Chain := Chain bc;
     BlockChainAddress := BlockChainAddress bc;
     Port := Port bc;
     neighbours := neighbours bc |}.

Definition set_Chain (bc : Blockchain) (chain : list Block) : Blockchain :=
  {| TransactionPool := TransactionPool bc;
     Chain := chain;
     BlockChainAddress := BlockChainAddress bc;
     Port := Port bc;
     neighbours := neighbours bc |}.

Section Ledger.

Context {rt : GoRuntime}.

(** ** Hashing *)

(** The default encoding of a [Transaction]. *)
Definition Transaction_json (t : Transaction) : GoValue :=
  GoStruct [ ("senderBlockchainAddress"%string, GoString (SenderBlockchainAddress t));
             ("recipientBlockchainAddress"%string, GoString (RecipientBlockchainAddress t));
             ("value"%string, GoFloat32 (Value t)) ].

(** [Block.MarshalJSON]: the previous hash goes out as 64 hex digits. *)
Definition Block_MarshalJSON (b : Block) : option bytes :=
  json_Marshal
    (GoStruct [ ("nonce"%string, GoInt (Nonce b));
                ("previousHash"%string, GoString (Sprintf_x (PreviousHash b)));
                ("timestamp"%string, GoInt (Timestamp b));
                ("transactions"%string,
                  GoSlice (option_map (map Transaction_json) (Transactions b))) ]).

(** [m, _ := json.Marshal(x)]: on an error [m] is nil. *)
Definition or_nil (m : option bytes) : bytes :=
  match m with
  | Some text => text
  | None => []
  end.

Definition Hash (b : Block) : Array32 :=
  sha256_Sum256 (or_nil (Block_MarshalJSON b)).

(** ** Proof of work *)

Definition ValidProof (nonce : Z) (previousHash : Array32)
    (transactions : slice Transaction) (difficulty : Z) : outcome bool :=
  zeros <- strings_Repeat "0" difficulty ;;
  let guessBlock := {| Nonce := nonce;
                       PreviousHash := previousHash;
                       Timestamp := 0;
                       Transactions := transactions |} in
  let guessHashStr := Sprintf_x (Hash guessBlock) in
  head <- slice_to guessHashStr 3 ;;
  Returns (String.eqb head zeros).

Definition CopyTransactionPool (bc : Blockchain) : slice Transaction :=
  Some (map (fun t => NewTransaction (SenderBlockchainAddress t)
                        (RecipientBlockchainAddress t) (Value t))
          (elems (TransactionPool bc))).

Definition LastBlock (bc : Blockchain) : outcome Block :=
  match nth_error (Chain bc) (len (Chain bc) - 1) with
  | Some b => Returns b
  | None => Panics IndexOutOfRange
  end.

(** The loop of [ProofOfWork], [for !bc.ValidProof(nonce, ...) { nonce += 1 }],
    from the nonce it has reached; [fuel] bounds the number of increments, and
    the difficulty the loop hands to [ValidProof] is a parameter that
    [ProofOfWork] sets to [MINING_DIFFICULTY]. *)
Fixpoint ProofOfWork_loop (difficulty : Z) (previousHash : Array32)
    (transactions : slice Transaction) (fuel : nat) (nonce : Z) : outcome Z :=
  ok <- ValidProof nonce previousHash transactions difficulty ;;
  if ok then Returns nonce
  else match fuel with
       | O => OutOfFuel
       | S fuel' =>
           ProofOfWork_loop difficulty previousHash transactions fuel' (int_incr nonce)
       end.

Definition ProofOfWork (fuel : nat) (bc : Blockchain) : outcome Z :=
  let transactions := CopyTransactionPool bc in
  last <- LastBlock bc ;;
  let previousHash := Hash last in
  ProofOfWork_loop MINING_DIFFICULTY previousHash transactions fuel 0.

(** ** Blocks and the pool *)

(** [CreateBlock], at the clock reading [now]. *)
Definition CreateBlock (now : Z) (bc : Blockchain) (nonce : Z)
    (previousHash : Array32) : Block * Blockchain :=
  let block := newBlock now nonce previousHash (TransactionPool bc) in
  let bc := set_Chain bc (Chain bc ++ [block]) in
  let bc := set_TransactionPool bc (Some []) in
  (block, bc).

(** [NewBlockchain]: the genesis block points to the hash of [&Block{}]. *)
Definition NewBlockchain (now : Z) (blockChainAddress : string) (port : Z) : Blockchain :=
  let b := {| Nonce := 0; PreviousHash := Array32_zero;
              Timestamp := 0; Transactions := None |} in
  let bc := {| TransactionPool := None; Chain := [];
               BlockChainAddress := blockChainAddress; Port := port;
               neighbours := [] |} in
  snd (CreateBlock now bc 0 (Hash b)).

(** [ClearTransactionPool]: [bc.TransactionPool[:0]] keeps a nil slice nil. *)
Definition ClearTransactionPool (bc : Blockchain) : Blockchain :=
  set_TransactionPool bc (option_map (fun _ => []) (TransactionPool bc)).

(** [SetNeighbours], given the list [utils.FindNeighbours] returns. *)
Definition SetNeighbours (bc : Blockchain) (found : list string) : Blockchain :=
  {| TransactionPool := TransactionPool bc;
     Chain := Chain bc;
     BlockChainAddress := BlockChainAddress bc;
     Port := Port bc;
     neighbours := found |}.

(** ** Balances *)

(** The body of the inner loop of [CalculateTotalAmount]. *)
Definition account (blockchainAddress : string) (totalAmount : float32)
    (t : Transaction) : float32 :=
  let value := Value t in
  let totalAmount :=
    if String.eqb blockchainAddress (RecipientBlockchainAddress t)
    then f32_add totalAmount value else totalAmount in
  if String.eqb blockchainAddress (SenderBlockchainAddress t)
  then f32_sub totalAmount value else totalAmount.

Definition CalculateTotalAmount (bc : Blockchain) (blockchainAddress : string) : float32 :=
  fold_left
    (fun totalAmount b =>
       fold_left (account blockchainAddress) (elems (Transactions b)) totalAmount)
    (Chain bc) f32_zero.

(** ** Admission *)

Definition VerifyTransactionSignature (senderPublicKey : option PublicKey)
    (s : option Signature) (t : Transaction) : outcome bool :=
  let m := or_nil (json_Marshal (Transaction_json t)) in
  let h := sha256_Sum256 m in
  match s with
  | None => Panics NilDereference
  | Some sg => ecdsa_Verify senderPublicKey (a32_bytes h) (sig_R sg) (sig_S sg)
  end.

Definition AddTransaction (bc : Blockchain) (sender recipient : string)
    (value : float32) (senderPublicKey : option PublicKey)
    (s : option Signature) : outcome (bool * Blockchain) :=
  let t := NewTransaction sender recipient value in
  if String.eqb sender MINING_SENDER then
    Returns (true, set_TransactionPool bc (append (TransactionPool bc) t))
  else
    verified <- VerifyTransactionSignature senderPublicKey s t ;;
    if verified then
      if f32_lt (CalculateTotalAmount bc sender) value then
        Returns (false, bc)
      else
        Returns (true, set_TransactionPool bc (append (TransactionPool bc) t))
    else Returns (false, bc).

(** ** Mining *)

Definition Mining (fuel : nat) (now : Z) (bc : Blockchain) : outcome (bool * Blockchain) :=
  added <- AddTransaction bc MINING_SENDER (BlockChainAddress bc) MINING_REWARD None None ;;
  let bc := snd added in
  nonce <- ProofOfWork fuel bc ;;
  last <- LastBlock bc ;;
  let previousHash := Hash last in
  let bc := snd (CreateBlock now bc nonce previousHash) in
  Returns (true, bc).

(** ** Chain validation *)

(** The loop of [ValidChain] from [currentIndex] on: [rest] is
    [chain[currentIndex:]]. *)
Fixpoint ValidChain_loop (preBlock : Block) (rest : list Block) : outcome bool :=
  match rest with
  | [] => Returns true
  | b :: rest' =>
      if negb (Array32_eqb (PreviousHash b) (Hash preBlock)) then Returns false
      else
        ok <- ValidProof (Nonce b) (PreviousHash b) (Transactions b) MINING_DIFFICULTY ;;
        if negb ok then Returns false
        else ValidChain_loop b rest'
  end.

Definition ValidChain (chain : list Block) : outcome bool :=
  match chain with
  | [] => Panics IndexOutOfRange
  | preBlock :: rest => ValidChain_loop preBlock rest
  end.

(** ** Consensus *)

Definition chain_endpoint (n : string) : string :=
  ("http://" ++ n ++ "/chain")%string.

(** The loop of [ResolveConflicts] over the neighbours still to visit. *)
Fixpoint ResolveConflicts_loop (net : Network) (ns : list string)
    (maxLength : nat) (longestChain : option (list Block))
    : outcome (nat * option (list Block)) :=
  match ns with
  | [] => Returns (maxLength, longestChain)
  | n :: ns' =>
      match net (chain_endpoint n) with
      | GetError => Panics NilDereference
      | GetResponse StatusCode Body =>
          if StatusCode =? 200 then
            chain <- Body ;;
            if (maxLength <? len chain)%nat then
              valid <- ValidChain chain ;;
              if valid
              then ResolveConflicts_loop net ns' (len chain) (Some chain)
              else ResolveConflicts_loop net ns' maxLength longestChain
            else ResolveConflicts_loop net ns' maxLength longestChain
          else ResolveConflicts_loop net ns' maxLength longestChain
      end
  end.

(** [longestChain] is assigned only a chain longer than [maxLength], which is
    not nil: [longestChain != nil] is [Some]. *)
Definition ResolveConflicts (net : Network) (bc : Blockchain) : outcome (bool * Blockchain) :=
  found <- ResolveConflicts_loop net (neighbours bc) (len (Chain bc)) None ;;
  match snd found with
  | Some longestChain => Returns (true, set_Chain bc longestChain)
  | None => Returns (false, bc)
  end.

End Ledger.

(** ** The claims' own notions *)

(** The first [k] characters of [s] exist and are all the character [0]. *)
Fixpoint leading_zeros (k : nat) (s : string) : bool :=
  match k with
  | O => true
  | S k' =>
      match s with
      | String c s' => Ascii.eqb c "0" && leading_zeros k' s'
      | EmptyString => false
      end
  end.

Section Claims.

Context {rt : GoRuntime}.

(** The trial block of the proof of work: timestamp 0. *)
Definition trial_block (nonce : Z) (previousHash : Array32)
    (transactions : slice Transaction) : Block :=
  {| Nonce := nonce; PreviousHash := previousHash;
     Timestamp := 0; Transactions := transactions |}.

(** The hexadecimal digest of the trial block. *)
Definition trial_digest (nonce : Z) (previousHash : Array32)
    (transactions : slice Transaction) : string :=
  Sprintf_x (Hash (trial_block nonce previousHash transactions)).

(** The two checks [ValidChain] makes on a block and its predecessor. *)
Definition linked (prev cur : Block) : Prop :=
  PreviousHash cur = Hash prev
  /\ ValidProof (Nonce cur) (PreviousHash cur) (Transactions cur) MINING_DIFFICULTY
     = Returns true.

(** Every block from index 1 on passes the two checks. *)
Definition all_linked (chain : list Block) : Prop :=
  forall i prev cur,
    nth_error chain i = Some prev -> nth_error chain (S i) = Some cur ->
    linked prev cur.

(** The transaction [Mining] adds for the node itself. *)
Definition reward (bc : Blockchain) : Transaction :=
  NewTransaction MINING_SENDER (BlockChainAddress bc) MINING_REWARD.

(** A value of Go's [int]. *)
Definition int64 (n : Z) : Prop := - 2 ^ 63 <= n < 2 ^ 63.

(** A one-block chain that credits address [A] with the mining reward. *)
Definition funded_chain : list Block :=
  [ {| Nonce := 0; PreviousHash := Array32_zero; Timestamp := 0;
       Transactions := Some [NewTransaction MINING_SENDER "A" MINING_REWARD] |} ].

(** [2^24] as a float32: the next float32 is [2^24 + 2]. *)
Definition f32_2p24 : float32 := S754_finite false 8388608 1.

(** The transactions of the committed blocks, in chain order. *)
Definition committed (chain : list Block) : list Transaction :=
  flat_map (fun b => elems (Transactions b)) chain.

(** The exact value of a finite float32 in units of [2^-149], the spacing of
    the smallest binary32 numbers, and the exact balance in those units. *)
Definition units (f : float32) : Z :=
  match f with
  | S754_finite s m e => (if s then -1 else 1) * (Zpos m * 2 ^ (e + 149))
  | _ => 0
  end.

(** The chains a pass of [ResolveConflicts] fetches: those of the neighbours
    that answer with status 200, in the order of the neighbour list. *)
Fixpoint fetched (net : Network) (ns : list string) : list (list Block) :=
  match ns with
  | [] => []
  | n :: ns' =>
      match net (chain_endpoint n) with
      | GetResponse StatusCode (Returns chain) =>
          if StatusCode =? 200 then chain :: fetched net ns' else fetched net ns'
      | _ => fetched net ns'
      end
  end.

(** The ledgers a node can hold: made by [NewBlockchain] and changed by the
    methods that assign to the ledger, each from a call that returned. *)
Inductive reachable : Blockchain -> Prop :=
| reach_NewBlockchain (now : Z) (address : string) (port : Z) :
    reachable (NewBlockchain now address port)
| reach_AddTransaction (bc bc' : Blockchain) (sender recipient : string)
    (value : float32) (key : option PublicKey) (s : option Signature) (ok : bool) :
    reachable bc ->
    AddTransaction bc sender recipient value key s = Returns (ok, bc') ->
    reachable bc'
| reach_Mining (bc bc' : Blockchain) (fuel : nat) (now : Z) (ok : bool) :
    reachable bc -> Mining fuel now bc = Returns (ok, bc') -> reachable bc'
| reach_CreateBlock (bc : Blockchain) (now nonce : Z) (previousHash : Array32) :
    reachable bc -> reachable (snd (CreateBlock now bc nonce previousHash))
| reach_ResolveConflicts (bc bc' : Blockchain) (net : Network) (ok : bool) :
    reachable bc -> ResolveConflicts net bc = Returns (ok, bc') -> reachable bc'
| reach_ClearTransactionPool (bc : Blockchain) :
    reachable bc -> reachable (ClearTransactionPool bc)
| reach_SetNeighbours (bc : Blockchain) (found : list string) :
    reachable bc -> reachable (SetNeighbours bc found).

End Claims.

(** ** Further notions *)

(** A float32 above zero: a positive finite number or plus infinity. *)
Definition f32_positive (v : float32) : bool :=
  match v with
  | S754_finite false _ _ | S754_infinity false => true
  | _ => false
  end.

(** The value of a lower-case hexadecimal digit; 16 for another character. *)
Definition nibble (c : ascii) : N :=
  match c with
  | "0" => 0 | "1" => 1 | "2" => 2 | "3" => 3
  | "4" => 4 | "5" => 5 | "6" => 6 | "7" => 7
  | "8" => 8 | "9" => 9 | "a" => 10 | "b" => 11
  | "c" => 12 | "d" => 13 | "e" => 14 | "f" => 15
  | _ => 16
  end%char%N.

(** Every character of [s] is a lower-case hexadecimal digit. *)
Fixpoint all_hex (s : string) : bool :=
  match s with
  | EmptyString => true
  | String c s' => (nibble c <? 16)%N && all_hex s'
  end.

Section Operation.

Context {rt : GoRuntime}.

(** The ledgers a node gets from [NewBlockchain] through the operations that
    its servers and timers call: admission, mining, consensus, the clearing
    of the pool and the refresh of the neighbours.  ([CreateBlock] alone,
    with a nonce of the caller's choice, is not among them.) *)
Inductive operated : Blockchain -> Prop :=
| op_NewBlockchain (now : Z) (address : string) (port : Z) :
    operated (NewBlockchain now address port)
| op_AddTransaction (bc bc' : Blockchain) (sender recipient : string)
    (value : float32) (key : option PublicKey) (s : option Signature) (ok : bool) :
    operated bc ->
    AddTransaction bc sender recipient value key s = Returns (ok, bc') ->
    operated bc'
| op_Mining (bc bc' : Blockchain) (fuel : nat) (now : Z) (ok : bool) :
    operated bc -> Mining fuel now bc = Returns (ok, bc') -> operated bc'
| op_ResolveConflicts (bc bc' : Blockchain) (net : Network) (ok : bool) :
    operated bc -> ResolveConflicts net bc = Returns (ok, bc') -> operated bc'
| op_ClearTransactionPool (bc : Blockchain) :
    operated bc -> operated (ClearTransactionPool bc)
| op_SetNeighbours (bc : Blockchain) (found : list string) :
    operated bc -> operated (SetNeighbours bc found).

End Operation.

(** ** The early ledger of [package main]

    [block.go] and its [main]: the same [Block] and [Transaction], a ledger
    of a pool and a chain, no [MarshalJSON] (the previous hash is encoded as
    an array of 32 numbers), and an [AddTransaction] that checks nothing. *)
Module PackageMain.

Section Code.

Context {rt : GoRuntime} {mc : GoMachine}.

Record Blockchain : Type := mkBlockchain {
  TransactionPool : slice Transaction;
  Chain : list Block
}.

Definition Block_json (b : Block) : GoValue :=
  GoStruct [ ("nonce"%string, GoInt (Nonce b));
             ("previousHash"%string,
               GoSlice (Some (map (fun x => GoInt (Z.of_N (Byte.to_N x)))
                                (a32_bytes (PreviousHash b)))));
             ("timestamp"%string, GoInt (Timestamp b));
             ("transactions"%string,
               GoSlice (option_map (map Transaction_json) (Transactions b))) ].

Definition Hash (b : Block) : Array32 :=
  sha256_Sum256 (or_nil (json_Marshal (Block_json b))).

Definition CreateBlock (now : Z) (bc : Blockchain) (nonce : Z)
    (previousHash : Array32) : Block * Blockchain :=
  let block := newBlock now nonce previousHash (TransactionPool bc) in
  (block, {| TransactionPool := Some []; Chain := Chain bc ++ [block] |}).

Definition newBlockchain (now : Z) : Blockchain :=
  let b := {| Nonce := 0; PreviousHash := Array32_zero;
              Timestamp := 0; Transactions := None |} in
  snd (CreateBlock now {| TransactionPool := None; Chain := [] |} 0 (Hash b)).

Definition LastBlock (bc : Blockchain) : outcome Block :=
  match nth_error (Chain bc) (len (Chain bc) - 1) with
  | Some b => Returns b
  | None => Panics IndexOutOfRange
  end.

Definition AddTransaction (bc : Blockchain) (sender recipient : string)
    (value : float32) : Blockchain :=
  {| TransactionPool := append (TransactionPool bc) (NewTransaction sender recipient value);
     Chain := Chain bc |}.

Definition CopyTransactionPool (bc : Blockchain) : slice Transaction :=
  Some (map (fun t => NewTransaction (SenderBlockchainAddress t)
                        (RecipientBlockchainAddress t) (Value t))
          (elems (TransactionPool bc))).

Definition ValidProof (nonce : Z) (previousHash : Array32)
    (transactions : slice Transaction) (difficulty : Z) : outcome bool :=
  zeros <- strings.Repeat "0" difficulty ;;
  let guessBlock := {| Nonce := nonce;
                       PreviousHash := previousHash;
                       Timestamp := 0;
                       Transactions := transactions |} in
  let guessHashStr := Sprintf_x (Hash guessBlock) in
  head <- slice_to guessHashStr 3 ;;
  Returns (String.eqb head zeros).

(** The float32 constants of [main]: 20, 10 and 12. *)
Definition f32_20 : float32 := S754_finite false 10485760 (-19).
Definition f32_10 : float32 := S754_finite false 10485760 (-20).
Definition f32_12 : float32 := S754_finite false 12582912 (-20).

(** [main], the three calls of [CreateBlock] at the clock readings [t0],
    [t1], [t2]; the final [bc.Print()] writes to the standard output only. *)
Definition main (t0 t1 t2 : Z) : outcome Blockchain :=
  let bc := newBlockchain t0 in
  let bc := AddTransaction bc "A" "B" f32_20 in
  last <- LastBlock bc ;;
  let bc := snd (CreateBlock t1 bc 0 (Hash last)) in
  let bc := AddTransaction bc "A" "B" f32_10 in
  let bc := AddTransaction bc "C" "B" f32_12 in
  last <- LastBlock bc ;;
  let bc := snd (CreateBlock t2 bc 4 (Hash last)) in
  Returns bc.

(** A run of [AddTransaction] calls, one for each (sender, recipient, value). *)
Definition AddTransactions (bc : Blockchain)
    (calls : list (string * string * float32)) : Blockchain :=
  fold_left (fun bc c => AddTransaction bc (fst (fst c)) (snd (fst c)) (snd c)) calls bc.

End Code.

End PackageMain.

(** ** The code with its nil pointers, its notifications and its allocations

    [Section Ledger] above is the code on ledgers whose slices hold no nil
    pointer, run with the notification requests left out.  This module is
    the code on the data as Go has it:
    - a [*Transaction] or a [*Block] stored in a slice may be nil ([None]),
      as in a chain decoded from a neighbour's [null] entries; a field read
      through it panics, a method with a pointer receiver that only hands it
      to [json.Marshal] ([Hash]) does not;
    - the requests [CreateBlock] and [Mining] send to the neighbours are
      steps of the call: [http.NewRequest] gives a nil request for an
      address that makes no URL, on which [client.Do] panics, and
      [client.Do], having no timeout, may not return ([Web]);
    - [strings.Repeat] allocates ([GoMachine]).
    The two embeddings agree where both apply ([lift_ledger] below). *)
Module Full.

Record Block : Type := mkBlock {
  Nonce : Z;
  PreviousHash : Array32;
  Timestamp : Z;
  Transactions : slice (option Transaction)
}.

Record Blockchain : Type := mkBlockchain {
  TransactionPool : slice (option Transaction);
  Chain : list (option Block);
  BlockChainAddress : string;
  Port : Z;
  neighbours : list string
}.

(** What the two statements [req, _ := http.NewRequest(method, endpoint, nil)]
    and [resp, _ := client.Do(req)] come to. *)
Inductive SendResult : Type :=
| NoRequest   (* the endpoint makes no URL: [req] is nil and [client.Do(req)] panics *)
| Sent        (* [client.Do] returns, with a response or with an error *)
| NoAnswer.   (* [client.Do] does not return: the client has no timeout *)

(** The neighbours as the notifications meet them: method, then endpoint. *)
Definition Web : Type := string -> string -> SendResult.

(** The neighbours as [http.Get] meets them; a decoded chain may hold nil
    blocks. *)
Definition Network : Type := string -> GetResult (option Block).

Definition newBlock (now : Z) (nonce : Z) (previousHash : Array32)
    (transactions : slice (option Transaction)) : Block :=
  {| Nonce := nonce;
     PreviousHash := previousHash;
     Timestamp := now;
     Transactions := transactions |}.

Definition transactions_endpoint (n : string) : string :=
  ("http://" ++ n ++ "/transactions")%string.

Definition consensus_endpoint (n : string) : string :=
  ("http://" ++ n ++ "/consensus")%string.

(** The notification loop, [for _, n := range bc.neighbours], over the
    endpoints still to visit. *)
Fixpoint send_all (web : Web) (method : string) (endpoints : list string)
    : outcome unit :=
  match endpoints with
  | [] => Returns tt
  | endpoint :: rest =>
      match web method endpoint with
      | NoRequest => Panics NilDereference
      | NoAnswer => OutOfFuel
      | Sent => send_all web method rest
      end
  end.

(** The inner loop of [CalculateTotalAmount] from a running total:
    [t.Value] panics on a nil [t]. *)
Fixpoint CalculateTotalAmount_transactions (blockchainAddress : string)
    (transactions : list (option Transaction)) (totalAmount : float32)
    : outcome float32 :=
  match transactions with
  | [] => Returns totalAmount
  | None :: _ => Panics NilDereference
  | Some t :: rest =>
      CalculateTotalAmount_transactions blockchainAddress rest
        (account blockchainAddress totalAmount t)
  end.

(** The outer loop: [b.Transactions] panics on a nil [b]. *)
Fixpoint CalculateTotalAmount_blocks (blockchainAddress : string)
    (chain : list (option Block)) (totalAmount : float32) : outcome float32 :=
  match chain with
  | [] => Returns totalAmount
  | None :: _ => Panics NilDereference
  | Some b :: rest =>
      totalAmount <- CalculateTotalAmount_transactions blockchainAddress
                       (elems (Transactions b)) totalAmount ;;
      CalculateTotalAmount_blocks blockchainAddress rest totalAmount
  end.

Definition CalculateTotalAmount (bc : Blockchain) (blockchainAddress : string)
    : outcome float32 :=
  CalculateTotalAmount_blocks blockchainAddress (Chain bc) f32_zero.

(** The loop of [CopyTransactionPool]: [t.SenderBlockchainAddress] panics on
    a nil [t]. *)
Fixpoint CopyTransactionPool_loop (pool : list (option Transaction))
    : outcome (list (option Transaction)) :=
  match pool with
  | [] => Returns []
  | None :: _ => Panics NilDereference
  | Some t :: rest =>
      copies <- CopyTransactionPool_loop rest ;;
      Returns (Some (NewTransaction (SenderBlockchainAddress t)
                       (RecipientBlockchainAddress t) (Value t)) :: copies)
  end.

Definition CopyTransactionPool (bc : Blockchain) : outcome (slice (option Transaction)) :=
  copies <- CopyTransactionPool_loop (elems (TransactionPool bc)) ;;
  Returns (Some copies).

(** The pointer [bc.Chain[len(bc.Chain)-1]], nil or not. *)
Definition LastBlock (bc : Blockchain) : outcome (option Block) :=
  match nth_error (Chain bc) (len (Chain bc) - 1) with
  | Some b => Returns b
  | None => Panics IndexOutOfRange
  end.

Section Code.

Context {rt : GoRuntime} {mc : GoMachine}.

(** A pointer to a transaction, as [json.Marshal] sees it. *)
Definition Transaction_pointer_json (t : option Transaction) : GoValue :=
  match t with
  | Some t => Transaction_json t
  | None => GoNil
  end.

Definition Block_MarshalJSON (b : Block) : option bytes :=
  json_Marshal
    (GoStruct [ ("nonce"%string, GoInt (Nonce b));
                ("previousHash"%string, GoString (Sprintf_x (PreviousHash b)));
                ("timestamp"%string, GoInt (Timestamp b));
                ("transactions"%string,
                  GoSlice (option_map (map Transaction_pointer_json) (Transactions b))) ]).

(** [Hash] has a pointer receiver and hands it to [json.Marshal], which
    writes [null] for a nil pointer without calling [MarshalJSON]. *)
Definition Hash (b : option Block) : Array32 :=
  sha256_Sum256
    (or_nil (match b with
             | Some b => Block_MarshalJSON b
             | None => json_Marshal GoNil
             end)).

Definition ValidProof (nonce : Z) (previousHash : Array32)
    (transactions : slice (option Transaction)) (difficulty : Z) : outcome bool :=
  zeros <- strings.Repeat "0" difficulty ;;
  let guessBlock := {| Nonce := nonce;
                       PreviousHash := previousHash;
                       Timestamp := 0;
                       Transactions := transactions |} in
  let guessHashStr := Sprintf_x (Hash (Some guessBlock)) in
  head <- slice_to guessHashStr 3 ;;
  Returns (String.eqb head zeros).

(** The loop of [ProofOfWork] from the nonce it has reached; [fuel] bounds
    the number of increments. *)
Fixpoint ProofOfWork_loop (previousHash : Array32)
    (transactions : slice (option Transaction)) (fuel : nat) (nonce : Z) : outcome Z :=
  ok <- ValidProof nonce previousHash transactions MINING_DIFFICULTY ;;
  if ok then Returns nonce
  else match fuel with
       | O => OutOfFuel
       | S fuel' => ProofOfWork_loop previousHash transactions fuel' (int_incr nonce)
       end.

Definition ProofOfWork (fuel : nat) (bc : Blockchain) : outcome Z :=
  transactions <- CopyTransactionPool bc ;;
  last <- LastBlock bc ;;
  let previousHash := Hash last in
  ProofOfWork_loop previousHash transactions fuel 0.

(** [CreateBlock], at the clock reading [now]: the ledger is changed, then
    every neighbour is told to clear its pool. *)
Definition CreateBlock (web : Web) (now : Z) (bc : Blockchain) (nonce : Z)
    (previousHash : Array32) : outcome (Block * Blockchain) :=
  let block := newBlock now nonce previousHash (TransactionPool bc) in
  let bc := {| TransactionPool := Some [];
               Chain := Chain bc ++ [Some block];
               BlockChainAddress := BlockChainAddress bc;
               Port := Port bc;
               neighbours := neighbours bc |} in
  _ <- send_all web "DELETE" (map transactions_endpoint (neighbours bc)) ;;
  Returns (block, bc).

Definition AddTransaction (bc : Blockchain) (sender recipient : string)
    (value : float32) (senderPublicKey : option PublicKey)
    (s : option Signature) : outcome (bool * Blockchain) :=
  let t := NewTransaction sender recipient value in
  let added := {| TransactionPool := Some (elems (TransactionPool bc) ++ [Some t]);
                  Chain := Chain bc;
                  BlockChainAddress := BlockChainAddress bc;
                  Port := Port bc;
                  neighbours := neighbours bc |} in
  if String.eqb sender MINING_SENDER then Returns (true, added)
  else
    verified <- VerifyTransactionSignature senderPublicKey s t ;;
    if verified then
      balance <- CalculateTotalAmount bc sender ;;
      if f32_lt balance value then Returns (false, bc)
      else Returns (true, added)
    else Returns (false, bc).

Definition Mining (web : Web) (fuel : nat) (now : Z) (bc : Blockchain)
    : outcome (bool * Blockchain) :=
  added <- AddTransaction bc MINING_SENDER (BlockChainAddress bc) MINING_REWARD None None ;;
  let bc := snd added in
  nonce <- ProofOfWork fuel bc ;;
  last <- LastBlock bc ;;
  let previousHash := Hash last in
  created <- CreateBlock web now bc nonce previousHash ;;
  let bc := snd created in
  _ <- send_all web "PUT" (map consensus_endpoint (neighbours bc)) ;;
  Returns (true, bc).

(** The loop of [ValidChain] from [currentIndex] on: [b.PreviousHash] panics
    on a nil [b]; [preBlock.Hash()] takes a nil [preBlock]. *)
Fixpoint ValidChain_loop (preBlock : option Block) (rest : list (option Block))
    : outcome bool :=
  match rest with
  | [] => Returns true
  | None :: _ => Panics NilDereference
  | Some b :: rest' =>
      if negb (Array32_eqb (PreviousHash b) (Hash preBlock)) then Returns false
      else
        ok <- ValidProof (Nonce b) (PreviousHash b) (Transactions b) MINING_DIFFICULTY ;;
        if negb ok then Returns false
        else ValidChain_loop (Some b) rest'
  end.

Definition ValidChain (chain : list (option Block)) : outcome bool :=
  match chain with
  | [] => Panics IndexOutOfRange
  | preBlock :: rest => ValidChain_loop preBlock rest
  end.

Fixpoint ResolveConflicts_loop (net : Network) (ns : list string)
    (maxLength : nat) (longestChain : option (list (option Block)))
    : outcome (nat * option (list (option Block))) :=
  match ns with
  | [] => Returns (maxLength, longestChain)
  | n :: ns' =>
      match net (chain_endpoint n) with
      | GetError => Panics NilDereference
      | GetResponse StatusCode Body =>
          if StatusCode =? 200 then
            chain <- Body ;;
            if (maxLength <? len chain)%nat then
              valid <- ValidChain chain ;;
              if valid
              then ResolveConflicts_loop net ns' (len chain) (Some chain)
              else ResolveConflicts_loop net ns' maxLength longestChain
            else ResolveConflicts_loop net ns' maxLength longestChain
          else ResolveConflicts_loop net ns' maxLength longestChain
      end
  end.

Definition ResolveConflicts (net : Network) (bc : Blockchain) : outcome (bool * Blockchain) :=
  found <- ResolveConflicts_loop net (neighbours bc) (len (Chain bc)) None ;;
  match snd found with
  | Some longestChain =>
      Returns (true, {| TransactionPool := TransactionPool bc;
                        Chain := longestChain;
                        BlockChainAddress := BlockChainAddress bc;
                        Port := Port bc;
                        neighbours := neighbours bc |})
  | None => Returns (false, bc)
  end.

End Code.

(** *** The notions of the properties *)

(** The pointers of a slice that are not nil, as their pointees. *)
Definition pointees {A : Type} (l : list (option A)) : list A :=
  flat_map (fun x => match x with Some a => [a] | None => [] end) l.

(** The transactions of the committed blocks, in chain order. *)
Definition committed (chain : list (option Block)) : list Transaction :=
  flat_map (fun b => pointees (elems (Transactions b))) (pointees chain).

(** No block of the chain is nil, and no transaction of a block. *)
Definition no_nil_entry (chain : list (option Block)) : Prop :=
  ~ In None chain
  /\ forall b, In (Some b) chain -> ~ In None (elems (Transactions b)).

(** No entry of the chain after the first is nil. *)
Definition blocks_after_first (chain : list (option Block)) : Prop :=
  forall i, nth_error chain (S i) <> Some None.

(** The balance as the specification words it: the float32 sum of the
    values received minus the float32 sum of the values sent. *)
Definition credits (chain : list (option Block)) (a : string) : float32 :=
  fold_left f32_add
    (map Value (filter (fun t => String.eqb a (RecipientBlockchainAddress t)) (committed chain)))
    f32_zero.

Definition debits (chain : list (option Block)) (a : string) : float32 :=
  fold_left f32_add
    (map Value (filter (fun t => String.eqb a (SenderBlockchainAddress t)) (committed chain)))
    f32_zero.

Definition BalanceOf_as_worded (chain : list (option Block)) (a : string) : float32 :=
  f32_sub (credits chain a) (debits chain a).

(** The exact balance, in units of [2^-149]. *)
Definition exact_balance (chain : list (option Block)) (a : string) : Z :=
  fold_left Z.add
    (map (fun t => units (Value t))
       (filter (fun t => String.eqb a (RecipientBlockchainAddress t)) (committed chain))) 0
  - fold_left Z.add
      (map (fun t => units (Value t))
         (filter (fun t => String.eqb a (SenderBlockchainAddress t)) (committed chain))) 0.

(** [a] is the sender or the recipient of no committed transaction. *)
Definition no_history (chain : list (option Block)) (a : string) : Prop :=
  forall t, In t (committed chain) ->
    String.eqb a (RecipientBlockchainAddress t) = false /\
    String.eqb a (SenderBlockchainAddress t) = false.

(** The transaction [Mining] adds for the node itself. *)
Definition reward (bc : Blockchain) : Transaction :=
  NewTransaction MINING_SENDER (BlockChainAddress bc) MINING_REWARD.

(** Every neighbour takes the two notifications. *)
Definition all_sent (web : Web) (ns : list string) : Prop :=
  forall n, In n ns ->
    web "DELETE"%string (transactions_endpoint n) = Sent
    /\ web "PUT"%string (consensus_endpoint n) = Sent.

(** The chains a pass of [ResolveConflicts] fetches: those of the neighbours
    that answer with status 200, in the order of the neighbour list. *)
Fixpoint fetched (net : Network) (ns : list string) : list (list (option Block)) :=
  match ns with
  | [] => []
  | n :: ns' =>
      match net (chain_endpoint n) with
      | GetResponse StatusCode (Returns chain) =>
          if StatusCode =? 200 then chain :: fetched net ns' else fetched net ns'
      | _ => fetched net ns'
      end
  end.

(** Every neighbour answers, every body with status 200 decodes without a
    panic, and to a chain without a nil block after the first. *)
Definition answers (net : Network) (ns : list string) : Prop :=
  forall n, In n ns ->
    exists code body, net (chain_endpoint n) = GetResponse code body /\
      (code = 200 -> exists chain, body = Returns chain /\ blocks_after_first chain).

(** A chain on which float32 rounding shows: address [B] receives 1, receives
    and sends [2^24] twice, and receives 1 again. *)
Definition rounding_chain : list (option Block) :=
  [ Some {| Nonce := 0; PreviousHash := Array32_zero; Timestamp := 0;
            Transactions :=
              Some [ Some (NewTransaction "X" "B" MINING_REWARD);
                     Some (NewTransaction "X" "B" f32_2p24);
                     Some (NewTransaction "B" "Y" f32_2p24);
                     Some (NewTransaction "X" "B" f32_2p24);
                     Some (NewTransaction "B" "Y" f32_2p24);
                     Some (NewTransaction "X" "B" MINING_REWARD) ] |} ].

Definition rounding_ledger : Blockchain :=
  {| TransactionPool := Some []; Chain := rounding_chain;
     BlockChainAddress := "node"; Port := 5001; neighbours := [] |}.

Section Notions.

Context {rt : GoRuntime} {mc : GoMachine}.

(** The hexadecimal digest of the trial block of the proof of work. *)
Definition trial_digest (nonce : Z) (previousHash : Array32)
    (transactions : slice (option Transaction)) : string :=
  Sprintf_x (Hash (Some {| Nonce := nonce; PreviousHash := previousHash;
                           Timestamp := 0; Transactions := transactions |})).

(** The two checks [ValidChain] makes on a block and its predecessor. *)
Definition linked (prev : option Block) (cur : Block) : Prop :=
  PreviousHash cur = Hash prev
  /\ ValidProof (Nonce cur) (PreviousHash cur) (Transactions cur) MINING_DIFFICULTY
     = Returns true.

(** Every block from index 1 on passes the two checks. *)
Definition all_linked (chain : list (option Block)) : Prop :=
  forall i prev cur,
    nth_error chain i = Some prev -> nth_error chain (S i) = Some (Some cur) ->
    linked prev cur.

(** A fetched chain the local node may adopt: strictly longer than the local
    chain and accepted by [ValidChain]. *)
Definition candidate (bc : Blockchain) (chain : list (option Block)) : Prop :=
  (len (Chain bc) < len chain)%nat /\ ValidChain chain = Returns true.

End Notions.

End Full.

(** *** The two embeddings side by side

    A ledger without nil pointers, as the whole code has it. *)
Definition lift_transactions (transactions : slice Transaction)
    : slice (option Transaction) :=
  option_map (map Some) transactions.

Definition lift_block (b : Block) : Full.Block :=
  {| Full.Nonce := Nonce b;
     Full.PreviousHash := PreviousHash b;
     Full.Timestamp := Timestamp b;
     Full.Transactions := lift_transactions (Transactions b) |}.

Definition lift_chain (chain : list Block) : list (option Full.Block) :=
  map (fun b => Some (lift_block b)) chain.

Definition lift_ledger (bc : Blockchain) : Full.Blockchain :=
  {| Full.TransactionPool := lift_transactions (TransactionPool bc);
     Full.Chain := lift_chain (Chain bc);
     Full.BlockChainAddress := BlockChainAddress bc;
     Full.Port := Port bc;
     Full.neighbours := neighbours bc |}.

Definition lift_network (net : Network) : Full.Network :=
  fun endpoint =>
    match net endpoint with
    | GetError => GetError
    | GetResponse StatusCode Body =>
        GetResponse StatusCode (chain <- Body ;; Returns (lift_chain chain))
    end.

(** The result of a method that returns a flag and the ledger. *)
Definition lift_result (r : outcome (bool * Blockchain)) : outcome (bool * Full.Blockchain) :=
  x <- r ;; Returns (fst x, lift_ledger (snd x)).

(** Neighbours that take every notification. *)
Definition obliging : Full.Web := fun _ _ => Full.Sent.

(** ** A runtime to run the model on concrete ledgers

    Stand-ins for the Go libraries, simple enough to evaluate by hand: JSON
    text without escaping, a digest that is 32 zero bytes when the byte sum
    of the message is a multiple of 5 and 32 bytes [ff] otherwise, and a
    signature check that accepts [r] when it is the key plus the first byte
    of the digest.  No property below depends on them; they instantiate the
    properties on concrete ledgers. *)
Module TestRuntime.

Definition dq : string := String (ascii_of_nat 34) EmptyString.
Definition quoted (s : string) : string := (dq ++ s ++ dq)%string.
Definition decimal (n : Z) : string := NilZero.string_of_int (Z.to_int n).

Definition float_text (f : float32) : string :=
  match f with
  | S754_zero s => if s then "-0" else "0"
  | S754_finite s m e =>
      (if s then "-" else "") ++ decimal (Zpos m) ++ "p" ++ decimal e
  | _ => ""
  end%string.

Definition comma {A : Type} (rest : list A) : string :=
  match rest with
  | [] => ""
  | _ => ","
  end%string.

Fixpoint text (v : GoValue) : string :=
  match v with
  | GoInt n => decimal n
  | GoString s => quoted s
  | GoFloat32 f => float_text f
  | GoStruct fields =>
      "{" ++ (fix members (fs : list (string * GoValue)) : string :=
                match fs with
                | [] => ""
                | (k, x) :: fs' =>
                    quoted k ++ ":" ++ text x ++ comma fs' ++ members fs'
                end) fields ++ "}"
  | GoSlice None => "null"
  | GoNil => "null"
  | GoSlice (Some items) =>
      "[" ++ (fix each (xs : list GoValue) : string :=
                match xs with
                | [] => ""
                | x :: xs' => text x ++ comma xs' ++ each xs'
                end) items ++ "]"
  end%string.

(** [json.Marshal] refuses NaN and the infinities. *)
Fixpoint unsupported (v : GoValue) : bool :=
  match v with
  | GoFloat32 S754_nan | GoFloat32 (S754_infinity _) => true
  | GoStruct fields =>
      (fix some (fs : list (string * GoValue)) : bool :=
         match fs with
         | [] => false
         | (_, x) :: fs' => unsupported x || some fs'
         end) fields
  | GoSlice (Some items) =>
      (fix some (xs : list GoValue) : bool :=
         match xs with
         | [] => false
         | x :: xs' => unsupported x || some xs'
         end) items
  | _ => false
  end.

Definition marshal (v : GoValue) : option bytes :=
  if unsupported v then None else Some (list_byte_of_string (text v)).

Definition checksum (m : bytes) : N :=
  fold_left (fun acc b => ((acc + Byte.to_N b) mod 5)%N) m 0%N.

Definition digest (m : bytes) : Array32 :=
  mkArray32 (repeat (if (checksum m =? 0)%N then x00 else xff) 32)
            (repeat_length _ 32).

Definition verify (pub : option Z) (hash : bytes) (r s : Z) : outcome bool :=
  match pub with
  | None => Panics NilDereference
  | Some key => Returns (r =? key + Z.of_N (Byte.to_N (hd x00 hash)))
  end.

#[export] Instance runtime : GoRuntime := {|
  json_Marshal := marshal;
  sha256_Sum256 := digest;
  PublicKey := Z;
  BigInt := Z;
  ecdsa_Verify := verify
|}.

(** A machine that can hold a string of [2^20] characters. *)
#[export] Instance machine : GoMachine := {|
  max_alloc := 2 ^ 20;
  max_alloc_min := ltac:(lia)
|}.

(** The signature the stand-in check accepts for [t] under [key]. *)
Definition sign (key : Z) (t : Transaction) : Signature (rt := runtime) :=
  {| sig_R := key + Z.of_N (Byte.to_N (hd x00 (a32_bytes
                 (digest (or_nil (marshal (Transaction_json t)))))));
     sig_S := 0 |}.

(** *** Sample ledgers *)

(** A fresh node, and the block its first round of mining appends (the
    search stops at nonce 2). *)
Definition genesis : Blockchain := NewBlockchain (rt := runtime) 7 "miner" 5001.

Definition genesis_block : Block :=
  {| Nonce := 0;
     PreviousHash := Hash (rt := runtime)
                       {| Nonce := 0; PreviousHash := Array32_zero;
                          Timestamp := 0; Transactions := None |};
     Timestamp := 7;
     Transactions := None |}.

Definition block1 : Block :=
  {| Nonce := 2;
     PreviousHash := Hash (rt := runtime) genesis_block;
     Timestamp := 100;
     Transactions := Some [NewTransaction MINING_SENDER "miner" MINING_REWARD] |}.

Definition longer_chain : list Block := [genesis_block; block1].

(** A node with the genesis chain and two neighbours: [peer1] serves the
    longer chain, [peer2] answers 404; any other address cannot be reached. *)
Definition peers : Network :=
  fun url =>
    if String.eqb url "http://peer1/chain" then GetResponse 200 (Returns longer_chain)
    else if String.eqb url "http://peer2/chain" then GetResponse 404 (Returns [])
    else GetError.

Definition node : Blockchain :=
  {| TransactionPool := Some []; Chain := [genesis_block];
     BlockChainAddress := "node"; Port := 5002;
     neighbours := ["peer1"; "peer2"]%string |}.

(** The same node when its only neighbour is [peer3], which is down. *)
Definition lonely : Blockchain :=
  {| TransactionPool := Some []; Chain := [genesis_block];
     BlockChainAddress := "node"; Port := 5002;
     neighbours := ["peer3"]%string |}.

(** A ledger whose chain credits [A] with the reward. *)
Definition funded : Blockchain :=
  {| TransactionPool := Some []; Chain := funded_chain;
     BlockChainAddress := "node"; Port := 5002; neighbours := [] |}.

End TestRuntime.

(** ** More sample ledgers *)
Module TestLedgers.

Import TestRuntime.


(** The block of [block1] created at a later clock reading: the proof of
    work does not cover the timestamp, so the same nonce passes. *)
Definition block1_late : Block :=
  {| Nonce := 2;
     PreviousHash := Hash (rt := runtime) genesis_block;
     Timestamp := 200;
     Transactions := Some [NewTransaction MINING_SENDER "miner" MINING_REWARD] |}.

Definition later_chain : list Block := [genesis_block; block1_late].

(** Two neighbours that serve different valid chains of the same length. *)
Definition twins : Network :=
  fun url =>
    if String.eqb url "http://peerA/chain" then GetResponse 200 (Returns longer_chain)
    else if String.eqb url "http://peerB/chain" then GetResponse 200 (Returns later_chain)
    else GetError.

Definition twin_node : Blockchain :=
  {| TransactionPool := Some []; Chain := [genesis_block];
     BlockChainAddress := "node"; Port := 5002;
     neighbours := ["peerA"; "peerB"]%string |}.

(** A node whose only neighbour answers 404 (under [peers]). *)
Definition quiet : Blockchain :=
  {| TransactionPool := Some []; Chain := [genesis_block];
     BlockChainAddress := "node"; Port := 5002;
     neighbours := ["peer2"]%string |}.

End TestLedgers.

(** ** Sample ledgers of the whole code *)
Module FullLedgers.

Import TestRuntime.

(** The fresh node of [TestRuntime], and the same node with the reward of
    its first round of mining in the pool. *)
Definition fresh : Full.Blockchain := lift_ledger genesis.

Definition rewarded : Full.Blockchain :=
  lift_ledger (set_TransactionPool genesis (Some [reward genesis])).

(** The two-block chain the first round of mining gives. *)
Definition mined_chain : list (option Full.Block) := lift_chain longer_chain.

(** The zero value of [Blockchain]: no genesis block. *)
Definition empty : Full.Blockchain :=
  {| Full.TransactionPool := None; Full.Chain := [];
     Full.BlockChainAddress := ""; Full.Port := 0; Full.neighbours := [] |}.

(** The fresh node with a nil transaction in its pool. *)
Definition nil_pool : Full.Blockchain :=
  {| Full.TransactionPool := Some [None]; Full.Chain := Full.Chain fresh;
     Full.BlockChainAddress := "miner"; Full.Port := 5001; Full.neighbours := [] |}.

(** The fresh node after [AddTransaction(MINING_SENDER, "miner", NaN, nil, nil)]. *)
Definition nan_pool : Full.Blockchain :=
  {| Full.TransactionPool := Some [Some (NewTransaction MINING_SENDER "miner" S754_nan)];
     Full.Chain := Full.Chain fresh;
     Full.BlockChainAddress := "miner"; Full.Port := 5001; Full.neighbours := [] |}.

(** The fresh node with one neighbour, whose address, with a space in it,
    makes no URL; the other addresses take every request. *)
Definition stray : Full.Blockchain :=
  {| Full.TransactionPool := None; Full.Chain := Full.Chain fresh;
     Full.BlockChainAddress := "miner"; Full.Port := 5001;
     Full.neighbours := ["a b"%string] |}.

Definition strict : Full.Web :=
  fun _ endpoint =>
    if String.eqb endpoint "http://a b/transactions" then Full.NoRequest
    else if String.eqb endpoint "http://a b/consensus" then Full.NoRequest
    else Full.Sent.

(** [node] and its two neighbours, and [funded], with their pointers. *)
Definition caller : Full.Blockchain := lift_ledger node.

Definition served : Full.Network := lift_network peers.

Definition holder : Full.Blockchain := lift_ledger funded.

(** A neighbour that answers 200 with a chain of two [null] entries. *)
Definition null_peer : Full.Network :=
  fun endpoint =>
    if String.eqb endpoint "http://peer1/chain"
    then GetResponse 200 (Returns [None; None])
    else GetError.

End FullLedgers.

(** ** A runtime with the digest of the empty input

    [TestRuntime] with one digest changed to what SHA-256 gives: the digest
    of the empty input, which is what [Hash] takes when [json.Marshal]
    returns an error. *)
Module EmptyDigest.

Definition sha256_of_empty : Array32 :=
  mkArray32
    [ xe3; xb0; xc4; x42; x98; xfc; x1c; x14; x9a; xfb; xf4; xc8; x99; x6f; xb9; x24;
      x27; xae; x41; xe4; x64; x9b; x93; x4c; xa4; x95; x99; x1b; x78; x52; xb8; x55 ]
    eq_refl.

Definition digest (m : bytes) : Array32 :=
  match m with
  | [] => sha256_of_empty
  | _ => TestRuntime.digest m
  end.

Definition runtime : GoRuntime := {|
  json_Marshal := TestRuntime.marshal;
  sha256_Sum256 := digest;
  PublicKey := Z;
  BigInt := Z;
  ecdsa_Verify := TestRuntime.verify
|}.

End EmptyDigest.

(** * Properties *)

(** ** Arrays, strings and results *)

Lemma bytes_eqb_eq (x y : bytes) : bytes_eqb x y = true <-> x = y.
Proof.
  unfold bytes_eqb. destruct (list_eq_dec Byte.byte_eq_dec x y); split; congruence.
Qed.

(** Two arrays with the same bytes are the same array: the length proof
    carries no information. *)
Lemma Array32_ext (x y : Array32) : a32_bytes x = a32_bytes y -> x = y.
Proof.
  destruct x as [bx hx], y as [by_ hy]. simpl. intros ->.
  f_equal. apply UIP_dec. decide equality.
Qed.

Lemma Array32_eqb_eq (x y : Array32) : Array32_eqb x y = true <-> x = y.
Proof.
  unfold Array32_eqb. rewrite bytes_eqb_eq. split.
  - apply Array32_ext.
  - now intros ->.
Qed.

Lemma hex_of_bytes_length (bs : bytes) :
  String.length (hex_of_bytes bs) = (2 * List.length bs)%nat.
Proof.
  induction bs as [|b bs IH]; simpl; [reflexivity|]. rewrite IH. lia.
Qed.

Lemma Sprintf_x_length (a : Array32) : String.length (Sprintf_x a) = 64%nat.
Proof.
  unfold Sprintf_x. rewrite hex_of_bytes_length, (a32_len a). reflexivity.
Qed.

Lemma repeat_string_0_length (n : nat) :
  String.length (repeat_string "0" n) = n.
Proof. induction n as [|n IH]; simpl; congruence. Qed.

Lemma string_eqb_length (s t : string) :
  String.eqb s t = true -> String.length s = String.length t.
Proof. intros H. apply String.eqb_eq in H. now subst. Qed.

(** On a string of at least three characters, [s[:3] == strings.Repeat("0", n)]
    compares three characters with [n] zeros. *)
Lemma head3_eqb_zeros (s : string) (n : nat) :
  (3 <= String.length s)%nat ->
  String.eqb (substring 0 3 s) (repeat_string "0" n)
  = Nat.eqb n 3 && leading_zeros 3 s.
Proof.
  intros Hlen.
  destruct s as [|c1 [|c2 [|c3 s]]]; simpl in Hlen; try lia.
  assert (Hsub : substring 0 3 (String c1 (String c2 (String c3 s)))
                 = String c1 (String c2 (String c3 EmptyString))).
  { simpl. now destruct s. }
  rewrite Hsub.
  destruct (Nat.eqb n 3) eqn:Hn.
  - apply Nat.eqb_eq in Hn. subst n. simpl.
    destruct (Ascii.eqb c1 "0"), (Ascii.eqb c2 "0"), (Ascii.eqb c3 "0"); reflexivity.
  - cbn [andb]. apply Nat.eqb_neq in Hn.
    destruct (String.eqb (String c1 (String c2 (String c3 EmptyString)))
                (repeat_string "0" n)) eqn:E; [|reflexivity].
    apply string_eqb_length in E. rewrite repeat_string_0_length in E.
    simpl in E. congruence.
Qed.

Section ProofOfWorkProperties.

Context {rt : GoRuntime}.

(** What [ValidProof] computes for a difficulty that is not negative: the
    three leading digits of the trial digest are compared with [difficulty]
    zeros, so the answer is [false] unless the difficulty is 3. *)
Lemma ValidProof_eq (nonce : Z) (previousHash : Array32)
    (transactions : slice Transaction) (difficulty : Z) :
  0 <= difficulty ->
  ValidProof nonce previousHash transactions difficulty
  = Returns ((difficulty =? 3)
             && leading_zeros 3 (trial_digest nonce previousHash transactions)).
Proof.
  intros Hd. unfold ValidProof, strings_Repeat, slice_to, trial_digest, trial_block.
  destruct (difficulty <? 0) eqn:Hneg; [apply Z.ltb_lt in Hneg; lia|].
  cbn [bind].
  set (digest := Sprintf_x (Hash _)).
  assert (Hlen : String.length digest = 64%nat) by apply Sprintf_x_length.
  replace (3 <=? String.length digest)%nat with true
    by (symmetry; apply Nat.leb_le; lia).
  cbn [bind]. f_equal.
  rewrite head3_eqb_zeros by lia. f_equal.
  destruct (difficulty =? 3) eqn:E.
  - apply Z.eqb_eq in E. subst. reflexivity.
  - apply Z.eqb_neq in E. apply Nat.eqb_neq. lia.
Qed.

Lemma ValidProof_negative (nonce : Z) (previousHash : Array32)
    (transactions : slice Transaction) (difficulty : Z) :
  difficulty < 0 ->
  ValidProof nonce previousHash transactions difficulty = Panics NegativeRepeatCount.
Proof.
  intros Hd. unfold ValidProof, strings_Repeat.
  apply Z.ltb_lt in Hd. now rewrite Hd.
Qed.

(** At the mining difficulty the check is the one the specification words:
    the first three hexadecimal digits are zeros. *)
Lemma ValidProof_mining (nonce : Z) (previousHash : Array32)
    (transactions : slice Transaction) :
  ValidProof nonce previousHash transactions MINING_DIFFICULTY
  = Returns (leading_zeros 3 (trial_digest nonce previousHash transactions)).
Proof.
  rewrite ValidProof_eq by (unfold MINING_DIFFICULTY; lia). reflexivity.
Qed.

(** C1. The property reads: for every difficulty [d >= 0], [ValidProof]
    returns true exactly when the first [d] hexadecimal digits of the trial
    digest (timestamp 0) are zeros.  The code compares the first THREE digits
    ([guessHashStr[:3]]) with a string of [d] zeros, so at difficulty 0, where
    the property asks for [true] on every input (no digit is required to be
    zero), it returns [false] on every input. *)
Theorem ValidProof_difficulty_0 (nonce : Z) (previousHash : Array32)
    (transactions : slice Transaction) :
  ValidProof nonce previousHash transactions 0 = Returns false
  /\ leading_zeros 0 (trial_digest nonce previousHash transactions) = true.
Proof.
  split; [|reflexivity].
  rewrite ValidProof_eq by lia. reflexivity.
Qed.

End ProofOfWorkProperties.

(** ** The pool copy *)

Section ProofOfWorkMethod.

Context {rt : GoRuntime}.

Lemma NewTransaction_eta (t : Transaction) :
  NewTransaction (SenderBlockchainAddress t) (RecipientBlockchainAddress t) (Value t) = t.
Proof. now destruct t. Qed.

(** The copy of the pool holds equal transactions in the same order, in a
    slice that is not nil. *)
Lemma CopyTransactionPool_eq (bc : Blockchain) :
  CopyTransactionPool bc = Some (elems (TransactionPool bc)).
Proof.
  unfold CopyTransactionPool. f_equal.
  rewrite <- (map_id (elems (TransactionPool bc))) at 2.
  apply map_ext. intros t. apply NewTransaction_eta.
Qed.

(** [ProofOfWork] is the loop at the mining difficulty, on the hash of the
    last block and the transactions of the pool. *)
Lemma ProofOfWork_eq (fuel : nat) (bc : Blockchain) (last : Block) :
  LastBlock bc = Returns last ->
  ProofOfWork fuel bc
  = ProofOfWork_loop MINING_DIFFICULTY (Hash last)
      (Some (elems (TransactionPool bc))) fuel 0.
Proof.
  intros Hlast. unfold ProofOfWork. now rewrite Hlast, CopyTransactionPool_eq.
Qed.

End ProofOfWorkMethod.

(** ** The search *)

Lemma wrap64_int (z : Z) : - 2 ^ 63 <= z < 2 ^ 63 -> wrap64 z = z.
Proof.
  intros Hz. unfold wrap64. rewrite Z.mod_small; lia.
Qed.

Lemma wrap64_mod (z : Z) : wrap64 (z mod 2 ^ 64) = wrap64 z.
Proof.
  unfold wrap64. now rewrite Zplus_mod_idemp_l.
Qed.

Lemma int_incr_wrap64 (k : Z) : int_incr (wrap64 k) = wrap64 (k + 1).
Proof.
  unfold int_incr, wrap64.
  replace ((k + 2 ^ 63) mod 2 ^ 64 - 2 ^ 63 + 1 + 2 ^ 63)
    with ((k + 2 ^ 63) mod 2 ^ 64 + 1) by lia.
  rewrite Zplus_mod_idemp_l. do 2 f_equal. lia.
Qed.

Section SearchProperties.

Context {rt : GoRuntime}.
Variables (previousHash : Array32) (transactions : slice Transaction).

Lemma ProofOfWork_loop_unfold (difficulty : Z) (fuel : nat) (nonce : Z) :
  ProofOfWork_loop difficulty previousHash transactions fuel nonce
  = (ok <- ValidProof nonce previousHash transactions difficulty ;;
     if ok then Returns nonce
     else match fuel with
          | O => OutOfFuel
          | S fuel' =>
              ProofOfWork_loop difficulty previousHash transactions fuel'
                (int_incr nonce)
          end).
Proof. destruct fuel; reflexivity. Qed.

(** A nonce the loop returns is one [ValidProof] accepted. *)
Lemma ProofOfWork_loop_sound (difficulty : Z) (fuel : nat) (nonce found : Z) :
  ProofOfWork_loop difficulty previousHash transactions fuel nonce = Returns found ->
  ValidProof found previousHash transactions difficulty = Returns true.
Proof.
  revert nonce. induction fuel as [|fuel IH]; intros nonce;
    rewrite ProofOfWork_loop_unfold;
    destruct (ValidProof nonce previousHash transactions difficulty)
      as [[|]| |] eqn:Hvalid; cbn [bind]; try discriminate.
  - now intros [= <-].
  - now intros [= <-].
  - apply IH.
Qed.

End SearchProperties.

(** ** Chain validation *)

Section ValidChainProperties.

Context {rt : GoRuntime}.

Lemma all_linked_single (b : Block) : all_linked [b].
Proof.
  intros i prev cur _ H. destruct i; discriminate H.
Qed.

Lemma all_linked_cons (pre b : Block) (rest : list Block) :
  all_linked (pre :: b :: rest) <-> linked pre b /\ all_linked (b :: rest).
Proof.
  split.
  - intros H. split.
    + apply (H 0%nat); reflexivity.
    + intros i prev cur Hp Hc. apply (H (S i)); assumption.
  - intros [H0 H] i prev cur Hp Hc. destruct i as [|i].
    + simpl in Hp, Hc. injection Hp as <-. injection Hc as <-. exact H0.
    + apply (H i); assumption.
Qed.

Lemma ValidChain_loop_spec (preBlock : Block) (rest : list Block) :
  exists valid, ValidChain_loop preBlock rest = Returns valid
    /\ (valid = true <-> all_linked (preBlock :: rest)).
Proof.
  revert preBlock. induction rest as [|b rest IH]; intros preBlock.
  - exists true. split; [reflexivity|]. split; auto using all_linked_single.
  - cbn [ValidChain_loop]. rewrite ValidProof_mining. cbn [bind].
    destruct (Array32_eqb (PreviousHash b) (Hash preBlock)) eqn:Hhash; cbn [negb].
    + apply Array32_eqb_eq in Hhash.
      destruct (leading_zeros 3 _) eqn:Hpow; cbn [negb].
      * destruct (IH b) as (valid & Hrun & Hvalid).
        exists valid. split; [exact Hrun|].
        rewrite all_linked_cons, <- Hvalid. unfold linked.
        rewrite ValidProof_mining, Hpow. tauto.
      * exists false. split; [reflexivity|].
        rewrite all_linked_cons. unfold linked.
        rewrite ValidProof_mining, Hpow. split; [discriminate|].
        intros [[_ H] _]. discriminate H.
    + exists false. split; [reflexivity|].
      rewrite all_linked_cons. unfold linked. split; [discriminate|].
      intros [[H _] _]. apply Array32_eqb_eq in H. congruence.
Qed.

End ValidChainProperties.

(** ** Consensus *)

Section ResolveConflictsProperties.

Context {rt : GoRuntime}.
Variable net : Network.

(** One neighbour whose fetch fails is enough for the loop not to return:
    [resp] is nil and [resp.StatusCode] panics. *)
Lemma ResolveConflicts_loop_GetError (ns : list string) (n : string) :
  In n ns -> net (chain_endpoint n) = GetError ->
  forall maxLength longestChain result,
    ResolveConflicts_loop net ns maxLength longestChain <> Returns result.
Proof.
  intros Hin Hget. induction ns as [|x ns IH]; [destruct Hin|].
  intros maxLength longestChain result. cbn [ResolveConflicts_loop].
  destruct Hin as [-> | Hin].
  - rewrite Hget. discriminate.
  - specialize (IH Hin).
    destruct (net (chain_endpoint x)) as [|code body]; [discriminate|].
    destruct (code =? 200); [|apply IH].
    destruct body as [chain| |]; cbn [bind]; try discriminate.
    destruct (maxLength <? len chain)%nat; [|apply IH].
    destruct (ValidChain chain) as [[|]| |]; cbn [bind]; try discriminate; apply IH.
Qed.

(** C6. The property reads: a neighbour whose fetch fails is skipped and
    never aborts the pass.  In the code the error of [http.Get] is dropped
    and the nil response is dereferenced: when the first neighbour's fetch
    fails the pass panics, and a failed fetch anywhere in the list keeps the
    pass from returning. *)
Theorem ResolveConflicts_GetError (bc : Blockchain) (n : string) :
  In n (neighbours bc) -> net (chain_endpoint n) = GetError ->
  (forall result, ResolveConflicts net bc <> Returns result)
  /\ (hd_error (neighbours bc) = Some n ->
      ResolveConflicts net bc = Panics NilDereference).
Proof.
  intros Hin Hget. split.
  - intros result Hrun. unfold ResolveConflicts in Hrun.
    destruct (ResolveConflicts_loop net (neighbours bc) (len (Chain bc)) None)
      as [found| |] eqn:Hloop; try discriminate.
    exact (ResolveConflicts_loop_GetError _ n Hin Hget _ _ _ Hloop).
  - unfold ResolveConflicts. destruct (neighbours bc) as [|x ns]; [discriminate|].
    intros [= ->]. cbn [ResolveConflicts_loop]. now rewrite Hget.
Qed.

(** A pass that returns leaves a bound that a second pass over the same
    answers cannot beat: started at that bound or above, the loop changes
    nothing. *)
Lemma ResolveConflicts_loop_settled (ns : list string) :
  forall maxLength longestChain maxLength' longestChain',
    ResolveConflicts_loop net ns maxLength longestChain
    = Returns (maxLength', longestChain') ->
    (maxLength <= maxLength')%nat
    /\ ((longestChain' = longestChain /\ maxLength' = maxLength)
        \/ exists c, longestChain' = Some c /\ len c = maxLength')
    /\ forall bound kept, (maxLength' <= bound)%nat ->
         ResolveConflicts_loop net ns bound kept = Returns (bound, kept).
Proof.
  induction ns as [|n ns IH]; intros m lc m' lc'; cbn [ResolveConflicts_loop].
  - intros [= <- <-]. split; [lia|]. split; [now left|]. reflexivity.
  - destruct (net (chain_endpoint n)) as [|code body]; [discriminate|].
    destruct (code =? 200); [|apply IH].
    destruct body as [chain| |]; cbn [bind]; try discriminate.
    destruct (m <? len chain)%nat eqn:Hlonger.
    + apply Nat.ltb_lt in Hlonger.
      destruct (ValidChain chain) as [[|]| |] eqn:Hvalid; cbn [bind]; try discriminate.
      * intros Hrun. destruct (IH _ _ _ _ Hrun) as (Hle & Hcase & Hagain).
        split; [lia|]. split.
        -- right. destruct Hcase as [[-> ->] | Hc]; [now exists chain | exact Hc].
        -- intros bound kept Hb.
           replace (bound <? len chain)%nat with false
             by (symmetry; apply Nat.ltb_ge; lia).
           now apply Hagain.
      * intros Hrun. destruct (IH _ _ _ _ Hrun) as (Hle & Hcase & Hagain).
        split; [lia|]. split; [exact Hcase|].
        intros bound kept Hb. destruct (bound <? len chain)%nat; now apply Hagain.
    + apply Nat.ltb_ge in Hlonger.
      intros Hrun. destruct (IH _ _ _ _ Hrun) as (Hle & Hcase & Hagain).
      split; [lia|]. split; [exact Hcase|].
      intros bound kept Hb.
      replace (bound <? len chain)%nat with false
        by (symmetry; apply Nat.ltb_ge; lia).
      now apply Hagain.
Qed.

(** C9. If a call of [ResolveConflicts] returns, a second call with the same
    answers of the neighbours returns [false] and leaves the ledger, the
    chain included, as the first call left it. *)
Theorem ResolveConflicts_idempotent (bc bc1 : Blockchain) (replaced : bool) :
  ResolveConflicts net bc = Returns (replaced, bc1) ->
  ResolveConflicts net bc1 = Returns (false, bc1).
Proof.
  unfold ResolveConflicts. intros Hrun.
  destruct (ResolveConflicts_loop net (neighbours bc) (len (Chain bc)) None)
    as [[m' lc']| |] eqn:Hloop; cbn [bind snd] in Hrun; try discriminate.
  destruct (ResolveConflicts_loop_settled _ _ _ _ _ Hloop) as (_ & Hcase & Hagain).
  assert (Hsame : neighbours bc1 = neighbours bc /\ len (Chain bc1) = m').
  { destruct Hcase as [[-> ->] | (c & -> & Hlen)].
    - injection Hrun as _ <-. auto.
    - injection Hrun as _ <-. auto. }
  destruct Hsame as [-> ->].
  rewrite (Hagain m' None (Nat.le_refl _)). reflexivity.
Qed.

End ResolveConflictsProperties.

(** ** Admission *)

Section AddTransactionProperties.

Context {rt : GoRuntime}.

Lemma AddTransaction_mining (bc : Blockchain) (recipient : string) (value : float32)
    (senderPublicKey : option PublicKey) (s : option Signature) :
  AddTransaction bc MINING_SENDER recipient value senderPublicKey s
  = Returns (true, set_TransactionPool bc
                     (append (TransactionPool bc)
                        (NewTransaction MINING_SENDER recipient value))).
Proof.
  unfold AddTransaction. now rewrite String.eqb_refl.
Qed.

(** The balance reads the chain and nothing else of the ledger. *)
Lemma CalculateTotalAmount_chain (bc bc' : Blockchain) (a : string) :
  Chain bc = Chain bc' -> CalculateTotalAmount bc a = CalculateTotalAmount bc' a.
Proof.
  unfold CalculateTotalAmount. now intros ->.
Qed.

(** Two admissions in a row of transfers of one sender: each is checked
    against the balance over the chain, which the first admission does not
    change. *)
Lemma AddTransaction_twice (bc : Blockchain) (sender r1 r2 : string) (v1 v2 : float32)
    (k1 k2 : option PublicKey) (s1 s2 : option Signature) :
  sender <> MINING_SENDER ->
  VerifyTransactionSignature k1 s1 (NewTransaction sender r1 v1) = Returns true ->
  VerifyTransactionSignature k2 s2 (NewTransaction sender r2 v2) = Returns true ->
  f32_lt (CalculateTotalAmount bc sender) v1 = false ->
  f32_lt (CalculateTotalAmount bc sender) v2 = false ->
  exists bc1 bc2,
    AddTransaction bc sender r1 v1 k1 s1 = Returns (true, bc1)
    /\ AddTransaction bc1 sender r2 v2 k2 s2 = Returns (true, bc2)
    /\ Chain bc2 = Chain bc
    /\ elems (TransactionPool bc2)
       = elems (TransactionPool bc)
         ++ [NewTransaction sender r1 v1; NewTransaction sender r2 v2].
Proof.
  intros Hsender Hs1 Hs2 Hb1 Hb2.
  set (bc1 := set_TransactionPool bc
                (append (TransactionPool bc) (NewTransaction sender r1 v1))).
  set (bc2 := set_TransactionPool bc1
                (append (TransactionPool bc1) (NewTransaction sender r2 v2))).
  exists bc1, bc2.
  apply String.eqb_neq in Hsender.
  repeat split.
  - unfold AddTransaction. rewrite Hsender, Hs1. cbn [bind]. now rewrite Hb1.
  - unfold AddTransaction. rewrite Hsender, Hs2. cbn [bind].
    rewrite (CalculateTotalAmount_chain bc1 bc) by reflexivity. now rewrite Hb2.
  - cbn. now rewrite <- app_assoc.
Qed.

End AddTransactionProperties.

Section OverdrawProperties.

Context {rt : GoRuntime}.

(** C10. There is a chain, a sender and two amounts, each at most the
    sender's balance over the chain and together more than it, such that on
    every ledger with that chain two successive calls of [AddTransaction]
    with signatures that verify both return [true] and leave both
    transactions in the pool, after what was there. *)
Theorem AddTransaction_overdraw :
  exists (chain : list Block) (sender : string) (v1 v2 : float32),
    sender <> MINING_SENDER
    /\ forall bc, Chain bc = chain ->
         let balance := CalculateTotalAmount bc sender in
         f32_le v1 balance = true /\ f32_le v2 balance = true
         /\ f32_lt balance (f32_add v1 v2) = true
         /\ forall r1 r2 k1 k2 s1 s2,
              VerifyTransactionSignature k1 s1 (NewTransaction sender r1 v1)
              = Returns true ->
              VerifyTransactionSignature k2 s2 (NewTransaction sender r2 v2)
              = Returns true ->
              exists bc1 bc2,
                AddTransaction bc sender r1 v1 k1 s1 = Returns (true, bc1)
                /\ AddTransaction bc1 sender r2 v2 k2 s2 = Returns (true, bc2)
                /\ Chain bc2 = Chain bc
                /\ elems (TransactionPool bc2)
                   = elems (TransactionPool bc)
                     ++ [NewTransaction sender r1 v1; NewTransaction sender r2 v2].
Proof.
  exists funded_chain, "A"%string, MINING_REWARD, MINING_REWARD.
  split; [discriminate|].
  intros bc Hchain balance.
  assert (Hbalance : balance = MINING_REWARD).
  { unfold balance, CalculateTotalAmount. rewrite Hchain. reflexivity. }
  rewrite Hbalance.
  split; [reflexivity|]. split; [reflexivity|]. split; [reflexivity|].
  intros r1 r2 k1 k2 s1 s2 Hs1 Hs2.
  apply AddTransaction_twice; try assumption; try discriminate;
    fold balance; rewrite Hbalance; reflexivity.
Qed.

End OverdrawProperties.

(** ** Mining *)

Section MiningProperties.

Context {rt : GoRuntime}.

(** [Mining] in three steps: the reward joins the pool, the search runs on
    the hash of the last block and the pool, and the block is created. *)
Lemma Mining_eq (fuel : nat) (now : Z) (bc : Blockchain) :
  let mined := Some (elems (TransactionPool bc) ++ [reward bc]) in
  let bc1 := set_TransactionPool bc mined in
  Mining fuel now bc
  = (last <- LastBlock bc ;;
     nonce <- ProofOfWork_loop MINING_DIFFICULTY (Hash last) mined fuel 0 ;;
     Returns (true, snd (CreateBlock now bc1 nonce (Hash last)))).
Proof.
  intros mined bc1. unfold Mining. rewrite AddTransaction_mining. cbn [bind snd].
  fold (reward bc). unfold ProofOfWork. rewrite CopyTransactionPool_eq.
  change (LastBlock (set_TransactionPool bc (append (TransactionPool bc) (reward bc))))
    with (LastBlock bc).
  destruct (LastBlock bc) as [last| |]; reflexivity.
Qed.

(** What holds after a call of [Mining] that returned. *)
Lemma Mining_returned (fuel : nat) (now : Z) (bc bc' : Blockchain) (result : bool) :
  Mining fuel now bc = Returns (result, bc') ->
  result = true
  /\ TransactionPool bc' = Some []
  /\ exists last block,
       LastBlock bc = Returns last
       /\ Chain bc' = Chain bc ++ [block]
       /\ Transactions block = Some (elems (TransactionPool bc) ++ [reward bc])
       /\ PreviousHash block = Hash last
       /\ Timestamp block = now
       /\ ValidProof (Nonce block) (PreviousHash block) (Transactions block)
            MINING_DIFFICULTY = Returns true.
Proof.
  rewrite Mining_eq. cbv zeta.
  set (mined := Some (elems (TransactionPool bc) ++ [reward bc])).
  destruct (LastBlock bc) as [last| |]; cbn [bind]; try discriminate.
  destruct (ProofOfWork_loop MINING_DIFFICULTY (Hash last) mined fuel 0)
    as [nonce| |] eqn:Hloop; cbn [bind]; try discriminate.
  intros [= <- <-]. split; [reflexivity|]. split; [reflexivity|].
  exists last, (newBlock now nonce (Hash last) mined).
  repeat split. cbn [newBlock Nonce PreviousHash Transactions].
  exact (ProofOfWork_loop_sound _ _ _ _ _ _ Hloop).
Qed.

Lemma LastBlock_returns (bc : Blockchain) :
  Chain bc <> [] -> exists last, LastBlock bc = Returns last.
Proof.
  intros Hne. unfold LastBlock.
  destruct (nth_error (Chain bc) (len (Chain bc) - 1)) as [b|] eqn:E; eauto.
  apply nth_error_None in E. unfold len in E.
  destruct (Chain bc); [congruence | simpl in E; lia].
Qed.

Lemma AddTransaction_chain (bc bc' : Blockchain) (sender recipient : string)
    (value : float32) (key : option PublicKey) (s : option Signature) (ok : bool) :
  AddTransaction bc sender recipient value key s = Returns (ok, bc') ->
  Chain bc' = Chain bc.
Proof.
  unfold AddTransaction. destruct (String.eqb sender MINING_SENDER).
  - now intros [= _ <-].
  - destruct (VerifyTransactionSignature key s _) as [[|]| |]; cbn [bind];
      try discriminate.
    + destruct (f32_lt _ value); now intros [= _ <-].
    + now intros [= _ <-].
Qed.

Lemma ResolveConflicts_chain (net : Network) (bc bc' : Blockchain) (ok : bool) :
  Chain bc <> [] -> ResolveConflicts net bc = Returns (ok, bc') -> Chain bc' <> [].
Proof.
  intros Hne. unfold ResolveConflicts.
  destruct (ResolveConflicts_loop net (neighbours bc) (len (Chain bc)) None)
    as [[m' lc']| |] eqn:Hloop; cbn [bind snd]; try discriminate.
  destruct (ResolveConflicts_loop_settled _ _ _ _ _ _ Hloop)
    as (Hle & [[-> ->] | (c & -> & Hlen)] & _).
  - now intros [= _ <-].
  - intros [= _ <-]. cbn [set_Chain Chain]. intros ->.
    cbn in Hlen. subst m'. destruct (Chain bc); [congruence | simpl in Hle; lia].
Qed.

(** The chain of a ledger a node can hold has its genesis block, so
    [LastBlock] returns on it. *)
Lemma reachable_chain (bc : Blockchain) : reachable bc -> Chain bc <> [].
Proof.
  induction 1 as [now address port
                 | bc bc' sender recipient value key s ok _ IH Hcall
                 | bc bc' fuel now ok _ IH Hcall
                 | bc now nonce previousHash _ IH
                 | bc bc' net ok _ IH Hcall
                 | bc _ IH
                 | bc found _ IH].
  - discriminate.
  - now rewrite (AddTransaction_chain _ _ _ _ _ _ _ _ Hcall).
  - destruct (Mining_returned _ _ _ _ _ Hcall) as (_ & _ & last & block & _ & -> & _).
    now destruct (Chain bc).
  - cbn. now destruct (Chain bc).
  - exact (ResolveConflicts_chain _ _ _ _ IH Hcall).
  - exact IH.
  - exact IH.
Qed.

End MiningProperties.

(** ** Balances *)

Section BalanceProperties.

Lemma fold_left_flat_map {A B C : Type} (f : A -> C -> A) (g : B -> list C)
    (l : list B) (acc : A) :
  fold_left f (flat_map g l) acc
  = fold_left (fun acc x => fold_left f (g x) acc) l acc.
Proof.
  revert acc. induction l as [|x l IH]; intros acc; [reflexivity|].
  cbn [flat_map fold_left]. now rewrite fold_left_app, IH.
Qed.

Lemma filter_none {A : Type} (f : A -> bool) (l : list A) :
  (forall x, In x l -> f x = false) -> filter f l = [].
Proof.
  induction l as [|x l IH]; intros H; [reflexivity|].
  cbn [filter]. rewrite (H x (or_introl eq_refl)).
  apply IH. intros y Hy. apply H. now right.
Qed.

Lemma f32_sub_zero (x : float32) : f32_sub x f32_zero = x.
Proof. destruct x as [[|]|[|]| |s m e]; reflexivity. Qed.

(** A transaction that does not name the address leaves the total as it is. *)
Lemma account_other (a : string) (total : float32) (t : Transaction) :
  String.eqb a (RecipientBlockchainAddress t) = false ->
  String.eqb a (SenderBlockchainAddress t) = false ->
  account a total t = total.
Proof. unfold account. now intros -> ->. Qed.

Lemma fold_account_no_history (a : string) (l : list Transaction) (total : float32) :
  (forall t, In t l ->
     String.eqb a (RecipientBlockchainAddress t) = false /\
     String.eqb a (SenderBlockchainAddress t) = false) ->
  fold_left (account a) l total = total.
Proof.
  revert total. induction l as [|t l IH]; intros total H; [reflexivity|].
  cbn [fold_left]. destruct (H t (or_introl eq_refl)) as [Hr Hs].
  rewrite account_other by assumption. apply IH. intros u Hu. apply H. now right.
Qed.

Lemma fold_account_credits_only (a : string) (l : list Transaction) (total : float32) :
  (forall t, In t l -> String.eqb a (SenderBlockchainAddress t) = false) ->
  fold_left (account a) l total
  = fold_left f32_add
      (map Value (filter (fun t => String.eqb a (RecipientBlockchainAddress t)) l))
      total.
Proof.
  revert total. induction l as [|t l IH]; intros total H; [reflexivity|].
  cbn [fold_left filter]. unfold account at 2.
  rewrite (H t (or_introl eq_refl)).
  destruct (String.eqb a (RecipientBlockchainAddress t)); cbn [map fold_left];
    apply IH; intros u Hu; apply H; now right.
Qed.

End BalanceProperties.

(** ** The properties on the sample ledgers *)

Module Samples.

Import TestRuntime.

(** The stand-in signature check accepts what [sign] produces. *)
Lemma verify_sign (key : Z) (t : Transaction) :
  VerifyTransactionSignature (rt := runtime) (Some key) (Some (sign key t)) t
  = Returns true.
Proof.
  unfold VerifyTransactionSignature, sign. cbn. now rewrite Z.eqb_refl.
Qed.

Example genesis_chain : Chain genesis = [genesis_block].
Proof. reflexivity. Qed.

Example mining_genesis :
  Mining (rt := runtime) 2 100 genesis
  = Returns (true, set_Chain genesis longer_chain).
Proof. vm_compute. reflexivity. Qed.

Example mining_genesis_short_of_fuel :
  Mining (rt := runtime) 1 100 genesis = OutOfFuel.
Proof. vm_compute. reflexivity. Qed.

Example ResolveConflicts_node :
  ResolveConflicts (rt := runtime) peers node
  = Returns (true, set_Chain node longer_chain).
Proof. vm_compute. reflexivity. Qed.

(** [node] adopts the longer chain, and a second pass changes nothing. *)
Lemma ResolveConflicts_idempotent_witness :
  ResolveConflicts (rt := runtime) peers node
  = Returns (true, set_Chain node longer_chain)
  /\ ResolveConflicts (rt := runtime) peers (set_Chain node longer_chain)
     = Returns (false, set_Chain node longer_chain).
Proof.
  assert (Hfirst : ResolveConflicts (rt := runtime) peers node
                   = Returns (true, set_Chain node longer_chain))
    by (vm_compute; reflexivity).
  split; [exact Hfirst|].
  exact (ResolveConflicts_idempotent (rt := runtime) peers node _ true Hfirst).
Defined.

(** The pass of [lonely] panics on its unreachable neighbour. *)
Lemma ResolveConflicts_GetError_witness :
  In "peer3"%string (neighbours lonely)
  /\ peers (chain_endpoint "peer3") = GetError
  /\ ResolveConflicts (rt := runtime) peers lonely = Panics NilDereference.
Proof.
  assert (Hin : In "peer3"%string (neighbours lonely)) by (left; reflexivity).
  assert (Hget : peers (chain_endpoint "peer3") = GetError) by reflexivity.
  split; [exact Hin|]. split; [exact Hget|].
  destruct (ResolveConflicts_GetError (rt := runtime) peers lonely "peer3" Hin Hget)
    as [_ Hpanic].
  apply Hpanic. reflexivity.
Defined.

(** The two transfers, signed for the stand-in check, are both admitted. *)
Lemma AddTransaction_overdraw_witness :
  exists (chain : list Block) (sender : string) (v1 v2 : float32),
    sender <> MINING_SENDER
    /\ forall bc, Chain bc = chain ->
         f32_lt (CalculateTotalAmount bc sender) (f32_add v1 v2) = true
         /\ exists bc1 bc2,
              AddTransaction (rt := runtime) bc sender "B" v1 (Some 11)
                (Some (sign 11 (NewTransaction sender "B" v1)))
              = Returns (true, bc1)
              /\ AddTransaction (rt := runtime) bc1 sender "C" v2 (Some 11)
                   (Some (sign 11 (NewTransaction sender "C" v2)))
                 = Returns (true, bc2)
              /\ elems (TransactionPool bc2)
                 = elems (TransactionPool bc)
                   ++ [NewTransaction sender "B" v1; NewTransaction sender "C" v2].
Proof.
  destruct (AddTransaction_overdraw (rt := runtime))
    as (chain & sender & v1 & v2 & Hsender & H).
  exists chain, sender, v1, v2. split; [exact Hsender|].
  intros bc Hchain. destruct (H bc Hchain) as (_ & _ & Hsum & Hcalls).
  split; [exact Hsum|].
  destruct (Hcalls "B"%string "C"%string (Some 11) (Some 11)
              (Some (sign 11 (NewTransaction sender "B" v1)))
              (Some (sign 11 (NewTransaction sender "C" v2)))
              (verify_sign 11 _) (verify_sign 11 _))
    as (bc1 & bc2 & H1 & H2 & _ & Hpool).
  exists bc1, bc2. auto.
Defined.

End Samples.

(** * Further properties of the code *)

(** ** The previous hash as text *)

Lemma nibble_hex_digit (n : N) : (n < 16)%N -> nibble (hex_digit n) = n.
Proof.
  intros Hn.
  assert (Hall : forallb (fun k => (nibble (hex_digit k) =? k)%N)
                   (map N.of_nat (seq 0 16)) = true) by reflexivity.
  rewrite forallb_forall in Hall. apply N.eqb_eq, Hall.
  apply in_map_iff. exists (N.to_nat n). split; [apply N2Nat.id|].
  apply in_seq. lia.
Qed.

Lemma hex_digits_bounds (b : byte) :
  (Byte.to_N b / 16 < 16)%N /\ (Byte.to_N b mod 16 < 16)%N.
Proof.
  pose proof (Byte.to_N_bounded b) as Hb. split.
  - apply N.Div0.div_lt_upper_bound. lia.
  - apply N.mod_lt. discriminate.
Qed.

Lemma hex_of_bytes_all_hex (bs : bytes) : all_hex (hex_of_bytes bs) = true.
Proof.
  induction bs as [|b bs IH]; [reflexivity|]. cbn [hex_of_bytes all_hex].
  destruct (hex_digits_bounds b) as [Hhi Hlo].
  rewrite IH, !nibble_hex_digit by assumption.
  apply N.ltb_lt in Hhi, Hlo. now rewrite Hhi, Hlo.
Qed.

(** A byte is given by its two hexadecimal digits. *)
Lemma hex_pair_inj (x y : byte) :
  hex_digit (Byte.to_N x / 16) = hex_digit (Byte.to_N y / 16) ->
  hex_digit (Byte.to_N x mod 16) = hex_digit (Byte.to_N y mod 16) ->
  x = y.
Proof.
  intros Hhi Hlo.
  destruct (hex_digits_bounds x) as [Hxh Hxl], (hex_digits_bounds y) as [Hyh Hyl].
  apply (f_equal nibble) in Hhi, Hlo.
  rewrite !nibble_hex_digit in Hhi, Hlo by assumption.
  assert (Hn : Byte.to_N x = Byte.to_N y).
  { rewrite (N.div_mod (Byte.to_N x) 16), (N.div_mod (Byte.to_N y) 16) by discriminate.
    now rewrite Hhi, Hlo. }
  pose proof (Byte.of_to_N x) as Hx. pose proof (Byte.of_to_N y) as Hy.
  rewrite Hn in Hx. congruence.
Qed.

Lemma hex_of_bytes_inj (xs ys : bytes) :
  hex_of_bytes xs = hex_of_bytes ys -> xs = ys.
Proof.
  revert ys. induction xs as [|x xs IH]; intros [|y ys]; cbn [hex_of_bytes];
    try discriminate; [reflexivity|].
  intros [= Hhi Hlo Hrest]. f_equal; [exact (hex_pair_inj x y Hhi Hlo) | now apply IH].
Qed.

(** X1. the text [Block.MarshalJSON] writes for the previous hash,
    [fmt.Sprintf("%x", b.PreviousHash)], is always 64 characters long, made of
    lower-case hexadecimal digits only, and two different hashes never give
    the same text. *)
Theorem Sprintf_x_faithful (a b : Array32) :
  String.length (Sprintf_x a) = 64%nat
  /\ all_hex (Sprintf_x a) = true
  /\ (Sprintf_x a = Sprintf_x b <-> a = b).
Proof.
  split; [apply Sprintf_x_length|]. split; [apply hex_of_bytes_all_hex|].
  split.
  - intros H. apply Array32_ext. now apply hex_of_bytes_inj.
  - now intros ->.
Qed.

(** ** [ValidProof], every difficulty *)

Section MoreProofOfWork.

Context {rt : GoRuntime}.
Variables (previousHash : Array32) (transactions : slice Transaction).

(** The loop from [wrap64 j]: the nonce it returns is [wrap64 k] for some [k]
    within the fuel, and every nonce before it was refused. *)
Lemma ProofOfWork_loop_first (difficulty : Z) (fuel : nat) (j found : Z) :
  ProofOfWork_loop difficulty previousHash transactions fuel (wrap64 j) = Returns found ->
  exists k, j <= k <= j + Z.of_nat fuel /\ found = wrap64 k
    /\ forall i, j <= i < k ->
         ValidProof (wrap64 i) previousHash transactions difficulty = Returns false.
Proof.
  revert j. induction fuel as [|fuel IH]; intros j;
    rewrite ProofOfWork_loop_unfold;
    destruct (ValidProof (wrap64 j) previousHash transactions difficulty)
      as [[|]| |] eqn:Hj; cbn [bind]; try discriminate.
  - intros [= <-]. exists j. split; [lia|]. split; [reflexivity|]. intros i Hi. lia.
  - intros [= <-]. exists j. split; [lia|]. split; [reflexivity|]. intros i Hi. lia.
  - rewrite int_incr_wrap64. intros Hrun.
    destruct (IH (j + 1) Hrun) as (k & Hk & Hfound & Hbefore).
    exists k. split; [lia|]. split; [exact Hfound|].
    intros i Hi. destruct (Z.eq_dec i j) as [-> | Hne]; [exact Hj|].
    apply Hbefore. lia.
Qed.

(** X3. the nonce the search returns is the first one that passes: when the
    loop started at 0 returns [found] within a fuel below [2^63], [found] is
    between 0 and the fuel, [ValidProof] accepts it, and [ValidProof] refuses
    every nonce from 0 up to [found - 1]. *)
Theorem ProofOfWork_loop_least (difficulty : Z) (fuel : nat) (found : Z) :
  Z.of_nat fuel < 2 ^ 63 ->
  ProofOfWork_loop difficulty previousHash transactions fuel 0 = Returns found ->
  0 <= found <= Z.of_nat fuel
  /\ ValidProof found previousHash transactions difficulty = Returns true
  /\ forall n, 0 <= n < found ->
       ValidProof n previousHash transactions difficulty = Returns false.
Proof.
  intros Hfuel Hrun.
  assert (Hsound := ProofOfWork_loop_sound _ _ _ _ _ _ Hrun).
  rewrite <- (wrap64_int 0) in Hrun by lia.
  destruct (ProofOfWork_loop_first _ _ _ _ Hrun) as (k & Hk & Hfound & Hbefore).
  rewrite wrap64_int in Hfound by lia. subst found.
  split; [lia|]. split; [exact Hsound|].
  intros n Hn. rewrite <- (wrap64_int n) by lia. apply Hbefore. lia.
Qed.

End MoreProofOfWork.

(** ** The last block, new blocks and what they commit *)

Section MoreLedger.

Context {rt : GoRuntime}.

Lemma nth_error_snoc {A : Type} (l : list A) (x : A) :
  nth_error (l ++ [x]) (len (l ++ [x]) - 1) = Some x.
Proof.
  unfold len. rewrite length_app. cbn [List.length].
  replace (List.length l + 1 - 1)%nat with (List.length l) by lia.
  rewrite nth_error_app2 by lia. now rewrite Nat.sub_diag.
Qed.

Lemma LastBlock_iff (bc : Blockchain) (b : Block) :
  LastBlock bc = Returns b <-> exists front, Chain bc = front ++ [b].
Proof.
  unfold LastBlock. split.
  - destruct (Chain bc) as [|x l] eqn:Hchain using rev_ind; [discriminate|].
    rewrite nth_error_snoc. intros [= <-]. now exists l.
  - intros (front & ->). now rewrite nth_error_snoc.
Qed.


Lemma committed_snoc (chain : list Block) (b : Block) :
  committed (chain ++ [b]) = committed chain ++ elems (Transactions b).
Proof.
  unfold committed. rewrite flat_map_app. cbn [flat_map]. now rewrite app_nil_r.
Qed.

(** The balance over a chain with one more block: the scan goes on through
    the transactions of that block. *)
Lemma CalculateTotalAmount_snoc (bc : Blockchain) (b : Block) (a : string) :
  CalculateTotalAmount (set_Chain bc (Chain bc ++ [b])) a
  = fold_left (account a) (elems (Transactions b)) (CalculateTotalAmount bc a).
Proof.
  unfold CalculateTotalAmount. cbn [set_Chain Chain].
  now rewrite fold_left_app.
Qed.

(** X6. what a call of [Mining] that returned has committed: the pool as it
    was, then the reward.  Every balance is the old balance carried through
    those transactions; an address that they do not name (not the node's own,
    not [MINING_SENDER], in no pool transaction) keeps its balance; and with
    an empty pool the node's balance is the old one plus [MINING_REWARD], in
    float32. *)
Theorem Mining_balances (fuel : nat) (now : Z) (bc bc' : Blockchain) (result : bool) :
  Mining fuel now bc = Returns (result, bc') ->
  committed (Chain bc')
  = committed (Chain bc) ++ elems (TransactionPool bc) ++ [reward bc]
  /\ (forall a,
        CalculateTotalAmount bc' a
        = account a (fold_left (account a) (elems (TransactionPool bc))
                       (CalculateTotalAmount bc a)) (reward bc))
  /\ (forall a,
        a <> BlockChainAddress bc -> a <> MINING_SENDER ->
        (forall t, In t (elems (TransactionPool bc)) ->
           String.eqb a (RecipientBlockchainAddress t) = false /\
           String.eqb a (SenderBlockchainAddress t) = false) ->
        CalculateTotalAmount bc' a = CalculateTotalAmount bc a)
  /\ (elems (TransactionPool bc) = [] -> BlockChainAddress bc <> MINING_SENDER ->
      CalculateTotalAmount bc' (BlockChainAddress bc)
      = f32_add (CalculateTotalAmount bc (BlockChainAddress bc)) MINING_REWARD).
Proof.
  intros Hcall.
  destruct (Mining_returned _ _ _ _ _ Hcall)
    as (_ & _ & last & block & _ & Hchain & Htxs & _).
  assert (Hcommitted : committed (Chain bc')
            = committed (Chain bc) ++ elems (TransactionPool bc) ++ [reward bc]).
  { now rewrite Hchain, committed_snoc, Htxs. }
  assert (Hbalance : forall a,
            CalculateTotalAmount bc' a
            = account a (fold_left (account a) (elems (TransactionPool bc))
                           (CalculateTotalAmount bc a)) (reward bc)).
  { intros a.
    rewrite (CalculateTotalAmount_chain bc' (set_Chain bc (Chain bc ++ [block])))
      by exact Hchain.
    rewrite CalculateTotalAmount_snoc, Htxs. cbn [elems].
    now rewrite fold_left_app. }
  split; [exact Hcommitted|]. split; [exact Hbalance|]. split.
  - intros a Hnode Hsender Hpool. rewrite Hbalance.
    rewrite fold_account_no_history by exact Hpool.
    apply account_other; cbn; now apply String.eqb_neq.
  - intros Hempty Hnode. rewrite Hbalance, Hempty. cbn [fold_left].
    unfold account, reward. cbn [NewTransaction RecipientBlockchainAddress
                                  SenderBlockchainAddress Value].
    rewrite String.eqb_refl. apply String.eqb_neq in Hnode. now rewrite Hnode.
Qed.

(** X7. no run of the ledger's methods from [NewBlockchain] empties the
    chain: on every ledger a node can hold the chain has a block and
    [LastBlock] returns, so it does not panic. *)
Theorem reachable_LastBlock (bc : Blockchain) :
  reachable bc ->
  Chain bc <> [] /\ exists last, LastBlock bc = Returns last.
Proof.
  intros Hreach. pose proof (reachable_chain bc Hreach) as Hne.
  split; [exact Hne|]. now apply LastBlock_returns.
Qed.

End MoreLedger.

(** ** Chains that grow *)

Section MoreValidChain.

Context {rt : GoRuntime}.

Lemma ValidChain_true_iff (chain : list Block) :
  chain <> [] -> (ValidChain chain = Returns true <-> all_linked chain).
Proof.
  destruct chain as [|preBlock rest]; [congruence|]. intros _.
  destruct (ValidChain_loop_spec preBlock rest) as (valid & Hrun & Hvalid).
  cbn [ValidChain]. rewrite Hrun, <- Hvalid. split; congruence.
Qed.

Lemma all_linked_snoc (chain : list Block) (last b : Block) :
  all_linked ((chain ++ [last]) ++ [b])
  <-> all_linked (chain ++ [last]) /\ linked last b.
Proof.
  induction chain as [|x chain IH].
  - cbn [app]. rewrite all_linked_cons.
    pose proof (all_linked_single last). pose proof (all_linked_single b). tauto.
  - destruct chain as [|y chain].
    + cbn [app]. rewrite !all_linked_cons.
      pose proof (all_linked_single last). pose proof (all_linked_single b). tauto.
    + cbn [app] in *. rewrite !(all_linked_cons x y). tauto.
Qed.

(** X8. validity of a chain that grows by one block: [ValidChain] accepts the
    chain with block [b] after its last block exactly when it accepts the
    chain without [b], [b] carries the hash of that last block as previous
    hash, and [b] passes [ValidProof] at the mining difficulty. *)
Theorem ValidChain_snoc (front : list Block) (last b : Block) :
  ValidChain ((front ++ [last]) ++ [b]) = Returns true
  <-> ValidChain (front ++ [last]) = Returns true
      /\ PreviousHash b = Hash last
      /\ ValidProof (Nonce b) (PreviousHash b) (Transactions b) MINING_DIFFICULTY
         = Returns true.
Proof.
  rewrite !ValidChain_true_iff by (now destruct front).
  rewrite all_linked_snoc. unfold linked. tauto.
Qed.

End MoreValidChain.

(** ** More of consensus *)

Section MoreResolveConflicts.

Context {rt : GoRuntime}.
Variable net : Network.

(** What a pass that returned has done, read off the fetched chains: either
    it kept what it had, and no fetched valid chain is longer than the bound
    it started from; or it adopted a fetched valid chain longer than that
    bound, which every valid chain fetched before it is shorter than and no
    valid chain fetched after it is longer than. *)
Lemma ResolveConflicts_loop_scan (ns : list string) :
  forall maxLength longestChain maxLength' longestChain',
    ResolveConflicts_loop net ns maxLength longestChain
    = Returns (maxLength', longestChain') ->
    (longestChain' = longestChain /\ maxLength' = maxLength /\
     forall c, In c (fetched net ns) -> ValidChain c = Returns true ->
       (len c <= maxLength)%nat)
    \/ (exists c before after,
          longestChain' = Some c /\ len c = maxLength' /\
          (maxLength < len c)%nat /\ ValidChain c = Returns true /\
          fetched net ns = before ++ c :: after /\
          (forall x, In x before -> ValidChain x = Returns true ->
             (len x < len c)%nat) /\
          (forall x, In x after -> ValidChain x = Returns true ->
             (len x <= len c)%nat)).
Proof.
  induction ns as [|n ns IH]; intros m lc m' lc';
    cbn [ResolveConflicts_loop fetched].
  - intros [= <- <-]. left. repeat split. intros c [].
  - destruct (net (chain_endpoint n)) as [|code body]; [discriminate|].
    destruct (code =? 200).
    2:{ intros Hrun. destruct body; exact (IH _ _ _ _ Hrun). }
    destruct body as [chain| |]; cbn [bind]; try discriminate.
    destruct (m <? len chain)%nat eqn:Hlonger.
    + apply Nat.ltb_lt in Hlonger.
      destruct (ValidChain chain) as [[|]| |] eqn:Hvalid; cbn [bind]; try discriminate.
      * intros Hrun.
        destruct (IH _ _ _ _ Hrun)
          as [(-> & -> & Hnone)
             | (c & before & after & -> & Hlen & Hlt & Hv & Hsplit & Hbefore & Hafter)].
        -- right. exists chain, [], (fetched net ns).
           repeat split; auto. intros x [].
        -- right. exists c, (chain :: before), after.
           repeat split; auto; [lia | now rewrite Hsplit |].
           intros x [<- | Hx] Hvx; [lia | now apply Hbefore].
      * intros Hrun.
        destruct (IH _ _ _ _ Hrun)
          as [(-> & -> & Hnone)
             | (c & before & after & -> & Hlen & Hlt & Hv & Hsplit & Hbefore & Hafter)].
        -- left. repeat split. intros c [<- | Hc] Hvc; [congruence | now apply Hnone].
        -- right. exists c, (chain :: before), after.
           repeat split; auto; [now rewrite Hsplit |].
           intros x [<- | Hx] Hvx; [congruence | now apply Hbefore].
    + apply Nat.ltb_ge in Hlonger. intros Hrun.
      destruct (IH _ _ _ _ Hrun)
        as [(-> & -> & Hnone)
           | (c & before & after & -> & Hlen & Hlt & Hv & Hsplit & Hbefore & Hafter)].
      * left. repeat split. intros c [<- | Hc] Hvc; [lia | now apply Hnone].
      * right. exists c, (chain :: before), after.
        repeat split; auto; [now rewrite Hsplit |].
        intros x [<- | Hx] Hvx; [lia | now apply Hbefore].
Qed.

(** X9. whatever the neighbours answer, a call of [ResolveConflicts] that
    returns changes nothing but the chain (the pool, the address, the port
    and the neighbours stay), never makes the chain shorter, returns [true]
    exactly when the chain got strictly longer, and then the new chain is one
    [ValidChain] accepts; when it returns [false] the ledger is the same. *)
Theorem ResolveConflicts_frame (bc bc' : Blockchain) (replaced : bool) :
  ResolveConflicts net bc = Returns (replaced, bc') ->
  bc' = set_Chain bc (Chain bc')
  /\ (len (Chain bc) <= len (Chain bc'))%nat
  /\ (replaced = true <-> (len (Chain bc) < len (Chain bc'))%nat)
  /\ (replaced = true -> ValidChain (Chain bc') = Returns true)
  /\ (replaced = false -> bc' = bc).
Proof.
  unfold ResolveConflicts.
  destruct (ResolveConflicts_loop net (neighbours bc) (len (Chain bc)) None)
    as [[m' lc']| |] eqn:Hloop; cbn [bind snd]; try discriminate.
  destruct (ResolveConflicts_loop_scan _ _ _ _ _ Hloop)
    as [(-> & -> & _) | (c & before & after & -> & Hlen & Hlt & Hv & _)].
  - intros [= <- <-]. split; [now destruct bc|]. split; [lia|].
    split; [split; [discriminate | lia]|]. split; [discriminate | reflexivity].
  - intros [= <- <-]. cbn [set_Chain Chain].
    split; [reflexivity|]. split; [lia|].
    split; [split; [intros _; exact Hlt | reflexivity]|].
    split; [intros _; exact Hv | discriminate].
Qed.

(** X10. the tie-break of [ResolveConflicts].  When a call returns [true], the
    chain it installed is the first of the longest valid chains fetched, in
    the order of the neighbour list: every valid chain fetched before it is
    strictly shorter, every valid chain fetched after it is at most as long. *)
Theorem ResolveConflicts_first_longest (bc bc' : Blockchain) :
  ResolveConflicts net bc = Returns (true, bc') ->
  exists before after,
    fetched net (neighbours bc) = before ++ Chain bc' :: after
    /\ (forall x, In x before -> ValidChain x = Returns true ->
          (len x < len (Chain bc'))%nat)
    /\ (forall x, In x after -> ValidChain x = Returns true ->
          (len x <= len (Chain bc'))%nat).
Proof.
  unfold ResolveConflicts.
  destruct (ResolveConflicts_loop net (neighbours bc) (len (Chain bc)) None)
    as [[m' lc']| |] eqn:Hloop; cbn [bind snd]; try discriminate.
  destruct (ResolveConflicts_loop_scan _ _ _ _ _ Hloop)
    as [(-> & -> & _)
       | (c & before & after & -> & _ & _ & _ & Hsplit & Hbefore & Hafter)].
  - discriminate.
  - intros [= <-]. cbn [set_Chain Chain]. exists before, after. auto.
Qed.

(** A neighbour that answers with a status other than 200 is passed over. *)
Lemma ResolveConflicts_loop_not_200 (ns : list string) :
  (forall n, In n ns ->
     exists code body, net (chain_endpoint n) = GetResponse code body /\ code <> 200) ->
  forall maxLength longestChain,
    ResolveConflicts_loop net ns maxLength longestChain
    = Returns (maxLength, longestChain).
Proof.
  induction ns as [|n ns IH]; intros Hall m lc; [reflexivity|].
  cbn [ResolveConflicts_loop].
  destruct (Hall n (or_introl eq_refl)) as (code & body & -> & Hcode).
  apply Z.eqb_neq in Hcode. rewrite Hcode.
  apply IH. intros x Hx. apply Hall. now right.
Qed.

(** X11. when every neighbour answers with a status other than 200, and in
    particular when there is no neighbour, [ResolveConflicts] returns [false]
    and the ledger is unchanged; the bodies of those answers are not decoded,
    so one that would make the decoder panic does no harm. *)
Theorem ResolveConflicts_not_200 (bc : Blockchain) :
  (forall n, In n (neighbours bc) ->
     exists code body, net (chain_endpoint n) = GetResponse code body /\ code <> 200) ->
  ResolveConflicts net bc = Returns (false, bc).
Proof.
  intros Hall. unfold ResolveConflicts.
  now rewrite ResolveConflicts_loop_not_200.
Qed.

End MoreResolveConflicts.

(** ** The chain of a running node *)

Section MoreOperation.

Context {rt : GoRuntime}.

(** X12. the chain of a node stays valid.  On every ledger obtained from
    [NewBlockchain] by admissions, rounds of mining, consensus passes,
    clearings of the pool and refreshes of the neighbours, the chain is not
    empty and [ValidChain] accepts it: every block after the first carries
    the hash of its predecessor and passes [ValidProof] at difficulty 3. *)
Theorem operated_valid (bc : Blockchain) :
  operated bc ->
  Chain bc <> []
  /\ ValidChain (Chain bc) = Returns true
  /\ all_linked (Chain bc).
Proof.
  intros Hop.
  assert (H : Chain bc <> [] /\ ValidChain (Chain bc) = Returns true).
  { induction Hop as [now address port
                     | bc bc' sender recipient value key s ok _ IH Hcall
                     | bc bc' fuel now ok _ IH Hcall
                     | bc bc' net ok _ IH Hcall
                     | bc _ IH
                     | bc found _ IH].
    - split; [discriminate | reflexivity].
    - now rewrite (AddTransaction_chain _ _ _ _ _ _ _ _ Hcall).
    - destruct IH as [_ IH].
      destruct (Mining_returned _ _ _ _ _ Hcall)
        as (_ & _ & last & block & Hlast & Hchain & _ & Hprev & _ & Hpow).
      apply LastBlock_iff in Hlast. destruct Hlast as (front & Hfront).
      rewrite Hchain, Hfront. split; [now destruct front|].
      rewrite Hfront in IH.
      apply ValidChain_true_iff; [now destruct front|].
      apply ValidChain_true_iff in IH; [|now destruct front].
      apply all_linked_snoc. unfold linked. auto.
    - unfold ResolveConflicts in Hcall.
      destruct (ResolveConflicts_loop net (neighbours bc) (len (Chain bc)) None)
        as [[m' lc']| |] eqn:Hloop; cbn [bind snd] in Hcall; try discriminate.
      destruct (ResolveConflicts_loop_scan _ _ _ _ _ _ Hloop)
        as [(-> & -> & _) | (c & before & after & -> & _ & Hlt & Hv & _)].
      + now injection Hcall as _ <-.
      + injection Hcall as _ <-. cbn [set_Chain Chain].
        split; [|exact Hv]. intros ->. cbn in Hlt. lia.
    - exact IH.
    - exact IH. }
  destruct H as [Hne Hvalid]. split; [exact Hne|]. split; [exact Hvalid|].
  now apply ValidChain_true_iff.
Qed.

End MoreOperation.

(** ** More of admission *)

Section MoreAddTransaction.

Context {rt : GoRuntime}.

Lemma f32_lt_zero (v : float32) : f32_lt f32_zero v = f32_positive v.
Proof. destruct v as [[|]|[|]| |[|] m e]; reflexivity. Qed.

(** X13. what [AddTransaction] can change.  A transaction of [MINING_SENDER]
    is appended with no check at all, whatever the key and the signature, nil
    included.  And a call that returned has left the chain, the address, the
    port and the neighbours alone, so every balance is what it was; when it
    returned [true] the pool has grown by exactly the new transaction, at its
    end; when it returned [false] the ledger is the same. *)
Theorem AddTransaction_frame (bc : Blockchain) (sender recipient : string)
    (value : float32) (key : option PublicKey) (s : option Signature) :
  let t := NewTransaction sender recipient value in
  (sender = MINING_SENDER ->
   AddTransaction bc sender recipient value key s
   = Returns (true, set_TransactionPool bc (append (TransactionPool bc) t)))
  /\ forall ok bc',
       AddTransaction bc sender recipient value key s = Returns (ok, bc') ->
       Chain bc' = Chain bc
       /\ BlockChainAddress bc' = BlockChainAddress bc
       /\ Port bc' = Port bc
       /\ neighbours bc' = neighbours bc
       /\ (forall a, CalculateTotalAmount bc' a = CalculateTotalAmount bc a)
       /\ (ok = true -> TransactionPool bc' = Some (elems (TransactionPool bc) ++ [t]))
       /\ (ok = false -> bc' = bc).
Proof.
  intros t. split.
  - intros ->. apply AddTransaction_mining.
  - intros ok bc' Hcall.
    assert (Hcases : (ok = true /\
                      bc' = set_TransactionPool bc (append (TransactionPool bc) t))
                     \/ (ok = false /\ bc' = bc)).
    { unfold AddTransaction in Hcall. fold t in Hcall.
      destruct (String.eqb sender MINING_SENDER).
      - injection Hcall as <- <-. now left.
      - destruct (VerifyTransactionSignature key s t) as [[|]| |];
          cbn [bind] in Hcall; try discriminate.
        + destruct (f32_lt (CalculateTotalAmount bc sender) value);
            injection Hcall as <- <-; [now right | now left].
        + injection Hcall as <- <-. now right. }
    destruct Hcases as [[-> ->] | [-> ->]]; repeat split; try reflexivity;
      discriminate.
Qed.

End MoreAddTransaction.

(** ** [package main] *)

Section MorePackageMain.

Context {rt : GoRuntime}.

Lemma main_AddTransactions_pool (calls : list (string * string * float32)) :
  forall bc,
    PackageMain.Chain (PackageMain.AddTransactions bc calls) = PackageMain.Chain bc
    /\ elems (PackageMain.TransactionPool (PackageMain.AddTransactions bc calls))
       = elems (PackageMain.TransactionPool bc)
         ++ map (fun c => NewTransaction (fst (fst c)) (snd (fst c)) (snd c)) calls.
Proof.
  induction calls as [|c calls IH]; intros bc.
  - split; [reflexivity|]. cbn. now rewrite app_nil_r.
  - cbn [PackageMain.AddTransactions fold_left].
    destruct (IH (PackageMain.AddTransaction bc (fst (fst c)) (snd (fst c)) (snd c)))
      as [Hchain Hpool].
    split; [exact Hchain|].
    unfold PackageMain.AddTransactions in Hpool. rewrite Hpool.
    cbn. now rewrite <- app_assoc.
Qed.

(** X16. batching in [block.go].  [AddTransaction] there checks nothing and
    appends; after any run of such calls, [CreateBlock] puts into the new
    block what was in the pool followed by the new transactions, in the order
    of the calls, appends that block as the last one and leaves the pool
    empty. *)
Theorem main_batch (now nonce : Z) (previousHash : Array32)
    (bc : PackageMain.Blockchain) (calls : list (string * string * float32)) :
  let bc1 := PackageMain.AddTransactions bc calls in
  let block := fst (PackageMain.CreateBlock now bc1 nonce previousHash) in
  let bc' := snd (PackageMain.CreateBlock now bc1 nonce previousHash) in
  elems (Transactions block)
  = elems (PackageMain.TransactionPool bc)
    ++ map (fun c => NewTransaction (fst (fst c)) (snd (fst c)) (snd c)) calls
  /\ Nonce block = nonce /\ PreviousHash block = previousHash /\ Timestamp block = now
  /\ PackageMain.Chain bc' = PackageMain.Chain bc ++ [block]
  /\ PackageMain.TransactionPool bc' = Some []
  /\ PackageMain.LastBlock bc' = Returns block.
Proof.
  intros bc1 block bc'.
  destruct (main_AddTransactions_pool calls bc) as [Hchain Hpool].
  split; [exact Hpool|].
  split; [reflexivity|]. split; [reflexivity|]. split; [reflexivity|].
  split; [|split; [reflexivity|]].
  - change (PackageMain.Chain bc') with (PackageMain.Chain bc1 ++ [block]).
    unfold bc1. now rewrite Hchain.
  - unfold PackageMain.LastBlock.
    change (PackageMain.Chain bc') with (PackageMain.Chain bc1 ++ [block]).
    now rewrite nth_error_snoc.
Qed.

(** X17. the program [main] of [package main] does not panic; it ends with an
    empty pool and a chain of three blocks: the genesis block with no
    transactions, a block of nonce 0 with the transfer of 20 from A to B, and
    a block of nonce 4 with the transfers of 10 from A to B and of 12 from C
    to B in that order, each block carrying the hash of the one before. *)
Theorem main_spec (t0 t1 t2 : Z) :
  exists genesis b1 b2,
    PackageMain.main t0 t1 t2
    = Returns {| PackageMain.TransactionPool := Some [];
                 PackageMain.Chain := [genesis; b1; b2] |}
    /\ Transactions genesis = None
    /\ Transactions b1 = Some [NewTransaction "A" "B" PackageMain.f32_20]
    /\ Transactions b2 = Some [NewTransaction "A" "B" PackageMain.f32_10;
                               NewTransaction "C" "B" PackageMain.f32_12]
    /\ (Nonce genesis, Nonce b1, Nonce b2) = (0, 0, 4)
    /\ (Timestamp genesis, Timestamp b1, Timestamp b2) = (t0, t1, t2)
    /\ PreviousHash b1 = PackageMain.Hash genesis
    /\ PreviousHash b2 = PackageMain.Hash b1.
Proof.
  do 3 eexists. split; [reflexivity|]. cbn. repeat split.
Qed.

End MorePackageMain.

(** ** What validation and clearing leave alone *)

Section MoreFrames.

Context {rt : GoRuntime}.

Lemma ValidChain_loop_last_timestamp (last : Block) (ts : Z) (front : list Block) :
  forall preBlock,
    ValidChain_loop preBlock
      (front ++ [ {| Nonce := Nonce last; PreviousHash := PreviousHash last;
                     Timestamp := ts; Transactions := Transactions last |} ])
    = ValidChain_loop preBlock (front ++ [last]).
Proof.
  induction front as [|b front IH]; intros preBlock; cbn [app ValidChain_loop].
  - cbn [Nonce PreviousHash Transactions].
    destruct (negb (Array32_eqb (PreviousHash last) (Hash preBlock))); [reflexivity|].
    destruct (ValidProof (Nonce last) (PreviousHash last) (Transactions last)
                MINING_DIFFICULTY) as [[|]| |]; reflexivity.
  - destruct (negb (Array32_eqb (PreviousHash b) (Hash preBlock))); [reflexivity|].
    destruct (ValidProof (Nonce b) (PreviousHash b) (Transactions b)
                MINING_DIFFICULTY) as [[|]| |]; cbn [bind negb]; try reflexivity.
    apply IH.
Qed.

(** X18. [ValidChain] checks no timestamp of the final block: the proof of
    work is computed with timestamp 0 and the hash of the final block is not
    compared with anything, so a chain and the same chain with another
    timestamp in its final block get the same answer. *)
Theorem ValidChain_last_timestamp (front : list Block) (last : Block) (ts : Z) :
  ValidChain (front ++ [ {| Nonce := Nonce last; PreviousHash := PreviousHash last;
                            Timestamp := ts; Transactions := Transactions last |} ])
  = ValidChain (front ++ [last]).
Proof.
  destruct front as [|preBlock front]; [reflexivity|].
  cbn [app ValidChain]. apply ValidChain_loop_last_timestamp.
Qed.

(** X19. [ClearTransactionPool] drops the pending transactions and nothing
    else: the pool has no element afterwards (a nil pool stays nil), the
    chain and every balance are what they were, clearing twice is clearing
    once, and a round of mining that follows commits the reward alone. *)
Theorem ClearTransactionPool_spec (bc : Blockchain) :
  let cleared := ClearTransactionPool bc in
  elems (TransactionPool cleared) = []
  /\ (TransactionPool cleared = None <-> TransactionPool bc = None)
  /\ Chain cleared = Chain bc
  /\ (forall a, CalculateTotalAmount cleared a = CalculateTotalAmount bc a)
  /\ ClearTransactionPool cleared = cleared
  /\ forall fuel now result bc',
       Mining fuel now cleared = Returns (result, bc') ->
       exists block, Chain bc' = Chain bc ++ [block]
                     /\ Transactions block = Some [reward bc].
Proof.
  intros cleared. unfold cleared, ClearTransactionPool.
  destruct bc as [[pool|] chain address port ns]; cbn;
    (split; [reflexivity|]); (split; [split; congruence|]);
    (split; [reflexivity|]); (split; [reflexivity|]); (split; [reflexivity|]);
    intros fuel now result bc' Hcall;
    destruct (Mining_returned _ _ _ _ _ Hcall)
      as (_ & _ & last & block & _ & Hchain & Htxs & _);
    exists block; split; assumption.
Qed.

End MoreFrames.

(** ** The further properties on the sample ledgers *)

Module MoreSamples.

Import TestRuntime TestLedgers.

(** The search of the first round of mining: nonces 0 and 1 are refused. *)
Lemma ProofOfWork_loop_least_witness :
  Z.of_nat 5 < 2 ^ 63
  /\ ProofOfWork_loop (rt := runtime) MINING_DIFFICULTY (Hash genesis_block)
       (Some [reward genesis]) 5 0 = Returns 2
  /\ forall n, 0 <= n < 2 ->
       ValidProof (rt := runtime) n (Hash genesis_block) (Some [reward genesis])
         MINING_DIFFICULTY = Returns false.
Proof.
  assert (Hfuel : Z.of_nat 5 < 2 ^ 63) by (cbn; lia).
  assert (Hrun : ProofOfWork_loop (rt := runtime) MINING_DIFFICULTY (Hash genesis_block)
                   (Some [reward genesis]) 5 0 = Returns 2)
    by (vm_compute; reflexivity).
  split; [exact Hfuel|]. split; [exact Hrun|].
  exact (proj2 (proj2 (ProofOfWork_loop_least (rt := runtime) (Hash genesis_block)
                         (Some [reward genesis]) MINING_DIFFICULTY 5 2 Hfuel Hrun))).
Defined.


(** The first round of mining pays the miner the reward. *)
Lemma Mining_balances_witness :
  Mining (rt := runtime) 2 100 genesis = Returns (true, set_Chain genesis longer_chain)
  /\ elems (TransactionPool genesis) = []
  /\ BlockChainAddress genesis <> MINING_SENDER
  /\ CalculateTotalAmount (set_Chain genesis longer_chain) "miner"
     = f32_add (CalculateTotalAmount genesis "miner") MINING_REWARD.
Proof.
  assert (Hcall : Mining (rt := runtime) 2 100 genesis
                  = Returns (true, set_Chain genesis longer_chain))
    by (vm_compute; reflexivity).
  assert (Hnode : BlockChainAddress genesis <> MINING_SENDER) by discriminate.
  split; [exact Hcall|]. split; [reflexivity|]. split; [exact Hnode|].
  exact (proj2 (proj2 (proj2 (Mining_balances (rt := runtime) 2 100 genesis _ true Hcall)))
           eq_refl Hnode).
Defined.

Lemma reachable_LastBlock_witness :
  reachable (rt := runtime) genesis
  /\ exists last, LastBlock genesis = Returns last.
Proof.
  assert (Hreach : reachable (rt := runtime) genesis)
    by exact (reach_NewBlockchain 7 "miner" 5001).
  split; [exact Hreach|].
  exact (proj2 (reachable_LastBlock (rt := runtime) genesis Hreach)).
Defined.

(** A node after its first round of mining. *)
Lemma operated_valid_witness :
  operated (rt := runtime) (set_Chain genesis longer_chain)
  /\ ValidChain (rt := runtime) longer_chain = Returns true.
Proof.
  assert (Hop : operated (rt := runtime) (set_Chain genesis longer_chain)).
  { apply (op_Mining genesis _ 2 100 true).
    - exact (op_NewBlockchain 7 "miner" 5001).
    - vm_compute. reflexivity. }
  split; [exact Hop|].
  exact (proj1 (proj2 (operated_valid (rt := runtime) _ Hop))).
Defined.

(** The pass of [node], which adopts the chain of [peer1]. *)
Lemma ResolveConflicts_frame_witness :
  ResolveConflicts (rt := runtime) peers node
  = Returns (true, set_Chain node longer_chain)
  /\ (len (Chain node) <= len longer_chain)%nat
  /\ ValidChain (rt := runtime) longer_chain = Returns true.
Proof.
  assert (Hcall : ResolveConflicts (rt := runtime) peers node
                  = Returns (true, set_Chain node longer_chain))
    by (vm_compute; reflexivity).
  split; [exact Hcall|].
  destruct (ResolveConflicts_frame (rt := runtime) peers node _ true Hcall)
    as (_ & Hlen & _ & Hvalid & _).
  split; [exact Hlen | exact (Hvalid eq_refl)].
Defined.

(** Of two valid chains of the same length, the one of the first neighbour
    is installed. *)
Lemma ResolveConflicts_first_longest_witness :
  ResolveConflicts (rt := runtime) twins twin_node
  = Returns (true, set_Chain twin_node longer_chain)
  /\ exists before after,
       fetched twins (neighbours twin_node) = before ++ longer_chain :: after
       /\ (forall x, In x before -> ValidChain (rt := runtime) x = Returns true ->
             (len x < len longer_chain)%nat).
Proof.
  assert (Hcall : ResolveConflicts (rt := runtime) twins twin_node
                  = Returns (true, set_Chain twin_node longer_chain))
    by (vm_compute; reflexivity).
  split; [exact Hcall|].
  destruct (ResolveConflicts_first_longest (rt := runtime) twins twin_node _ Hcall)
    as (before & after & Hsplit & Hbefore & _).
  exists before, after. split; assumption.
Defined.

Lemma quiet_answers_404 :
  forall n, In n (neighbours quiet) ->
    exists code body, peers (chain_endpoint n) = GetResponse code body /\ code <> 200.
Proof.
  intros n [<- | []]. exists 404, (Returns []). split; [reflexivity | discriminate].
Defined.

Lemma ResolveConflicts_not_200_witness :
  (forall n, In n (neighbours quiet) ->
     exists code body, peers (chain_endpoint n) = GetResponse code body /\ code <> 200)
  /\ ResolveConflicts (rt := runtime) peers quiet = Returns (false, quiet).
Proof.
  split; [exact quiet_answers_404|].
  exact (ResolveConflicts_not_200 (rt := runtime) peers quiet quiet_answers_404).
Defined.

End MoreSamples.

(** * The whole code: properties *)

(** ** [strings.Repeat] and the three digits *)

Section RepeatProperties.

Context {mc : GoMachine}.

(** What the last three statements of [ValidProof] come to on a digest of 64
    digits: [strings.Repeat] allocates [difficulty] zeros or does not return,
    and [guessHashStr[:3]] never panics. *)
Lemma Repeat_head3 (digest : string) (difficulty : Z) :
  String.length digest = 64%nat ->
  (zeros <- strings.Repeat "0" difficulty ;;
   head <- slice_to digest 3 ;;
   Returns (String.eqb head zeros))
  = if difficulty <? 0 then Panics NegativeRepeatCount
    else if max_alloc <? difficulty then Panics OutOfMemory
    else Returns ((difficulty =? 3) && leading_zeros 3 digest).
Proof.
  intros Hlen. unfold strings.Repeat, slice_to.
  change (Z.of_nat (String.length "0")) with 1. rewrite Z.mul_1_r.
  destruct (difficulty <? 0) eqn:Hneg; [reflexivity|].
  destruct (max_alloc <? difficulty); [reflexivity|]. cbn [bind].
  replace (3 <=? String.length digest)%nat with true
    by (symmetry; apply Nat.leb_le; lia).
  cbn [bind]. rewrite head3_eqb_zeros by lia. do 2 f_equal.
  apply Z.ltb_ge in Hneg.
  destruct (difficulty =? 3) eqn:E.
  - apply Z.eqb_eq in E. subst. reflexivity.
  - apply Z.eqb_neq in E. apply Nat.eqb_neq. lia.
Qed.

(** The machine holds three zeros. *)
Lemma max_alloc_3 : (max_alloc <? MINING_DIFFICULTY) = false.
Proof.
  apply Z.ltb_ge. pose proof max_alloc_min. unfold MINING_DIFFICULTY. lia.
Qed.

End RepeatProperties.

Module FullProperties.

Import Full.

(** ** Proof of work *)

Section ProofOfWork.

Context {rt : GoRuntime} {mc : GoMachine}.

Lemma ValidProof_allocation (nonce : Z) (previousHash : Array32)
    (transactions : slice (option Transaction)) (difficulty : Z) :
  ValidProof nonce previousHash transactions difficulty
  = if difficulty <? 0 then Panics NegativeRepeatCount
    else if max_alloc <? difficulty then Panics OutOfMemory
    else Returns ((difficulty =? 3)
                  && leading_zeros 3 (trial_digest nonce previousHash transactions)).
Proof.
  unfold ValidProof, trial_digest. apply Repeat_head3, Sprintf_x_length.
Qed.

(** At the mining difficulty the check is the one the specification words:
    the first three hexadecimal digits are zeros. *)
Lemma ValidProof_at_3 (nonce : Z) (previousHash : Array32)
    (transactions : slice (option Transaction)) :
  ValidProof nonce previousHash transactions MINING_DIFFICULTY
  = Returns (leading_zeros 3 (trial_digest nonce previousHash transactions)).
Proof.
  rewrite ValidProof_allocation, max_alloc_3. reflexivity.
Qed.

(** X2. [ValidProof] panics on a negative difficulty ([strings.Repeat]) and
    does not return on one whose zeros the machine cannot allocate; on every
    other difficulty it returns, never panicking on [guessHashStr[:3]], and
    what it returns is true exactly when the difficulty is 3 and the digest
    of the trial block starts with three zeros.  The difficulties from 0 to
    64 are among those it returns on. *)
Theorem ValidProof_cases (nonce difficulty : Z) (previousHash : Array32)
    (transactions : slice (option Transaction)) :
  (difficulty < 0 ->
   ValidProof nonce previousHash transactions difficulty = Panics NegativeRepeatCount)
  /\ (max_alloc < difficulty ->
      ValidProof nonce previousHash transactions difficulty = Panics OutOfMemory)
  /\ (0 <= difficulty <= max_alloc ->
      ValidProof nonce previousHash transactions difficulty
      = Returns ((difficulty =? 3)
                 && leading_zeros 3 (trial_digest nonce previousHash transactions)))
  /\ (0 <= difficulty <= 64 ->
      ValidProof nonce previousHash transactions difficulty
      = Returns ((difficulty =? 3)
                 && leading_zeros 3 (trial_digest nonce previousHash transactions))).
Proof.
  rewrite ValidProof_allocation. pose proof max_alloc_min as Hmin.
  assert (Hreturns : 0 <= difficulty <= max_alloc ->
            (if difficulty <? 0 then Panics NegativeRepeatCount
             else if max_alloc <? difficulty then Panics OutOfMemory
             else Returns ((difficulty =? 3)
                           && leading_zeros 3
                                (trial_digest nonce previousHash transactions)))
            = Returns ((difficulty =? 3)
                       && leading_zeros 3
                            (trial_digest nonce previousHash transactions))).
  { intros H.
    replace (difficulty <? 0) with false by (symmetry; apply Z.ltb_ge; lia).
    replace (max_alloc <? difficulty) with false by (symmetry; apply Z.ltb_ge; lia).
    reflexivity. }
  split; [|split; [|split]].
  - intros H. apply Z.ltb_lt in H. now rewrite H.
  - intros H.
    replace (difficulty <? 0) with false by (symmetry; apply Z.ltb_ge; lia).
    apply Z.ltb_lt in H. now rewrite H.
  - exact Hreturns.
  - intros H. apply Hreturns. lia.
Qed.

End ProofOfWork.

(** ** The search *)

Section Search.

Context {rt : GoRuntime} {mc : GoMachine}.
Variables (previousHash : Array32) (transactions : slice (option Transaction)).

Lemma search_unfold (fuel : nat) (nonce : Z) :
  ProofOfWork_loop previousHash transactions fuel nonce
  = if leading_zeros 3 (trial_digest nonce previousHash transactions)
    then Returns nonce
    else match fuel with
         | O => OutOfFuel
         | S fuel' => ProofOfWork_loop previousHash transactions fuel' (int_incr nonce)
         end.
Proof. destruct fuel; cbn [ProofOfWork_loop]; now rewrite ValidProof_at_3. Qed.

(** More fuel does not change an answer. *)
Lemma search_more_fuel (fuel extra : nat) (nonce found : Z) :
  ProofOfWork_loop previousHash transactions fuel nonce = Returns found ->
  ProofOfWork_loop previousHash transactions (fuel + extra) nonce = Returns found.
Proof.
  revert nonce. induction fuel as [|fuel IH]; intros nonce.
  - rewrite (search_unfold 0), (search_unfold (0 + extra)).
    destruct (leading_zeros 3 _); congruence.
  - rewrite (search_unfold (S fuel)), (search_unfold (S fuel + extra)).
    destruct (leading_zeros 3 _); cbn [Nat.add]; [congruence|]. apply IH.
Qed.

(** The loop visits [wrap64 j], [wrap64 (j+1)], ... and stops at the first
    nonce whose trial digest starts with three zeros. *)
Lemma search_finds (fuel : nat) (j : Z) :
  (exists k, j <= k <= j + Z.of_nat fuel /\
     leading_zeros 3 (trial_digest (wrap64 k) previousHash transactions) = true) ->
  exists found,
    ProofOfWork_loop previousHash transactions fuel (wrap64 j) = Returns found
    /\ leading_zeros 3 (trial_digest found previousHash transactions) = true.
Proof.
  revert j. induction fuel as [|fuel IH]; intros j (k & Hk & Hvalid);
    rewrite search_unfold;
    destruct (leading_zeros 3 (trial_digest (wrap64 j) previousHash transactions))
      eqn:Hj; eauto.
  - replace k with j in Hvalid by lia. congruence.
  - rewrite int_incr_wrap64. apply IH. exists k. split; [|assumption].
    assert (k <> j) by congruence. lia.
Qed.

(** If some 64-bit nonce passes, the search from 0 ends, and it ends on a
    nonce that passes. *)
Lemma search_terminates :
  (exists nonce, int64 nonce /\
     ValidProof nonce previousHash transactions MINING_DIFFICULTY = Returns true) ->
  exists fuel found,
    (forall extra,
       ProofOfWork_loop previousHash transactions (fuel + extra) 0 = Returns found)
    /\ ValidProof found previousHash transactions MINING_DIFFICULTY = Returns true.
Proof.
  intros (nonce & Hrange & Hvalid). rewrite ValidProof_at_3 in Hvalid.
  injection Hvalid as Hvalid. unfold int64 in Hrange.
  set (k := nonce mod 2 ^ 64).
  assert (Hk : 0 <= k < 2 ^ 64) by (apply Z.mod_pos_bound; lia).
  destruct (search_finds (Z.to_nat k) 0) as (found & Hrun & Hfound).
  { exists k. split; [lia|]. unfold k. now rewrite wrap64_mod, wrap64_int. }
  rewrite wrap64_int in Hrun by lia.
  exists (Z.to_nat k), found. split.
  - intros extra. now apply search_more_fuel.
  - rewrite ValidProof_at_3. now f_equal.
Qed.

(** A nonce the loop returns is one [ValidProof] accepted. *)
Lemma search_sound (fuel : nat) (nonce found : Z) :
  ProofOfWork_loop previousHash transactions fuel nonce = Returns found ->
  ValidProof found previousHash transactions MINING_DIFFICULTY = Returns true.
Proof.
  revert nonce. induction fuel as [|fuel IH]; intros nonce;
    rewrite search_unfold;
    destruct (leading_zeros 3 (trial_digest nonce previousHash transactions))
      eqn:Hvalid; try discriminate.
  - intros [= <-]. rewrite ValidProof_at_3. f_equal. exact Hvalid.
  - intros [= <-]. rewrite ValidProof_at_3. f_equal. exact Hvalid.
  - apply IH.
Qed.

(** When no nonce passes, the loop returns for no fuel. *)
Lemma search_never :
  (forall nonce,
     ValidProof nonce previousHash transactions MINING_DIFFICULTY = Returns false) ->
  forall fuel nonce,
    ProofOfWork_loop previousHash transactions fuel nonce = OutOfFuel.
Proof.
  intros Hnone.
  assert (Hdigest : forall nonce,
            leading_zeros 3 (trial_digest nonce previousHash transactions) = false).
  { intros nonce. specialize (Hnone nonce). rewrite ValidProof_at_3 in Hnone.
    congruence. }
  induction fuel as [|fuel IH]; intros nonce;
    rewrite search_unfold, Hdigest; auto.
Qed.

End Search.

(** ** Chain validation *)

(** A slice of pointers holds a nil pointer or does not. *)
Lemma In_None_dec {A : Type} (l : list (option A)) : In None l \/ ~ In None l.
Proof.
  induction l as [|[a|] l IH].
  - right. intros [].
  - destruct IH as [H | H]; [left; now right|].
    right. intros [H' | H']; [discriminate H' | contradiction].
  - left. now left.
Qed.

Section ValidChainProperties.

Context {rt : GoRuntime} {mc : GoMachine}.

Lemma linked_single (b : option Block) : all_linked [b].
Proof.
  intros i prev cur _ H. destruct i; discriminate H.
Qed.

Lemma linked_cons (pre : option Block) (b : Block) (rest : list (option Block)) :
  all_linked (pre :: Some b :: rest) <-> linked pre b /\ all_linked (Some b :: rest).
Proof.
  split.
  - intros H. split.
    + apply (H 0%nat); reflexivity.
    + intros i prev cur Hp Hc. apply (H (S i)); assumption.
  - intros [H0 H] i prev cur Hp Hc. destruct i as [|i].
    + simpl in Hp, Hc. injection Hp as <-. injection Hc as <-. exact H0.
    + apply (H i); assumption.
Qed.

Lemma blocks_after_first_cons (pre : option Block) (rest : list (option Block)) :
  blocks_after_first (pre :: rest) <-> ~ In None rest.
Proof.
  unfold blocks_after_first. split.
  - intros H Hin. apply In_nth_error in Hin. destruct Hin as [i Hi].
    exact (H i Hi).
  - intros H i Hi. apply H. exact (nth_error_In rest i Hi).
Qed.

(** The loop on a tail without a nil block: it returns, and [true] exactly
    when every block passes the two checks. *)
Lemma ValidChain_loop_blocks (preBlock : option Block) (rest : list (option Block)) :
  ~ In None rest ->
  exists valid, ValidChain_loop preBlock rest = Returns valid
    /\ (valid = true <-> all_linked (preBlock :: rest)).
Proof.
  revert preBlock. induction rest as [|[b|] rest IH]; intros preBlock Hnil.
  - exists true. split; [reflexivity|]. split; auto using linked_single.
  - cbn [ValidChain_loop]. rewrite ValidProof_at_3. cbn [bind].
    assert (Hrest : ~ In None rest) by (intros H; apply Hnil; now right).
    destruct (Array32_eqb (PreviousHash b) (Hash preBlock)) eqn:Hhash; cbn [negb].
    + apply Array32_eqb_eq in Hhash.
      destruct (leading_zeros 3 _) eqn:Hpow; cbn [negb].
      * destruct (IH (Some b) Hrest) as (valid & Hrun & Hvalid).
        exists valid. split; [exact Hrun|].
        rewrite linked_cons, <- Hvalid. unfold linked.
        rewrite ValidProof_at_3, Hpow. tauto.
      * exists false. split; [reflexivity|].
        rewrite linked_cons. unfold linked.
        rewrite ValidProof_at_3, Hpow.
        split; [discriminate|]. intros [[_ H] _]. discriminate H.
    + exists false. split; [reflexivity|].
      rewrite linked_cons. unfold linked. split; [discriminate|].
      intros [[H _] _]. apply Array32_eqb_eq in H. congruence.
  - exfalso. apply Hnil. now left.
Qed.

(** The loop on any tail: it answers [true] only when no block is nil, and it
    ends in no other way than an answer or the panic on a nil block. *)
Lemma ValidChain_loop_nil (preBlock : option Block) (rest : list (option Block)) :
  In None rest ->
  ValidChain_loop preBlock rest = Returns false
  \/ ValidChain_loop preBlock rest = Panics NilDereference.
Proof.
  revert preBlock. induction rest as [|[b|] rest IH]; intros preBlock Hnil.
  - destruct Hnil.
  - cbn [ValidChain_loop]. rewrite ValidProof_at_3. cbn [bind].
    destruct (negb (Array32_eqb (PreviousHash b) (Hash preBlock))); [now left|].
    destruct (negb (leading_zeros 3 _)); [now left|].
    apply IH. destruct Hnil as [H | H]; [discriminate H | exact H].
  - now right.
Qed.

(** A chain that is not empty and has no nil block after the first gets an
    answer from [ValidChain]. *)
Lemma ValidChain_answers (chain : list (option Block)) :
  chain <> [] -> blocks_after_first chain ->
  exists valid, ValidChain chain = Returns valid.
Proof.
  destruct chain as [|preBlock rest]; [congruence|]. intros _ Hnil.
  apply blocks_after_first_cons in Hnil.
  destruct (ValidChain_loop_blocks preBlock rest Hnil) as (valid & H & _). eauto.
Qed.

(** C2, amended.  On every chain of at least one block whose entries after
    the first are blocks (not nil) [ValidChain] returns a boolean; it is
    [true] on every chain of exactly one block, and in general exactly when
    every block from index 1 on carries the hash of its predecessor as
    previous hash and passes [ValidProof] at the fixed difficulty 3, so that
    one failing pair makes it [false].  The function returns no ledger and
    takes none: it reads its argument only.  (The empty chain is not in its
    domain: [chain[0]] panics.  On a chain with a nil entry after the first
    the answer is never [true]: it is [false], or the panic of
    [b.PreviousHash].) *)
Theorem ValidChain_spec (chain : list (option Block)) :
  chain <> [] ->
  (blocks_after_first chain ->
   exists valid, ValidChain chain = Returns valid
     /\ (valid = true <-> all_linked chain)
     /\ (len chain = 1%nat -> valid = true)
     /\ (forall i prev cur,
           nth_error chain i = Some prev -> nth_error chain (S i) = Some (Some cur) ->
           ~ linked prev cur -> valid = false))
  /\ (~ blocks_after_first chain ->
      ValidChain chain = Returns false \/ ValidChain chain = Panics NilDereference).
Proof.
  destruct chain as [|preBlock rest]; [congruence|]. intros _. split.
  - intros Hnil. apply blocks_after_first_cons in Hnil.
    destruct (ValidChain_loop_blocks preBlock rest Hnil) as (valid & Hrun & Hvalid).
    exists valid. split; [exact Hrun|]. split; [exact Hvalid|]. split.
    + destruct rest; [|discriminate]. intros _. apply Hvalid, linked_single.
    + intros i prev cur Hp Hc Hbad. destruct valid; [|reflexivity].
      exfalso. apply Hbad. destruct Hvalid as [Hall _].
      apply (Hall eq_refl i); assumption.
  - intros Hnil. rewrite blocks_after_first_cons in Hnil.
    apply ValidChain_loop_nil.
    destruct (In_None_dec rest) as [Hin | Hout]; [exact Hin | contradiction].
Qed.

End ValidChainProperties.

(** ** Consensus *)

Section ResolveConflictsProperties.

Context {rt : GoRuntime} {mc : GoMachine}.
Variable net : Network.

(** C4. The property asks [ResolveConflicts] to return, and to return
    [false] with the chain unchanged when no fetched chain is both longer and
    valid.  The code validates a fetched chain without looking for nil
    blocks: when the first neighbour answers 200 with a chain longer than the
    local one whose second entry is [null] (as [{"chain":[null,null]}]
    decodes), [ValidChain] reads [b.PreviousHash] through the nil pointer and
    the call panics instead of returning [false]. *)
Theorem ResolveConflicts_nil_block (bc : Blockchain) (n : string) (ns : list string)
    (preBlock : option Block) (tail : list (option Block)) :
  neighbours bc = n :: ns ->
  net (chain_endpoint n) = GetResponse 200 (Returns (preBlock :: None :: tail)) ->
  (len (Chain bc) < len (preBlock :: None :: tail))%nat ->
  ValidChain (preBlock :: None :: tail) = Panics NilDereference
  /\ ResolveConflicts net bc = Panics NilDereference
  /\ forall result, ResolveConflicts net bc <> Returns result.
Proof.
  intros Hns Hget Hlonger.
  assert (Hrun : ResolveConflicts net bc = Panics NilDereference).
  { unfold ResolveConflicts. rewrite Hns. cbn [ResolveConflicts_loop].
    rewrite Hget. cbn [Z.eqb Pos.eqb bind].
    apply Nat.ltb_lt in Hlonger. rewrite Hlonger. reflexivity. }
  split; [reflexivity|]. split; [exact Hrun|].
  intros result. rewrite Hrun. discriminate.
Qed.

(** One pass over neighbours that all answer with chains of blocks: either
    nothing is adopted and no fetched chain is both longer than [maxLength]
    and valid, or the pass adopts a fetched valid chain longer than
    [maxLength] that no fetched valid chain exceeds. *)
Lemma ResolveConflicts_loop_answers (ns : list string) :
  answers net ns ->
  forall (maxLength : nat) (longestChain : option (list (option Block))),
  exists maxLength' longestChain',
    ResolveConflicts_loop net ns maxLength longestChain
    = Returns (maxLength', longestChain')
    /\ (maxLength <= maxLength')%nat
    /\ ((longestChain' = longestChain /\ maxLength' = maxLength /\
         forall c, In c (fetched net ns) ->
           ~ ((maxLength < len c)%nat /\ ValidChain c = Returns true))
        \/ (exists c, longestChain' = Some c /\ In c (fetched net ns) /\
              (maxLength < len c)%nat /\ len c = maxLength' /\
              ValidChain c = Returns true /\
              forall c', In c' (fetched net ns) -> ValidChain c' = Returns true ->
                (len c' <= maxLength')%nat)).
Proof.
  induction ns as [|n ns IH]; intros Hans maxLength longestChain.
  - exists maxLength, longestChain. split; [reflexivity|]. split; [lia|].
    left. repeat split. intros c [].
  - assert (Htail : answers net ns) by (intros x Hx; apply Hans; now right).
    destruct (Hans n (or_introl eq_refl)) as (code & body & Hget & Hbody).
    cbn [ResolveConflicts_loop fetched]. rewrite Hget.
    destruct (code =? 200) eqn:Hcode.
    + apply Z.eqb_eq in Hcode. destruct (Hbody Hcode) as (chain & -> & Hblocks).
      cbn [bind]. destruct (maxLength <? len chain)%nat eqn:Hlonger.
      * apply Nat.ltb_lt in Hlonger.
        destruct (ValidChain_answers chain) as (valid & Hvalid);
          [destruct chain; [simpl in Hlonger; lia | discriminate] | exact Hblocks |].
        rewrite Hvalid. cbn [bind]. destruct valid.
        -- destruct (IH Htail (len chain) (Some chain))
             as (m' & lc' & Hrun & Hle & [(-> & -> & Hnone) | (c & -> & Hin & Hlt & Hlen & Hv & Hmax)]).
           ++ exists (len chain), (Some chain). split; [exact Hrun|]. split; [lia|].
              right. exists chain. repeat split; auto; [now left|].
              intros c' [<- | Hc'] Hv'; [lia|].
              destruct (Nat.le_gt_cases (len c') (len chain)) as [|Hgt]; [assumption|].
              exfalso. apply (Hnone c' Hc'). split; assumption.
           ++ exists m', (Some c). split; [exact Hrun|]. split; [lia|].
              right. exists c. repeat split; auto; [now right | lia |].
              intros c' [<- | Hc'] Hv'; [lia | now apply Hmax].
        -- destruct (IH Htail maxLength longestChain)
             as (m' & lc' & Hrun & Hle & [(-> & -> & Hnone) | (c & -> & Hin & Hlt & Hlen & Hv & Hmax)]).
           ++ exists maxLength, longestChain. split; [exact Hrun|]. split; [lia|].
              left. repeat split. intros c' [<- | Hc']; [|now apply Hnone].
              intros [_ Hv']. congruence.
           ++ exists m', (Some c). split; [exact Hrun|]. split; [lia|].
              right. exists c. repeat split; auto; [now right|].
              intros c' [<- | Hc'] Hv'; [congruence | now apply Hmax].
      * apply Nat.ltb_ge in Hlonger.
        destruct (IH Htail maxLength longestChain)
          as (m' & lc' & Hrun & Hle & [(-> & -> & Hnone) | (c & -> & Hin & Hlt & Hlen & Hv & Hmax)]).
        -- exists maxLength, longestChain. split; [exact Hrun|]. split; [lia|].
           left. repeat split. intros c' [<- | Hc']; [|now apply Hnone].
           intros [Hlt _]. lia.
        -- exists m', (Some c). split; [exact Hrun|]. split; [lia|].
           right. exists c. repeat split; auto; [now right|].
           intros c' [<- | Hc'] Hv'; [lia | now apply Hmax].
    + destruct (IH Htail maxLength longestChain) as (m' & lc' & Hrun & Hle & Hcases).
      exists m', lc'. split; [exact Hrun|]. split; [exact Hle|].
      destruct body as [chain| |]; exact Hcases.
Qed.

(** X20. When every neighbour answers and every chain fetched holds blocks
    after its first entry, [ResolveConflicts] returns; it returns [true]
    exactly when some fetched chain is strictly longer than the local chain
    and passes [ValidChain]; the chain it then installs is such a fetched
    chain (so never one of length at most the local length, never one that
    fails validation), and a longest of them; the pool, the address, the
    port and the neighbours are as before; when it returns [false] the ledger
    is unchanged. *)
Theorem ResolveConflicts_spec (bc : Blockchain) :
  answers net (neighbours bc) ->
  exists replaced bc',
    ResolveConflicts net bc = Returns (replaced, bc')
    /\ (replaced = true <->
        exists c, In c (fetched net (neighbours bc)) /\ candidate bc c)
    /\ (replaced = true ->
        In (Chain bc') (fetched net (neighbours bc))
        /\ candidate bc (Chain bc')
        /\ TransactionPool bc' = TransactionPool bc
        /\ BlockChainAddress bc' = BlockChainAddress bc
        /\ Port bc' = Port bc
        /\ neighbours bc' = neighbours bc
        /\ forall c, In c (fetched net (neighbours bc)) ->
             ValidChain c = Returns true -> (len c <= len (Chain bc'))%nat)
    /\ (replaced = false -> bc' = bc).
Proof.
  intros Hans. unfold ResolveConflicts, candidate.
  destruct (ResolveConflicts_loop_answers (neighbours bc) Hans (len (Chain bc)) None)
    as (m' & lc' & Hrun & Hle & [(-> & -> & Hnone) | (c & -> & Hin & Hlt & Hlen & Hv & Hmax)]);
    rewrite Hrun; cbn [bind snd].
  - exists false, bc. split; [reflexivity|]. split; [|split; [discriminate | reflexivity]].
    split; [discriminate|]. intros (c & Hin & Hc). exfalso. exact (Hnone c Hin Hc).
  - eexists true, _. split; [reflexivity|]. split; [|split; [|discriminate]].
    + split; [|reflexivity]. intros _. exists c. auto.
    + intros _. cbn [Chain TransactionPool BlockChainAddress Port neighbours].
      repeat split; auto.
      intros c' Hc' Hv'. rewrite Hlen. now apply Hmax.
Qed.

End ResolveConflictsProperties.

(** ** Balances *)

Section BalanceProperties.

Lemma pointees_Some {A : Type} (l : list (option A)) :
  ~ In None l -> map Some (pointees l) = l.
Proof.
  induction l as [|[a|] l IH]; intros Hnil; [reflexivity| |].
  - cbn. f_equal. apply IH. intros H. apply Hnil. now right.
  - exfalso. apply Hnil. now left.
Qed.

(** The inner loop on a slice without a nil transaction. *)
Lemma CalculateTotalAmount_transactions_scan (a : string)
    (transactions : list (option Transaction)) (total : float32) :
  ~ In None transactions ->
  CalculateTotalAmount_transactions a transactions total
  = Returns (fold_left (account a) (pointees transactions) total).
Proof.
  revert total. induction transactions as [|[t|] l IH]; intros total Hnil;
    [reflexivity| |].
  - cbn [CalculateTotalAmount_transactions]. rewrite IH; [reflexivity|].
    intros H. apply Hnil. now right.
  - exfalso. apply Hnil. now left.
Qed.

(** The inner loop on a slice with a nil transaction. *)
Lemma CalculateTotalAmount_transactions_nil (a : string)
    (transactions : list (option Transaction)) (total : float32) :
  In None transactions ->
  CalculateTotalAmount_transactions a transactions total = Panics NilDereference.
Proof.
  revert total. induction transactions as [|[t|] l IH]; intros total Hnil.
  - destruct Hnil.
  - cbn [CalculateTotalAmount_transactions]. apply IH.
    destruct Hnil as [H | H]; [discriminate H | exact H].
  - reflexivity.
Qed.

Lemma no_nil_entry_cons (b : option Block) (chain : list (option Block)) :
  no_nil_entry (b :: chain)
  <-> (exists blk, b = Some blk /\ ~ In None (elems (Transactions blk)))
      /\ no_nil_entry chain.
Proof.
  unfold no_nil_entry. split.
  - intros [Hblocks Htxs]. destruct b as [blk|]; [|exfalso; apply Hblocks; now left].
    split; [exists blk; split; [reflexivity|]; apply Htxs; now left|].
    split; [intros H; apply Hblocks; now right|].
    intros b' Hb'. apply Htxs. now right.
  - intros [(blk & -> & Hblk) [Hblocks Htxs]]. split.
    + intros [H | H]; [discriminate H | contradiction].
    + intros b' [[= <-] | Hb']; [exact Hblk | now apply Htxs].
Qed.

(** The two loops on a chain without a nil entry: one scan of the committed
    transactions. *)
Lemma CalculateTotalAmount_blocks_scan (a : string) (chain : list (option Block))
    (total : float32) :
  no_nil_entry chain ->
  CalculateTotalAmount_blocks a chain total
  = Returns (fold_left (account a) (committed chain) total).
Proof.
  revert total. induction chain as [|b chain IH]; intros total Hnil; [reflexivity|].
  apply no_nil_entry_cons in Hnil. destruct Hnil as [(blk & -> & Hblk) Hrest].
  cbn [CalculateTotalAmount_blocks]. rewrite CalculateTotalAmount_transactions_scan by exact Hblk.
  cbn [bind]. rewrite IH by exact Hrest.
  change (committed (Some blk :: chain))
    with (pointees (elems (Transactions blk)) ++ committed chain).
  now rewrite fold_left_app.
Qed.

(** The two loops on a chain with a nil entry: every entry is read, so the
    scan panics. *)
Lemma CalculateTotalAmount_blocks_nil (a : string) (chain : list (option Block))
    (total : float32) :
  ~ no_nil_entry chain ->
  CalculateTotalAmount_blocks a chain total = Panics NilDereference.
Proof.
  revert total. induction chain as [|[blk|] chain IH]; intros total Hnil.
  - exfalso. apply Hnil. split; [intros [] | intros b []].
  - cbn [CalculateTotalAmount_blocks].
    destruct (In_None_dec (elems (Transactions blk))) as [Hin | Hout].
    + now rewrite CalculateTotalAmount_transactions_nil.
    + rewrite CalculateTotalAmount_transactions_scan by exact Hout. cbn [bind].
      apply IH. intros Hrest. apply Hnil. apply no_nil_entry_cons.
      split; [now exists blk | exact Hrest].
  - reflexivity.
Qed.

(** C8, amended.  On every chain whose blocks and transactions are none of
    them nil, [CalculateTotalAmount] returns the float32 running total of one
    scan of the committed transactions in chain order, started at 0: each
    transaction whose recipient is the address adds its value, each whose
    sender is the address then subtracts it, and every step is rounded to
    float32.  The pool plays no part (nor any field but the chain); the
    result is 0 for an address that no committed transaction names; for an
    address that has sent nothing it is the float32 sum of the values
    received, which is the received sum minus the sent sum.  The function
    returns a number and no ledger.  (On a chain with a nil entry it returns
    nothing: it panics on [b.Transactions] or [t.Value].) *)
Theorem CalculateTotalAmount_spec (bc : Blockchain) (a : string) :
  (no_nil_entry (Chain bc) ->
   CalculateTotalAmount bc a
   = Returns
       (fold_left
          (fun total t =>
             let total := if String.eqb a (RecipientBlockchainAddress t)
                          then f32_add total (Value t) else total in
             if String.eqb a (SenderBlockchainAddress t)
             then f32_sub total (Value t) else total)
          (committed (Chain bc)) f32_zero)
   /\ (no_history (Chain bc) a -> CalculateTotalAmount bc a = Returns f32_zero)
   /\ ((forall t, In t (committed (Chain bc)) ->
          String.eqb a (SenderBlockchainAddress t) = false) ->
       CalculateTotalAmount bc a = Returns (credits (Chain bc) a)
       /\ CalculateTotalAmount bc a = Returns (BalanceOf_as_worded (Chain bc) a)))
  /\ (forall bc', Chain bc' = Chain bc ->
        CalculateTotalAmount bc' a = CalculateTotalAmount bc a)
  /\ (~ no_nil_entry (Chain bc) -> CalculateTotalAmount bc a = Panics NilDereference).
Proof.
  split; [|split].
  - intros Hnil.
    assert (Hscan : CalculateTotalAmount bc a
                    = Returns (fold_left (account a) (committed (Chain bc)) f32_zero)).
    { unfold CalculateTotalAmount. now apply CalculateTotalAmount_blocks_scan. }
    split; [exact Hscan|]. split.
    + intros Hnone. rewrite Hscan. f_equal. now apply fold_account_no_history.
    + intros Hsent.
      assert (Hcredits : CalculateTotalAmount bc a = Returns (credits (Chain bc) a)).
      { rewrite Hscan. f_equal. now apply fold_account_credits_only. }
      split; [exact Hcredits|]. rewrite Hcredits. f_equal.
      unfold BalanceOf_as_worded, debits.
      replace (filter (fun t => String.eqb a (SenderBlockchainAddress t))
                 (committed (Chain bc))) with (@nil Transaction).
      * cbn [map fold_left]. now rewrite f32_sub_zero.
      * symmetry. now apply filter_none.
  - intros bc' Hchain. unfold CalculateTotalAmount. now rewrite Hchain.
  - intros Hnil. unfold CalculateTotalAmount. now apply CalculateTotalAmount_blocks_nil.
Qed.

(** The balance of an address the chain does not name. *)
Lemma CalculateTotalAmount_unnamed (bc : Blockchain) (a : string) :
  no_nil_entry (Chain bc) -> no_history (Chain bc) a ->
  CalculateTotalAmount bc a = Returns f32_zero.
Proof.
  intros Hnil Hnone. unfold CalculateTotalAmount.
  rewrite CalculateTotalAmount_blocks_scan by exact Hnil. f_equal.
  now apply fold_account_no_history.
Qed.

End BalanceProperties.

(** ** Admission *)

Section AddTransactionProperties.

Context {rt : GoRuntime} {mc : GoMachine}.

(** C5. For a sender other than [MINING_SENDER]: when the signature check
    over the digest of the serialized transaction answers [false] the call
    returns [false] with the ledger unchanged, and does so whatever the chain
    is, a chain on which the balance cannot be computed included (the balance
    plays no part); when the check answers [true] and the balance over the
    committed chain is less than the value the call returns [false] with the
    ledger unchanged; when the check answers [true] and the balance is not
    less than the value the call returns [true] and the pool is the pool as
    it was followed by the transaction, the other fields as they were; and
    the call returns [true] in no other case. *)
Theorem AddTransaction_checks (bc : Blockchain) (sender recipient : string)
    (value : float32) (senderPublicKey : option PublicKey) (s : option Signature) :
  sender <> MINING_SENDER ->
  let t := NewTransaction sender recipient value in
  let verified := VerifyTransactionSignature senderPublicKey s t in
  let call := AddTransaction bc sender recipient value senderPublicKey s in
  let appended (bc' : Blockchain) :=
    TransactionPool bc' = Some (elems (TransactionPool bc) ++ [Some t])
    /\ Chain bc' = Chain bc
    /\ BlockChainAddress bc' = BlockChainAddress bc
    /\ Port bc' = Port bc
    /\ neighbours bc' = neighbours bc in
  (verified = Returns false ->
     call = Returns (false, bc)
     /\ forall chain,
          let other := {| TransactionPool := TransactionPool bc;
                          Chain := chain;
                          BlockChainAddress := BlockChainAddress bc;
                          Port := Port bc;
                          neighbours := neighbours bc |} in
          AddTransaction other sender recipient value senderPublicKey s
          = Returns (false, other))
  /\ (verified = Returns true ->
      forall balance, CalculateTotalAmount bc sender = Returns balance ->
        f32_lt balance value = true -> call = Returns (false, bc))
  /\ (verified = Returns true ->
      forall balance, CalculateTotalAmount bc sender = Returns balance ->
        f32_lt balance value = false ->
        exists bc', call = Returns (true, bc') /\ appended bc')
  /\ (forall bc', call = Returns (true, bc') ->
        verified = Returns true
        /\ (exists balance, CalculateTotalAmount bc sender = Returns balance
                            /\ f32_lt balance value = false)
        /\ appended bc')
  /\ (forall bc', call = Returns (false, bc') -> bc' = bc).
Proof.
  intros Hsender t verified call appended.
  apply String.eqb_neq in Hsender.
  assert (Hcall : forall x : Blockchain,
            AddTransaction x sender recipient value senderPublicKey s
            = (ok <- verified ;;
               if ok then
                 balance <- CalculateTotalAmount x sender ;;
                 if f32_lt balance value then Returns (false, x)
                 else Returns (true, {| TransactionPool :=
                                          Some (elems (TransactionPool x) ++ [Some t]);
                                        Chain := Chain x;
                                        BlockChainAddress := BlockChainAddress x;
                                        Port := Port x;
                                        neighbours := neighbours x |})
               else Returns (false, x))).
  { intros x. unfold AddTransaction. now rewrite Hsender. }
  unfold call. rewrite Hcall.
  split; [|split; [|split; [|split]]].
  - intros Hfails. split.
    + rewrite Hfails. reflexivity.
    + intros chain. cbv zeta. rewrite Hcall, Hfails. reflexivity.
  - intros Hverifies balance Hbalance Hshort.
    rewrite Hverifies. cbn [bind]. rewrite Hbalance. cbn [bind]. now rewrite Hshort.
  - intros Hverifies balance Hbalance Hshort.
    rewrite Hverifies. cbn [bind]. rewrite Hbalance. cbn [bind]. rewrite Hshort.
    eexists. split; [reflexivity|]. repeat split.
  - intros bc'.
    destruct verified as [[|]| |]; cbn [bind]; try discriminate.
    destruct (CalculateTotalAmount bc sender) as [balance| |]; cbn [bind];
      try discriminate.
    destruct (f32_lt balance value) eqn:Hshort; [discriminate|]. intros [= <-].
    split; [reflexivity|]. split; [now exists balance|]. repeat split.
  - intros bc'.
    destruct verified as [[|]| |]; cbn [bind]; try discriminate.
    + destruct (CalculateTotalAmount bc sender) as [balance| |]; cbn [bind];
        try discriminate.
      destruct (f32_lt balance value); [|discriminate]. now intros [= <-].
    + now intros [= <-].
Qed.

(** X14. the balance check and the sign of the amount.  On a chain without
    a nil entry, for a sender, not [MINING_SENDER], that no committed
    transaction names, and a signature that verifies: the transfer is refused
    and the ledger left as it is when the amount is above zero (a positive
    number or plus infinity); when it is zero, negative or not a number the
    call returns [true] and the pool is the pool as it was followed by the
    transaction, the other fields as they were. *)
Theorem AddTransaction_no_history (bc : Blockchain) (sender recipient : string)
    (value : float32) (key : option PublicKey) (s : option Signature) :
  sender <> MINING_SENDER ->
  no_nil_entry (Chain bc) ->
  no_history (Chain bc) sender ->
  VerifyTransactionSignature key s (NewTransaction sender recipient value)
  = Returns true ->
  exists result bc',
    AddTransaction bc sender recipient value key s = Returns (result, bc')
    /\ result = negb (f32_positive value)
    /\ (f32_positive value = true -> bc' = bc)
    /\ (f32_positive value = false ->
        TransactionPool bc'
        = Some (elems (TransactionPool bc) ++ [Some (NewTransaction sender recipient value)])
        /\ Chain bc' = Chain bc
        /\ BlockChainAddress bc' = BlockChainAddress bc
        /\ Port bc' = Port bc
        /\ neighbours bc' = neighbours bc).
Proof.
  intros Hsender Hnil Hnone Hverified. unfold AddTransaction.
  apply String.eqb_neq in Hsender. rewrite Hsender, Hverified. cbn [bind].
  rewrite CalculateTotalAmount_unnamed by assumption. cbn [bind].
  rewrite f32_lt_zero. destruct (f32_positive value).
  - exists false, bc. repeat split; discriminate.
  - eexists true, _. split; [reflexivity|]. split; [reflexivity|].
    split; [discriminate|]. intros _. repeat split.
Qed.

End AddTransactionProperties.

(** ** Notifications *)

Section Notifications.

Variables (web : Web) (method : string).

(** The loop returns exactly when every request is sent. *)
Lemma send_all_Sent (endpoints : list string) :
  (forall e, In e endpoints -> web method e = Sent)
  <-> send_all web method endpoints = Returns tt.
Proof.
  induction endpoints as [|e rest IH]; cbn [send_all].
  - split; [reflexivity | intros _ e []].
  - split.
    + intros H. rewrite (H e (or_introl eq_refl)). apply IH.
      intros e' He'. apply H. now right.
    + destruct (web method e) eqn:He; try discriminate.
      intros H e' [<- | He']; [exact He | now apply IH].
Qed.

(** It panics at the first endpoint that makes no request, when those before
    it were sent. *)
Lemma send_all_NoRequest (sent : list string) (e : string) (rest : list string) :
  (forall e', In e' sent -> web method e' = Sent) ->
  web method e = NoRequest ->
  send_all web method (sent ++ e :: rest) = Panics NilDereference.
Proof.
  intros Hsent He. induction sent as [|x sent IH]; cbn [send_all app].
  - now rewrite He.
  - rewrite (Hsent x (or_introl eq_refl)). apply IH.
    intros e' He'. apply Hsent. now right.
Qed.

(** It waits for ever at the first endpoint that does not answer. *)
Lemma send_all_NoAnswer (sent : list string) (e : string) (rest : list string) :
  (forall e', In e' sent -> web method e' = Sent) ->
  web method e = NoAnswer ->
  send_all web method (sent ++ e :: rest) = OutOfFuel.
Proof.
  intros Hsent He. induction sent as [|x sent IH]; cbn [send_all app].
  - now rewrite He.
  - rewrite (Hsent x (or_introl eq_refl)). apply IH.
    intros e' He'. apply Hsent. now right.
Qed.

End Notifications.

(** ** New blocks *)

Section CreateBlockProperties.

Context {rt : GoRuntime} {mc : GoMachine}.

Lemma LastBlock_snoc (bc : Blockchain) (front : list (option Block)) (b : option Block) :
  Chain bc = front ++ [b] -> LastBlock bc = Returns b.
Proof.
  intros H. unfold LastBlock. now rewrite H, nth_error_snoc.
Qed.

Lemma LastBlock_nonempty (bc : Blockchain) :
  Chain bc <> [] -> exists last, LastBlock bc = Returns last.
Proof.
  intros Hne. destruct (Chain bc) as [|x l] eqn:Hchain using rev_ind; [congruence|].
  exists x. now apply (LastBlock_snoc bc l).
Qed.

Lemma LastBlock_empty (bc : Blockchain) :
  Chain bc = [] -> LastBlock bc = Panics IndexOutOfRange.
Proof. intros H. unfold LastBlock. now rewrite H. Qed.

Lemma pointees_app {A : Type} (l l' : list (option A)) :
  pointees (l ++ l') = pointees l ++ pointees l'.
Proof. unfold pointees. apply flat_map_app. Qed.

Lemma committed_append_block (chain : list (option Block)) (b : Block) :
  committed (chain ++ [Some b]) = committed chain ++ pointees (elems (Transactions b)).
Proof.
  unfold committed. rewrite pointees_app, flat_map_app. cbn. now rewrite !app_nil_r.
Qed.

(** The scan of a chain with one more block goes on through that block. *)
Lemma CalculateTotalAmount_blocks_snoc (a : string) (chain : list (option Block))
    (b : Block) (total : float32) :
  CalculateTotalAmount_blocks a (chain ++ [Some b]) total
  = (total' <- CalculateTotalAmount_blocks a chain total ;;
     CalculateTotalAmount_transactions a (elems (Transactions b)) total').
Proof.
  revert total. induction chain as [|[x|] chain IH]; intros total;
    cbn [CalculateTotalAmount_blocks app bind].
  - now destruct (CalculateTotalAmount_transactions a (elems (Transactions b)) total).
  - destruct (CalculateTotalAmount_transactions a (elems (Transactions x)) total);
      cbn [bind]; [apply IH | reflexivity | reflexivity].
  - reflexivity.
Qed.

(** X5. [CreateBlock] returns exactly when every neighbour takes the
    [DELETE] request; it panics at the first neighbour whose address makes no
    request, and waits for ever at the first that does not answer.  When it
    returns, the block has the nonce, the previous hash and the clock reading
    it was given and the whole pool as its transactions; the chain is the old
    chain followed by this block, which is then the last block; the pool is
    empty (and not nil); the other fields are as they were.  No transaction
    is lost or doubled: the committed transactions followed by those of the
    pool are the same list before and after.  Every balance afterwards is the
    balance before carried through the transactions that were in the pool, in
    their order. *)
Theorem CreateBlock_spec (web : Web) (now : Z) (bc : Blockchain) (nonce : Z)
    (previousHash : Array32) :
  let call := CreateBlock web now bc nonce previousHash in
  let requests := map transactions_endpoint (neighbours bc) in
  ((exists result, call = Returns result)
   <-> forall n, In n (neighbours bc) ->
         web "DELETE"%string (transactions_endpoint n) = Sent)
  /\ (forall sent e rest,
        requests = sent ++ e :: rest ->
        (forall e', In e' sent -> web "DELETE"%string e' = Sent) ->
        (web "DELETE"%string e = NoRequest -> call = Panics NilDereference)
        /\ (web "DELETE"%string e = NoAnswer -> call = OutOfFuel))
  /\ (forall block bc',
        call = Returns (block, bc') ->
        block = {| Nonce := nonce; PreviousHash := previousHash;
                   Timestamp := now; Transactions := TransactionPool bc |}
        /\ Chain bc' = Chain bc ++ [Some block]
        /\ TransactionPool bc' = Some []
        /\ BlockChainAddress bc' = BlockChainAddress bc
        /\ Port bc' = Port bc
        /\ neighbours bc' = neighbours bc
        /\ LastBlock bc' = Returns (Some block)
        /\ committed (Chain bc') ++ pointees (elems (TransactionPool bc'))
           = committed (Chain bc) ++ pointees (elems (TransactionPool bc))
        /\ forall a,
             CalculateTotalAmount bc' a
             = (total <- CalculateTotalAmount bc a ;;
                CalculateTotalAmount_transactions a (elems (TransactionPool bc)) total)).
Proof.
  intros call requests. unfold call, CreateBlock. cbn [neighbours]. fold requests.
  split; [|split].
  - split.
    + intros (result & Hcall) n Hn.
      destruct (send_all web "DELETE" requests) as [[]| |] eqn:Hsend;
        cbn [bind] in Hcall; try discriminate Hcall.
      apply (proj2 (send_all_Sent web "DELETE" requests) Hsend).
      now apply in_map.
    + intros Hsent. eexists.
      rewrite (proj1 (send_all_Sent web "DELETE" requests)); [reflexivity|].
      intros e He. apply in_map_iff in He. destruct He as (n & <- & Hn). now apply Hsent.
  - intros sent e rest -> Hsent. split; intros He.
    + now rewrite (send_all_NoRequest web "DELETE" sent e rest Hsent He).
    + now rewrite (send_all_NoAnswer web "DELETE" sent e rest Hsent He).
  - intros block bc'.
    destruct (send_all web "DELETE" requests) as [[]| |]; cbn [bind]; try discriminate.
    intros [= <- <-].
    cbn [Chain TransactionPool BlockChainAddress Port neighbours newBlock elems pointees
         flat_map].
    do 6 (split; [reflexivity|]). split; [|split].
    + eapply LastBlock_snoc. reflexivity.
    + rewrite committed_append_block, app_nil_r. reflexivity.
    + intros a. unfold CalculateTotalAmount. cbn [Chain].
      apply CalculateTotalAmount_blocks_snoc.
Qed.

End CreateBlockProperties.

(** ** Mining *)

Section MiningProperties.

Context {rt : GoRuntime} {mc : GoMachine}.

(** The copy of a pool without a nil transaction holds equal transactions in
    the same order. *)
Lemma CopyTransactionPool_loop_copies (pool : list (option Transaction)) :
  ~ In None pool -> CopyTransactionPool_loop pool = Returns pool.
Proof.
  induction pool as [|[t|] pool IH]; intros Hnil; [reflexivity| |].
  - cbn [CopyTransactionPool_loop]. rewrite IH by (intros H; apply Hnil; now right).
    cbn [bind]. now rewrite NewTransaction_eta.
  - exfalso. apply Hnil. now left.
Qed.

Lemma CopyTransactionPool_loop_nil (pool : list (option Transaction)) :
  In None pool -> CopyTransactionPool_loop pool = Panics NilDereference.
Proof.
  induction pool as [|[t|] pool IH]; intros Hnil.
  - destruct Hnil.
  - cbn [CopyTransactionPool_loop]. rewrite IH; [reflexivity|].
    destruct Hnil as [H | H]; [discriminate H | exact H].
  - reflexivity.
Qed.

(** [Mining] step by step: the reward joins the pool, the pool is copied, the
    search runs on the hash of the last block and the copy, the block is
    created, and the neighbours are told twice. *)
Lemma Mining_steps (web : Web) (fuel : nat) (now : Z) (bc : Blockchain) :
  let mined := Some (elems (TransactionPool bc) ++ [Some (reward bc)]) in
  Mining web fuel now bc
  = (copies <- CopyTransactionPool_loop (elems mined) ;;
     last <- LastBlock bc ;;
     nonce <- ProofOfWork_loop (Hash last) (Some copies) fuel 0 ;;
     _ <- send_all web "DELETE" (map transactions_endpoint (neighbours bc)) ;;
     _ <- send_all web "PUT" (map consensus_endpoint (neighbours bc)) ;;
     Returns (true, {| TransactionPool := Some [];
                       Chain := Chain bc ++ [Some (newBlock now nonce (Hash last) mined)];
                       BlockChainAddress := BlockChainAddress bc;
                       Port := Port bc;
                       neighbours := neighbours bc |})).
Proof.
  intros mined. unfold Mining, AddTransaction.
  change (String.eqb MINING_SENDER MINING_SENDER) with true. cbn [bind snd].
  unfold ProofOfWork, CopyTransactionPool, CreateBlock, LastBlock.
  cbn [TransactionPool Chain neighbours BlockChainAddress Port elems].
  fold (reward bc). fold mined.
  change (elems mined) with (elems (TransactionPool bc) ++ [Some (reward bc)]).
  destruct (CopyTransactionPool_loop (elems (TransactionPool bc) ++ [Some (reward bc)]))
    as [copies| |]; cbn [bind elems]; try reflexivity.
  destruct (nth_error (Chain bc) (len (Chain bc) - 1)) as [last|]; cbn [bind];
    try reflexivity.
  destruct (ProofOfWork_loop (Hash last) (Some copies) fuel 0) as [nonce| |];
    cbn [bind]; try reflexivity.
  destruct (send_all web "DELETE" (map transactions_endpoint (neighbours bc)))
    as [[]| |]; cbn [bind snd neighbours]; reflexivity.
Qed.

(** What holds after a call of [Mining] that returned. *)
Lemma Mining_returns (web : Web) (fuel : nat) (now : Z) (bc bc' : Blockchain)
    (result : bool) :
  Mining web fuel now bc = Returns (result, bc') ->
  result = true
  /\ TransactionPool bc' = Some []
  /\ BlockChainAddress bc' = BlockChainAddress bc
  /\ Port bc' = Port bc
  /\ neighbours bc' = neighbours bc
  /\ ~ In None (elems (TransactionPool bc))
  /\ all_sent web (neighbours bc)
  /\ exists last block,
       LastBlock bc = Returns last
       /\ Chain bc' = Chain bc ++ [Some block]
       /\ Transactions block = Some (elems (TransactionPool bc) ++ [Some (reward bc)])
       /\ PreviousHash block = Hash last
       /\ Timestamp block = now
       /\ ValidProof (Nonce block) (PreviousHash block) (Transactions block)
            MINING_DIFFICULTY = Returns true.
Proof.
  rewrite Mining_steps. cbv zeta.
  set (mined := elems (TransactionPool bc) ++ [Some (reward bc)]).
  cbn [elems].
  destruct (In_None_dec mined) as [Hin | Hout];
    [now rewrite CopyTransactionPool_loop_nil|].
  rewrite CopyTransactionPool_loop_copies by exact Hout. cbn [bind].
  destruct (LastBlock bc) as [last| |]; cbn [bind]; try discriminate.
  destruct (ProofOfWork_loop (Hash last) (Some mined) fuel 0)
    as [nonce| |] eqn:Hloop; cbn [bind]; try discriminate.
  destruct (send_all web "DELETE" (map transactions_endpoint (neighbours bc)))
    as [[]| |] eqn:Hdelete; cbn [bind]; try discriminate.
  destruct (send_all web "PUT" (map consensus_endpoint (neighbours bc)))
    as [[]| |] eqn:Hput; cbn [bind]; try discriminate.
  intros [= <- <-]. cbn [TransactionPool BlockChainAddress Port neighbours Chain].
  repeat (split; [reflexivity|]). split; [|split].
  - intros H. apply Hout. unfold mined. apply in_or_app. now left.
  - intros n Hn. split.
    + apply (proj2 (send_all_Sent _ _ _) Hdelete). now apply in_map.
    + apply (proj2 (send_all_Sent _ _ _) Hput). now apply in_map.
  - exists last, (newBlock now nonce (Hash last) (Some mined)).
    repeat split. cbn [newBlock Nonce PreviousHash Transactions].
    exact (search_sound _ _ _ _ _ Hloop).
Qed.

(** C7, amended.  On a ledger with a last block and no nil transaction in
    the pool, when some 64-bit nonce passes [ValidProof] for the hash of the
    last block and the pool followed by the reward, and every neighbour takes
    the two notifications, [Mining] returns [true] (for every fuel large
    enough, the pool empty or not): the chain is then the old chain followed
    by one new block, the transactions of that block are the pool as it was,
    in order, followed by the reward transaction (from [MINING_SENDER] to the
    node's address, of value [MINING_REWARD]), and the pool is empty; the new
    block carries the hash of the old last block and a nonce that
    [ValidProof] accepts.  [Mining] has no path that returns [false]:
    whenever a call returns, it returns [true] with all of this. *)
Theorem Mining_spec (web : Web) (now : Z) (bc : Blockchain) (last : option Block) :
  let mined := Some (elems (TransactionPool bc) ++ [Some (reward bc)]) in
  let mined_by (bc' : Blockchain) :=
    TransactionPool bc' = Some []
    /\ len (Chain bc') = S (len (Chain bc))
    /\ BlockChainAddress bc' = BlockChainAddress bc
    /\ Port bc' = Port bc
    /\ neighbours bc' = neighbours bc
    /\ exists block,
         Chain bc' = Chain bc ++ [Some block]
         /\ LastBlock bc' = Returns (Some block)
         /\ Transactions block = mined
         /\ PreviousHash block = Hash last
         /\ Timestamp block = now
         /\ ValidProof (Nonce block) (PreviousHash block) (Transactions block)
              MINING_DIFFICULTY = Returns true in
  LastBlock bc = Returns last ->
  (~ In None (elems (TransactionPool bc)) ->
   (exists nonce, int64 nonce /\
      ValidProof nonce (Hash last) mined MINING_DIFFICULTY = Returns true) ->
   all_sent web (neighbours bc) ->
   exists fuel bc',
     (forall extra, Mining web (fuel + extra) now bc = Returns (true, bc'))
     /\ mined_by bc')
  /\ (forall fuel result bc',
        Mining web fuel now bc = Returns (result, bc') ->
        result = true /\ mined_by bc').
Proof.
  intros mined mined_by Hlast.
  assert (Hafter : forall fuel result bc',
            Mining web fuel now bc = Returns (result, bc') ->
            result = true /\ mined_by bc').
  { intros fuel result bc' Hcall.
    destruct (Mining_returns _ _ _ _ _ _ Hcall)
      as (Hresult & Hpool & Haddress & Hport & Hns & _ & _
          & last' & block & Hlast' & Hchain & Hrest).
    assert (last' = last) by congruence. subst last'.
    split; [exact Hresult|]. unfold mined_by.
    split; [exact Hpool|]. split.
    { rewrite Hchain. unfold len. rewrite length_app. cbn. lia. }
    repeat (split; [assumption|]).
    exists block. split; [exact Hchain|]. split; [|exact Hrest].
    now apply (LastBlock_snoc bc' (Chain bc)). }
  split; [|exact Hafter].
  intros Hpool Hnonce Hsent.
  destruct (search_terminates (Hash last) mined Hnonce) as (fuel & found & Hrun & _).
  assert (Hcall : forall extra, exists bc',
            Mining web (fuel + extra) now bc = Returns (true, bc')
            /\ bc' = {| TransactionPool := Some [];
                        Chain := Chain bc ++ [Some (newBlock now found (Hash last) mined)];
                        BlockChainAddress := BlockChainAddress bc;
                        Port := Port bc;
                        neighbours := neighbours bc |}).
  { intros extra. rewrite Mining_steps. cbv zeta. fold mined. unfold mined at 1.
    cbn [elems]. rewrite CopyTransactionPool_loop_copies.
    - cbn [bind]. rewrite Hlast. cbn [bind]. fold mined. rewrite Hrun. cbn [bind].
      rewrite (proj1 (send_all_Sent web "DELETE" _)).
      + cbn [bind]. rewrite (proj1 (send_all_Sent web "PUT" _)).
        * cbn [bind]. eexists. split; reflexivity.
        * intros e He. apply in_map_iff in He. destruct He as (n & <- & Hn).
          now apply Hsent.
      + intros e He. apply in_map_iff in He. destruct He as (n & <- & Hn).
        now apply Hsent.
    - intros H. apply in_app_or in H. destruct H as [H | [H | []]];
        [contradiction | discriminate H]. }
  destruct (Hcall 0%nat) as (bc' & Hrun0 & Hbc').
  exists fuel, bc'. split.
  - intros extra. destruct (Hcall extra) as (bc'' & Hrun' & Hbc''). congruence.
  - exact (proj2 (Hafter _ _ _ Hrun0)).
Qed.

End MiningProperties.

(** ** The search and the difficulty *)

Lemma wrap64_range (z : Z) : int64 (wrap64 z).
Proof.
  unfold int64, wrap64.
  pose proof (Z.mod_pos_bound (z + 2 ^ 63) (2 ^ 64) ltac:(lia)). lia.
Qed.

Section SearchDifficulty.

Context {rt : GoRuntime} {mc : GoMachine}.

(** When no 64-bit nonce passes, the search from 0 returns for no fuel. *)
Lemma search_never_int64 (previousHash : Array32)
    (transactions : slice (option Transaction)) :
  (forall nonce, int64 nonce ->
     ValidProof nonce previousHash transactions MINING_DIFFICULTY = Returns false) ->
  forall fuel nonce, int64 nonce ->
    ProofOfWork_loop previousHash transactions fuel nonce = OutOfFuel.
Proof.
  intros Hnone.
  assert (Hdigest : forall nonce, int64 nonce ->
            leading_zeros 3 (trial_digest nonce previousHash transactions) = false).
  { intros nonce Hrange. specialize (Hnone nonce Hrange).
    rewrite ValidProof_at_3 in Hnone. congruence. }
  induction fuel as [|fuel IH]; intros nonce Hrange;
    rewrite search_unfold, Hdigest by exact Hrange; [reflexivity|].
  apply IH, wrap64_range.
Qed.

(** [ProofOfWork] is the loop from nonce 0, on the hash of the last block
    and the transactions of the pool. *)
Lemma ProofOfWork_search (fuel : nat) (bc : Blockchain) (last : option Block) :
  LastBlock bc = Returns last ->
  ~ In None (elems (TransactionPool bc)) ->
  ProofOfWork fuel bc
  = ProofOfWork_loop (Hash last) (Some (elems (TransactionPool bc))) fuel 0.
Proof.
  intros Hlast Hpool. unfold ProofOfWork, CopyTransactionPool.
  rewrite CopyTransactionPool_loop_copies by exact Hpool. cbn [bind].
  now rewrite Hlast.
Qed.

(** C3, amended.  The search runs at the fixed difficulty 3: [ProofOfWork]
    is the loop that hands [MINING_DIFFICULTY] to [ValidProof], from nonce 0,
    on the hash of the last block and the transactions of the pool.  A nonce
    the loop returns passes [ValidProof] at that difficulty.  The loop does
    return, for every fuel large enough and always the same nonce, when some
    64-bit nonce passes [ValidProof] for the given previous hash and
    transactions: it starts at 0 and adds 1, wrapping around, so it reaches
    every 64-bit nonce.  When none passes it returns for no fuel. *)
Theorem ProofOfWork_loop_spec (previousHash : Array32)
    (transactions : slice (option Transaction)) :
  (forall fuel bc last,
     LastBlock bc = Returns last -> Hash last = previousHash ->
     ~ In None (elems (TransactionPool bc)) ->
     Some (elems (TransactionPool bc)) = transactions ->
     ProofOfWork fuel bc = ProofOfWork_loop previousHash transactions fuel 0)
  /\ (forall fuel nonce found,
        ProofOfWork_loop previousHash transactions fuel nonce = Returns found ->
        ValidProof found previousHash transactions MINING_DIFFICULTY = Returns true)
  /\ ((exists nonce, int64 nonce /\
         ValidProof nonce previousHash transactions MINING_DIFFICULTY = Returns true) ->
      exists fuel found,
        (forall extra,
           ProofOfWork_loop previousHash transactions (fuel + extra) 0 = Returns found)
        /\ ValidProof found previousHash transactions MINING_DIFFICULTY = Returns true)
  /\ ((forall nonce, int64 nonce ->
         ValidProof nonce previousHash transactions MINING_DIFFICULTY = Returns false) ->
      forall fuel, ProofOfWork_loop previousHash transactions fuel 0 = OutOfFuel).
Proof.
  split; [|split; [|split]].
  - intros fuel bc last Hlast <- Hpool <-. now apply ProofOfWork_search.
  - intros fuel nonce found. apply search_sound.
  - apply search_terminates.
  - intros Hnone fuel. apply search_never_int64; [exact Hnone|].
    unfold int64. lia.
Qed.

(** X22. The nonce the search returns and the difficulty.  Whenever
    [ProofOfWork] returns a nonce, the pool was copied whole, the nonce
    passes [ValidProof] at [MINING_DIFFICULTY] for the hash of the last block
    and the pool, and it fails [ValidProof] at difficulty 0, where no digit
    is required to be zero: there the three digits of [guessHashStr[:3]] are
    compared with the empty string. *)
Theorem ProofOfWork_difficulty_0 (fuel : nat) (bc : Blockchain)
    (last : option Block) (nonce : Z) :
  LastBlock bc = Returns last ->
  ProofOfWork fuel bc = Returns nonce ->
  let transactions := Some (elems (TransactionPool bc)) in
  CopyTransactionPool bc = Returns transactions
  /\ ValidProof nonce (Hash last) transactions MINING_DIFFICULTY = Returns true
  /\ ValidProof nonce (Hash last) transactions 0 = Returns false
  /\ leading_zeros 0 (trial_digest nonce (Hash last) transactions) = true.
Proof.
  intros Hlast Hrun transactions. unfold ProofOfWork, CopyTransactionPool in *.
  destruct (In_None_dec (elems (TransactionPool bc))) as [Hin | Hout].
  - rewrite CopyTransactionPool_loop_nil in Hrun by exact Hin. discriminate Hrun.
  - rewrite CopyTransactionPool_loop_copies in * by exact Hout.
    cbn [bind] in *. rewrite Hlast in Hrun. cbn [bind] in Hrun.
    split; [reflexivity|]. split; [exact (search_sound _ _ _ _ _ Hrun)|].
    split; [|reflexivity].
    rewrite ValidProof_allocation.
    replace (max_alloc <? 0) with false
      by (symmetry; apply Z.ltb_ge; pose proof max_alloc_min; lia).
    reflexivity.
Qed.

End SearchDifficulty.

End FullProperties.

(** ** The two embeddings agree

    On a ledger without nil pointers, with neighbours that take every
    notification and a difficulty the machine can allocate, the whole code
    does what [Section Ledger] says. *)

Section Agreement.

Context {rt : GoRuntime} {mc : GoMachine}.

Lemma lift_transactions_elems (transactions : slice Transaction) :
  elems (lift_transactions transactions) = map Some (elems transactions).
Proof. now destruct transactions. Qed.

Lemma Block_MarshalJSON_lift (b : Block) :
  Full.Block_MarshalJSON (lift_block b) = Block_MarshalJSON b.
Proof.
  unfold Full.Block_MarshalJSON, Block_MarshalJSON, lift_block, lift_transactions.
  cbn [Full.Nonce Full.PreviousHash Full.Timestamp Full.Transactions].
  destruct (Transactions b) as [l|]; cbn [option_map]; [|reflexivity].
  now rewrite map_map.
Qed.

Lemma Hash_lift (b : Block) : Full.Hash (Some (lift_block b)) = Hash b.
Proof. unfold Full.Hash, Hash. now rewrite Block_MarshalJSON_lift. Qed.

Lemma ValidProof_lift (nonce : Z) (previousHash : Array32)
    (transactions : slice Transaction) (difficulty : Z) :
  difficulty <= max_alloc ->
  Full.ValidProof nonce previousHash (lift_transactions transactions) difficulty
  = ValidProof nonce previousHash transactions difficulty.
Proof.
  intros Hd. rewrite FullProperties.ValidProof_allocation.
  replace (max_alloc <? difficulty) with false by (symmetry; apply Z.ltb_ge; lia).
  destruct (difficulty <? 0) eqn:Hneg.
  - apply Z.ltb_lt in Hneg. now rewrite ValidProof_negative.
  - apply Z.ltb_ge in Hneg. rewrite ValidProof_eq by exact Hneg.
    unfold Full.trial_digest, trial_digest, trial_block.
    now rewrite <- Hash_lift.
Qed.

Lemma ProofOfWork_loop_lift (previousHash : Array32)
    (transactions : slice Transaction) (fuel : nat) (nonce : Z) :
  Full.ProofOfWork_loop previousHash (lift_transactions transactions) fuel nonce
  = ProofOfWork_loop MINING_DIFFICULTY previousHash transactions fuel nonce.
Proof.
  assert (H3 : MINING_DIFFICULTY <= max_alloc).
  { pose proof max_alloc_min. unfold MINING_DIFFICULTY. lia. }
  revert nonce. induction fuel as [|fuel IH]; intros nonce;
    cbn [Full.ProofOfWork_loop ProofOfWork_loop]; rewrite ValidProof_lift by exact H3;
    destruct (ValidProof nonce previousHash transactions MINING_DIFFICULTY)
      as [[|]| |]; cbn [bind]; auto.
Qed.

Lemma ValidChain_loop_lift (preBlock : Block) (rest : list Block) :
  Full.ValidChain_loop (Some (lift_block preBlock)) (lift_chain rest)
  = ValidChain_loop preBlock rest.
Proof.
  assert (H3 : MINING_DIFFICULTY <= max_alloc).
  { pose proof max_alloc_min. unfold MINING_DIFFICULTY. lia. }
  revert preBlock. induction rest as [|b rest IH]; intros preBlock; [reflexivity|].
  cbn [lift_chain map Full.ValidChain_loop ValidChain_loop].
  rewrite Hash_lift.
  cbn [lift_block Full.PreviousHash Full.Nonce Full.Transactions].
  rewrite ValidProof_lift by exact H3.
  destruct (negb (Array32_eqb (PreviousHash b) (Hash preBlock))); [reflexivity|].
  destruct (ValidProof (Nonce b) (PreviousHash b) (Transactions b) MINING_DIFFICULTY)
    as [[|]| |]; cbn [bind negb]; try reflexivity.
  apply IH.
Qed.

Lemma ValidChain_lift (chain : list Block) :
  Full.ValidChain (lift_chain chain) = ValidChain chain.
Proof.
  destruct chain as [|preBlock rest]; [reflexivity|]. apply ValidChain_loop_lift.
Qed.

Lemma CalculateTotalAmount_transactions_lift (a : string) (l : list Transaction)
    (total : float32) :
  Full.CalculateTotalAmount_transactions a (map Some l) total
  = Returns (fold_left (account a) l total).
Proof.
  revert total. induction l as [|t l IH]; intros total; [reflexivity|]. apply IH.
Qed.

Lemma CalculateTotalAmount_lift (bc : Blockchain) (a : string) :
  Full.CalculateTotalAmount (lift_ledger bc) a = Returns (CalculateTotalAmount bc a).
Proof.
  unfold Full.CalculateTotalAmount, CalculateTotalAmount, lift_ledger.
  cbn [Full.Chain]. generalize f32_zero.
  induction (Chain bc) as [|b chain IH]; intros total; [reflexivity|].
  cbn [lift_chain map Full.CalculateTotalAmount_blocks fold_left].
  cbn [lift_block Full.Transactions]. rewrite lift_transactions_elems.
  rewrite CalculateTotalAmount_transactions_lift. cbn [bind]. apply IH.
Qed.

Lemma AddTransaction_lift (bc : Blockchain) (sender recipient : string)
    (value : float32) (key : option PublicKey) (s : option Signature) :
  Full.AddTransaction (lift_ledger bc) sender recipient value key s
  = lift_result (AddTransaction bc sender recipient value key s).
Proof.
  assert (Hadded : forall t,
            {| Full.TransactionPool :=
                 Some (elems (Full.TransactionPool (lift_ledger bc)) ++ [Some t]);
               Full.Chain := Full.Chain (lift_ledger bc);
               Full.BlockChainAddress := Full.BlockChainAddress (lift_ledger bc);
               Full.Port := Full.Port (lift_ledger bc);
               Full.neighbours := Full.neighbours (lift_ledger bc) |}
            = lift_ledger (set_TransactionPool bc (append (TransactionPool bc) t))).
  { intros t. unfold lift_ledger, set_TransactionPool, append.
    cbn [Full.TransactionPool Full.Chain Full.BlockChainAddress Full.Port
         Full.neighbours TransactionPool Chain BlockChainAddress Port neighbours
         lift_transactions option_map].
    now rewrite lift_transactions_elems, map_app. }
  unfold Full.AddTransaction, AddTransaction, lift_result. rewrite Hadded.
  destruct (String.eqb sender MINING_SENDER); [reflexivity|].
  destruct (VerifyTransactionSignature key s _) as [[|]| |]; cbn [bind]; try reflexivity.
  rewrite CalculateTotalAmount_lift. cbn [bind].
  destruct (f32_lt (CalculateTotalAmount bc sender) value); reflexivity.
Qed.

Lemma LastBlock_lift (bc : Blockchain) :
  Full.LastBlock (lift_ledger bc)
  = (last <- LastBlock bc ;; Returns (Some (lift_block last))).
Proof.
  unfold Full.LastBlock, LastBlock, lift_ledger, lift_chain, len.
  cbn [Full.Chain]. rewrite length_map, nth_error_map.
  now destruct (nth_error (Chain bc) (List.length (Chain bc) - 1)).
Qed.

Lemma send_all_obliging (method : string) (endpoints : list string) :
  Full.send_all obliging method endpoints = Returns tt.
Proof. now apply FullProperties.send_all_Sent. Qed.

Lemma CreateBlock_lift (now : Z) (bc : Blockchain) (nonce : Z) (previousHash : Array32) :
  Full.CreateBlock obliging now (lift_ledger bc) nonce previousHash
  = Returns (lift_block (fst (CreateBlock now bc nonce previousHash)),
             lift_ledger (snd (CreateBlock now bc nonce previousHash))).
Proof.
  unfold Full.CreateBlock. rewrite send_all_obliging. cbn [bind]. do 2 f_equal.
  unfold lift_ledger, lift_chain.
  cbn [CreateBlock snd set_TransactionPool set_Chain Chain TransactionPool
       BlockChainAddress Port neighbours Full.TransactionPool Full.Chain
       Full.BlockChainAddress Full.Port Full.neighbours].
  now rewrite map_app.
Qed.

Lemma Mining_lift (fuel : nat) (now : Z) (bc : Blockchain) :
  Full.Mining obliging fuel now (lift_ledger bc) = lift_result (Mining fuel now bc).
Proof.
  rewrite FullProperties.Mining_steps, Mining_eq. cbv zeta. unfold lift_result.
  rewrite !send_all_obliging. cbn [bind elems].
  assert (Hmined : elems (Full.TransactionPool (lift_ledger bc))
                     ++ [Some (Full.reward (lift_ledger bc))]
                   = map Some (elems (TransactionPool bc) ++ [reward bc])).
  { cbn [lift_ledger Full.TransactionPool]. rewrite lift_transactions_elems, map_app.
    reflexivity. }
  rewrite Hmined.
  rewrite FullProperties.CopyTransactionPool_loop_copies.
  - cbn [bind]. rewrite LastBlock_lift.
    destruct (LastBlock bc) as [last| |]; cbn [bind]; try reflexivity.
    rewrite Hash_lift.
    change (Some (map Some (elems (TransactionPool bc) ++ [reward bc])))
      with (lift_transactions (Some (elems (TransactionPool bc) ++ [reward bc]))).
    rewrite ProofOfWork_loop_lift.
    destruct (ProofOfWork_loop MINING_DIFFICULTY (Hash last) _ fuel 0) as [nonce| |];
      cbn [bind fst snd]; try reflexivity.
    do 2 f_equal. unfold lift_ledger, lift_chain.
    cbn [CreateBlock snd set_TransactionPool set_Chain Chain TransactionPool
         BlockChainAddress Port neighbours Full.TransactionPool Full.Chain
         Full.BlockChainAddress Full.Port Full.neighbours].
    now rewrite map_app.
  - intros H. apply in_map_iff in H. destruct H as (t & Ht & _). discriminate Ht.
Qed.

Lemma ResolveConflicts_loop_lift (net : Network) (ns : list string) (maxLength : nat)
    (longestChain : option (list Block)) :
  Full.ResolveConflicts_loop (lift_network net) ns maxLength
    (option_map lift_chain longestChain)
  = (found <- ResolveConflicts_loop net ns maxLength longestChain ;;
     Returns (fst found, option_map lift_chain (snd found))).
Proof.
  revert maxLength longestChain.
  induction ns as [|n ns IH]; intros maxLength longestChain; [reflexivity|].
  cbn [Full.ResolveConflicts_loop ResolveConflicts_loop]. unfold lift_network at 1.
  destruct (net (chain_endpoint n)) as [|code body]; [reflexivity|].
  destruct (code =? 200); [|apply IH].
  destruct body as [chain| |]; cbn [bind]; try reflexivity.
  replace (len (lift_chain chain)) with (len chain)
    by (unfold len, lift_chain; now rewrite length_map).
  destruct (maxLength <? len chain)%nat; [|apply IH].
  rewrite ValidChain_lift.
  destruct (ValidChain chain) as [[|]| |]; cbn [bind]; try reflexivity.
  - apply (IH (len chain) (Some chain)).
  - apply IH.
Qed.

Lemma ResolveConflicts_lift (net : Network) (bc : Blockchain) :
  Full.ResolveConflicts (lift_network net) (lift_ledger bc)
  = lift_result (ResolveConflicts net bc).
Proof.
  unfold Full.ResolveConflicts, ResolveConflicts, lift_result.
  cbn [lift_ledger Full.neighbours Full.Chain].
  replace (len (lift_chain (Chain bc))) with (len (Chain bc))
    by (unfold len, lift_chain; now rewrite length_map).
  change (@None (list (option Full.Block))) with (option_map lift_chain None).
  rewrite (ResolveConflicts_loop_lift net (neighbours bc) (len (Chain bc)) None).
  destruct (ResolveConflicts_loop net (neighbours bc) (len (Chain bc)) None)
    as [[m [c|]]| |]; reflexivity.
Qed.

(** X21. The two embeddings agree.  On a ledger without nil pointers, seen
    as the whole code sees it ([lift_ledger]), with neighbours that take
    every notification: the hash of a block, [ValidProof] at every difficulty
    the machine can allocate, [ValidChain], the balance, [AddTransaction],
    [CreateBlock], [Mining] and [ResolveConflicts] give in [Full] what they
    give in [Section Ledger]. *)
Theorem embeddings_agree (bc : Blockchain) :
  (forall b, Full.Hash (Some (lift_block b)) = Hash b)
  /\ (forall nonce previousHash transactions difficulty,
        difficulty <= max_alloc ->
        Full.ValidProof nonce previousHash (lift_transactions transactions) difficulty
        = ValidProof nonce previousHash transactions difficulty)
  /\ (forall chain, Full.ValidChain (lift_chain chain) = ValidChain chain)
  /\ (forall a,
        Full.CalculateTotalAmount (lift_ledger bc) a = Returns (CalculateTotalAmount bc a))
  /\ (forall sender recipient value key s,
        Full.AddTransaction (lift_ledger bc) sender recipient value key s
        = lift_result (AddTransaction bc sender recipient value key s))
  /\ (forall now nonce previousHash,
        Full.CreateBlock obliging now (lift_ledger bc) nonce previousHash
        = Returns (lift_block (fst (CreateBlock now bc nonce previousHash)),
                   lift_ledger (snd (CreateBlock now bc nonce previousHash))))
  /\ (forall fuel now,
        Full.Mining obliging fuel now (lift_ledger bc) = lift_result (Mining fuel now bc))
  /\ (forall net,
        Full.ResolveConflicts (lift_network net) (lift_ledger bc)
        = lift_result (ResolveConflicts net bc)).
Proof.
  repeat split; intros.
  - apply Hash_lift.
  - now apply ValidProof_lift.
  - apply ValidChain_lift.
  - apply CalculateTotalAmount_lift.
  - apply AddTransaction_lift.
  - apply CreateBlock_lift.
  - apply Mining_lift.
  - apply ResolveConflicts_lift.
Qed.

End Agreement.

(** ** [ValidProof] of [package main] *)

Section MainValidProof.

Context {rt : GoRuntime} {mc : GoMachine}.

(** X15. [ValidProof] of [block.go] behaves as the one of [package block]: it
    panics on a negative difficulty, does not return on one whose zeros the
    machine cannot allocate, and otherwise (as on the difficulties from 0 to
    64) returns true exactly when the difficulty is 3 and the digest of its
    trial block (timestamp 0, hashed with the default encoding) starts with
    three zeros. *)
Theorem main_ValidProof_cases (nonce : Z) (previousHash : Array32)
    (transactions : slice Transaction) (difficulty : Z) :
  let digest :=
    Sprintf_x (PackageMain.Hash {| Nonce := nonce; PreviousHash := previousHash;
                                   Timestamp := 0; Transactions := transactions |}) in
  (difficulty < 0 ->
   PackageMain.ValidProof nonce previousHash transactions difficulty
   = Panics NegativeRepeatCount)
  /\ (max_alloc < difficulty ->
      PackageMain.ValidProof nonce previousHash transactions difficulty
      = Panics OutOfMemory)
  /\ (0 <= difficulty <= max_alloc ->
      PackageMain.ValidProof nonce previousHash transactions difficulty
      = Returns ((difficulty =? 3) && leading_zeros 3 digest))
  /\ (0 <= difficulty <= 64 ->
      PackageMain.ValidProof nonce previousHash transactions difficulty
      = Returns ((difficulty =? 3) && leading_zeros 3 digest)).
Proof.
  intros digest.
  assert (Hrun : PackageMain.ValidProof nonce previousHash transactions difficulty
                 = if difficulty <? 0 then Panics NegativeRepeatCount
                   else if max_alloc <? difficulty then Panics OutOfMemory
                   else Returns ((difficulty =? 3) && leading_zeros 3 digest)).
  { unfold PackageMain.ValidProof. apply Repeat_head3, Sprintf_x_length. }
  rewrite Hrun. pose proof max_alloc_min as Hmin.
  assert (Hreturns : 0 <= difficulty <= max_alloc ->
            (if difficulty <? 0 then Panics NegativeRepeatCount
             else if max_alloc <? difficulty then Panics OutOfMemory
             else Returns ((difficulty =? 3) && leading_zeros 3 digest))
            = Returns ((difficulty =? 3) && leading_zeros 3 digest)).
  { intros H.
    replace (difficulty <? 0) with false by (symmetry; apply Z.ltb_ge; lia).
    replace (max_alloc <? difficulty) with false by (symmetry; apply Z.ltb_ge; lia).
    reflexivity. }
  split; [|split; [|split]].
  - intros H. apply Z.ltb_lt in H. now rewrite H.
  - intros H.
    replace (difficulty <? 0) with false by (symmetry; apply Z.ltb_ge; lia).
    apply Z.ltb_lt in H. now rewrite H.
  - exact Hreturns.
  - intros H. apply Hreturns. lia.
Qed.

End MainValidProof.

(** ** The whole code on the sample ledgers *)

Module FullSamples.

Import TestRuntime FullLedgers Full.

Lemma mined_chain_blocks : blocks_after_first mined_chain.
Proof.
  intros i H. unfold mined_chain, lift_chain, longer_chain in H. cbn [map] in H.
  destruct i as [|[|i]]; discriminate H.
Defined.

(** C2, the counterexample: on the chain of 0 blocks [ValidChain] does not
    return [true], it panics on [chain[0]]. *)
Lemma ValidChain_empty_panics :
  ValidChain (rt := runtime) [] = Panics IndexOutOfRange
  /\ ValidChain (rt := runtime) [] <> Returns true.
Proof. split; [reflexivity | discriminate]. Qed.

(** The mined two-block chain is in the domain of [ValidChain], and valid. *)
Lemma ValidChain_spec_witness :
  mined_chain <> []
  /\ blocks_after_first mined_chain
  /\ ValidChain (rt := runtime) mined_chain = Returns true
  /\ all_linked (rt := runtime) mined_chain.
Proof.
  assert (Hne : mined_chain <> []) by discriminate.
  split; [exact Hne|]. split; [exact mined_chain_blocks|].
  destruct (FullProperties.ValidChain_spec (rt := runtime) mined_chain Hne) as [Hspec _].
  destruct (Hspec mined_chain_blocks) as (valid & Hrun & Hiff & _).
  assert (Htrue : ValidChain (rt := runtime) mined_chain = Returns true)
    by (vm_compute; reflexivity).
  split; [exact Htrue|]. apply Hiff. congruence.
Defined.

(** C3, the counterexample: for the hash of the genesis block and a pool
    that holds an amount that is not a number, [json.Marshal] fails for every
    trial block, every digest is the digest of the empty input, no nonce
    passes [ValidProof] at difficulty 3, and the search returns for no
    fuel. *)
Lemma ProofOfWork_never_returns :
  (forall nonce,
     ValidProof (rt := EmptyDigest.runtime) nonce
       (Hash (rt := EmptyDigest.runtime) (Some (lift_block genesis_block)))
       (TransactionPool nan_pool) MINING_DIFFICULTY = Returns false)
  /\ (forall fuel, ProofOfWork (rt := EmptyDigest.runtime) fuel nan_pool = OutOfFuel)
  /\ ~ (exists fuel nonce,
          ProofOfWork (rt := EmptyDigest.runtime) fuel nan_pool = Returns nonce).
Proof.
  assert (Hnone : forall nonce,
            ValidProof (rt := EmptyDigest.runtime) nonce
              (Hash (rt := EmptyDigest.runtime) (Some (lift_block genesis_block)))
              (TransactionPool nan_pool) MINING_DIFFICULTY = Returns false)
    by (intros nonce; vm_compute; reflexivity).
  assert (Hspins : forall fuel,
            ProofOfWork (rt := EmptyDigest.runtime) fuel nan_pool = OutOfFuel).
  { intros fuel.
    rewrite (FullProperties.ProofOfWork_search (rt := EmptyDigest.runtime) fuel nan_pool
               (Some (lift_block genesis_block)) eq_refl).
    - now apply (FullProperties.search_never (rt := EmptyDigest.runtime)).
    - intros [H | []]. discriminate H. }
  split; [exact Hnone|]. split; [exact Hspins|].
  intros (fuel & nonce & Hrun). rewrite Hspins in Hrun. discriminate Hrun.
Qed.

(** At difficulty 3, for the hash of the genesis block and the reward alone,
    the search ends: nonce 2 passes. *)
Lemma ProofOfWork_loop_spec_witness :
  (exists nonce, int64 nonce /\
     ValidProof (rt := runtime) nonce (Hash (Some (lift_block genesis_block)))
       (Some [Some (reward fresh)]) MINING_DIFFICULTY = Returns true)
  /\ exists fuel found,
       (forall extra,
          ProofOfWork_loop (rt := runtime) (Hash (Some (lift_block genesis_block)))
            (Some [Some (reward fresh)]) (fuel + extra) 0 = Returns found)
       /\ ValidProof (rt := runtime) found (Hash (Some (lift_block genesis_block)))
            (Some [Some (reward fresh)]) MINING_DIFFICULTY = Returns true.
Proof.
  assert (Hnonce : exists nonce, int64 nonce /\
            ValidProof (rt := runtime) nonce (Hash (Some (lift_block genesis_block)))
              (Some [Some (reward fresh)]) MINING_DIFFICULTY = Returns true).
  { exists 2. split; [unfold int64; lia | vm_compute; reflexivity]. }
  split; [exact Hnonce|].
  destruct (FullProperties.ProofOfWork_loop_spec (rt := runtime)
              (Hash (Some (lift_block genesis_block))) (Some [Some (reward fresh)]))
    as (_ & _ & Hruns & _).
  exact (Hruns Hnonce).
Defined.

(** The search of the first round of mining stops at nonce 2, which fails
    [ValidProof] at difficulty 0. *)
Lemma ProofOfWork_difficulty_0_witness :
  LastBlock rewarded = Returns (Some (lift_block genesis_block))
  /\ ProofOfWork (rt := runtime) 2 rewarded = Returns 2
  /\ ValidProof (rt := runtime) 2 (Hash (Some (lift_block genesis_block)))
       (Some [Some (reward fresh)]) 0 = Returns false.
Proof.
  assert (Hlast : LastBlock rewarded = Returns (Some (lift_block genesis_block)))
    by reflexivity.
  assert (Hrun : ProofOfWork (rt := runtime) 2 rewarded = Returns 2)
    by (vm_compute; reflexivity).
  split; [exact Hlast|]. split; [exact Hrun|].
  destruct (FullProperties.ProofOfWork_difficulty_0 (rt := runtime) 2 rewarded _ 2
              Hlast Hrun) as (_ & _ & Hzero & _).
  exact Hzero.
Defined.

(** The pass of [caller] panics on the chain of its first neighbour. *)
Lemma ResolveConflicts_nil_block_witness :
  neighbours caller = ["peer1"; "peer2"]%string
  /\ null_peer (chain_endpoint "peer1") = GetResponse 200 (Returns [None; None])
  /\ (len (Chain caller) < len [@None Block; None])%nat
  /\ ResolveConflicts (rt := runtime) null_peer caller = Panics NilDereference.
Proof.
  assert (Hns : neighbours caller = ["peer1"; "peer2"]%string) by reflexivity.
  assert (Hget : null_peer (chain_endpoint "peer1")
                 = GetResponse 200 (Returns [None; None])) by reflexivity.
  assert (Hlonger : (len (Chain caller) < len [@None Block; None])%nat)
    by (apply Nat.ltb_lt; reflexivity).
  split; [exact Hns|]. split; [exact Hget|]. split; [exact Hlonger|].
  destruct (FullProperties.ResolveConflicts_nil_block (rt := runtime) null_peer caller
              "peer1" ["peer2"%string] None [] Hns Hget Hlonger) as (_ & Hrun & _).
  exact Hrun.
Defined.

(** Both neighbours of [caller] answer, with chains of blocks. *)
Lemma served_answers : answers served (neighbours caller).
Proof.
  intros n [<- | [<- | []]].
  - exists 200, (Returns mined_chain). split; [reflexivity|]. intros _.
    exists mined_chain. split; [reflexivity | exact mined_chain_blocks].
  - exists 404, (Returns []). split; [reflexivity|]. discriminate.
Defined.

(** A pass of [caller] over its two neighbours adopts the mined chain. *)
Lemma ResolveConflicts_spec_witness :
  answers served (neighbours caller)
  /\ exists bc',
       ResolveConflicts (rt := runtime) served caller = Returns (true, bc')
       /\ Chain bc' = mined_chain
       /\ TransactionPool bc' = TransactionPool caller.
Proof.
  split; [exact served_answers|].
  destruct (FullProperties.ResolveConflicts_spec (rt := runtime) served caller
              served_answers) as (replaced & bc' & Hrun & _ & Htrue & _).
  assert (Hcall : exists bc'',
            ResolveConflicts (rt := runtime) served caller = Returns (true, bc'')
            /\ Chain bc'' = mined_chain)
    by (eexists; split; vm_compute; reflexivity).
  destruct Hcall as (bc'' & Hrun' & Hchain).
  assert (Hsame : (replaced, bc') = (true, bc'')) by congruence.
  injection Hsame as -> ->.
  exists bc''. split; [exact Hrun'|]. split; [exact Hchain|].
  destruct (Htrue eq_refl) as (_ & _ & Hpool & _). exact Hpool.
Defined.

(** On [holder]: a signed transfer within the balance is admitted, one beyond
    it is refused, and one signed under another key is refused. *)
Lemma AddTransaction_checks_witness :
  "A"%string <> MINING_SENDER
  /\ (exists bc',
        AddTransaction (rt := runtime) holder "A" "B" MINING_REWARD (Some 11)
          (Some (sign 11 (NewTransaction "A" "B" MINING_REWARD)))
        = Returns (true, bc')
        /\ TransactionPool bc' = Some [Some (NewTransaction "A" "B" MINING_REWARD)]
        /\ Chain bc' = Chain holder)
  /\ AddTransaction (rt := runtime) holder "A" "B" f32_2p24 (Some 11)
       (Some (sign 11 (NewTransaction "A" "B" f32_2p24)))
     = Returns (false, holder)
  /\ AddTransaction (rt := runtime) holder "A" "B" MINING_REWARD (Some 11)
       (Some (sign 12 (NewTransaction "A" "B" MINING_REWARD)))
     = Returns (false, holder).
Proof.
  assert (Hne : "A"%string <> MINING_SENDER) by discriminate.
  assert (Hbalance : CalculateTotalAmount holder "A" = Returns MINING_REWARD)
    by reflexivity.
  split; [exact Hne|]. split; [|split].
  - pose proof (FullProperties.AddTransaction_checks (rt := runtime) holder "A" "B"
                  MINING_REWARD (Some 11)
                  (Some (sign 11 (NewTransaction "A" "B" MINING_REWARD))) Hne) as H.
    cbv zeta in H. destruct H as (_ & _ & Hok & _).
    destruct (Hok eq_refl MINING_REWARD Hbalance eq_refl)
      as (bc' & Hrun & Hpool & Hchain & _).
    exists bc'. split; [exact Hrun|]. split; [exact Hpool | exact Hchain].
  - pose proof (FullProperties.AddTransaction_checks (rt := runtime) holder "A" "B"
                  f32_2p24 (Some 11)
                  (Some (sign 11 (NewTransaction "A" "B" f32_2p24))) Hne) as H.
    cbv zeta in H. destruct H as (_ & Hshort & _).
    exact (Hshort eq_refl MINING_REWARD Hbalance eq_refl).
  - pose proof (FullProperties.AddTransaction_checks (rt := runtime) holder "A" "B"
                  MINING_REWARD (Some 11)
                  (Some (sign 12 (NewTransaction "A" "B" MINING_REWARD))) Hne) as H.
    cbv zeta in H. destruct H as (Hbad & _).
    apply Hbad. reflexivity.
Defined.

(** How an amount that is not a number gets into the pool: [AddTransaction]
    admits whatever [MINING_SENDER] sends. *)
Example nan_pool_admitted :
  AddTransaction (rt := runtime) fresh MINING_SENDER "miner" S754_nan None None
  = Returns (true, nan_pool).
Proof. reflexivity. Qed.

(** C7, the counterexamples.  [Mining] does not return [true]: on the ledger
    without a genesis block it panics in [LastBlock]; on the fresh node with
    an amount that is not a number in the pool, [json.Marshal] fails for
    every trial block, every digest is the digest of the empty input, which
    does not start with three zeros, and the search never ends; on the node
    whose neighbour's address makes no URL it panics in the notification of
    [CreateBlock], once the search has ended; on the node with a nil
    transaction in the pool it panics in [CopyTransactionPool]. *)
Lemma Mining_does_not_return :
  (forall fuel, Mining (rt := runtime) obliging fuel 100 empty = Panics IndexOutOfRange)
  /\ (forall fuel, Mining (rt := EmptyDigest.runtime) obliging fuel 100 nan_pool = OutOfFuel)
  /\ (forall fuel result, Mining (rt := runtime) strict fuel 100 stray <> Returns result)
  /\ Mining (rt := runtime) strict 2 100 stray = Panics NilDereference
  /\ (forall fuel, Mining (rt := runtime) obliging fuel 100 nil_pool = Panics NilDereference).
Proof.
  split; [|split; [|split; [|split]]].
  - intros fuel. rewrite FullProperties.Mining_steps. reflexivity.
  - intros fuel. rewrite FullProperties.Mining_steps. cbv zeta.
    change (CopyTransactionPool_loop
              (elems (Some (elems (TransactionPool nan_pool) ++ [Some (reward nan_pool)]))))
      with (Returns (elems (TransactionPool nan_pool) ++ [Some (reward nan_pool)])).
    cbn [bind].
    change (LastBlock nan_pool) with (Returns (Some (lift_block genesis_block))).
    cbn [bind].
    rewrite (FullProperties.search_never (rt := EmptyDigest.runtime)); [reflexivity|].
    intros nonce. vm_compute. reflexivity.
  - intros fuel [result bc'] Hrun.
    destruct (FullProperties.Mining_returns (rt := runtime) _ _ _ _ _ _ Hrun)
      as (_ & _ & _ & _ & _ & _ & Hsent & _).
    destruct (Hsent "a b"%string (or_introl eq_refl)) as [Hdelete _].
    discriminate Hdelete.
  - vm_compute. reflexivity.
  - intros fuel. rewrite FullProperties.Mining_steps. reflexivity.
Qed.

(** The first round of mining on the fresh node returns. *)
Lemma Mining_spec_witness :
  LastBlock fresh = Returns (Some (lift_block genesis_block))
  /\ exists fuel bc',
       (forall extra,
          Mining (rt := runtime) obliging (fuel + extra) 100 fresh = Returns (true, bc'))
       /\ TransactionPool bc' = Some []
       /\ len (Chain bc') = S (len (Chain fresh)).
Proof.
  assert (Hlast : LastBlock fresh = Returns (Some (lift_block genesis_block)))
    by reflexivity.
  split; [exact Hlast|].
  pose proof (FullProperties.Mining_spec (rt := runtime) obliging 100 fresh _ Hlast) as H.
  cbv zeta in H. destruct H as [Hruns _].
  destruct Hruns as (fuel & bc' & Hrun & Hpool & Hlen & _).
  - intros [].
  - exists 2. split; [unfold int64; lia | vm_compute; reflexivity].
  - intros n [].
  - exists fuel, bc'. auto.
Defined.

(** C8, the counterexample: on [rounding_chain], which has no nil entry, the
    code answers 1 for [B], the float32 sum of the values received minus the
    float32 sum of the values sent is 0, and the exact sum received minus the
    exact sum sent is 2 (in units of [2^-149]). *)
Lemma CalculateTotalAmount_rounds :
  CalculateTotalAmount rounding_ledger "B" = Returns MINING_REWARD
  /\ BalanceOf_as_worded rounding_chain "B" = f32_zero
  /\ units MINING_REWARD <> units (BalanceOf_as_worded rounding_chain "B")
  /\ exact_balance rounding_chain "B" = 2 * units MINING_REWARD.
Proof.
  split; [|split; [|split]]; try (vm_compute; reflexivity).
  vm_compute. discriminate.
Qed.

Lemma holder_no_nil_entry : no_nil_entry (Chain holder).
Proof.
  split.
  - intros [H | []]. discriminate H.
  - intros b [[= <-] | []] [Hnil | []]. discriminate Hnil.
Defined.

(** [A] has only received on [holder]: its balance is the sum received. *)
Lemma CalculateTotalAmount_spec_witness :
  no_nil_entry (Chain holder)
  /\ (forall t, In t (committed (Chain holder)) ->
        String.eqb "A" (SenderBlockchainAddress t) = false)
  /\ CalculateTotalAmount holder "A" = Returns (BalanceOf_as_worded (Chain holder) "A").
Proof.
  assert (Hsent : forall t, In t (committed (Chain holder)) ->
                    String.eqb "A" (SenderBlockchainAddress t) = false).
  { intros t [<- | []]. reflexivity. }
  split; [exact holder_no_nil_entry|]. split; [exact Hsent|].
  destruct (FullProperties.CalculateTotalAmount_spec holder "A") as (Hscan & _).
  destruct (Hscan holder_no_nil_entry) as (_ & _ & Hcredits).
  apply Hcredits. exact Hsent.
Defined.

Lemma fresh_no_nil_entry : no_nil_entry (Chain fresh).
Proof.
  split.
  - intros [H | []]. discriminate H.
  - intros b [[= <-] | []] [].
Defined.

Lemma fresh_no_history : no_history (Chain fresh) "Z".
Proof. intros t []. Defined.

(** An address without funds: a transfer of 1 is refused, a transfer of -1
    is admitted. *)
Lemma AddTransaction_no_history_witness :
  "Z"%string <> MINING_SENDER
  /\ no_nil_entry (Chain fresh)
  /\ no_history (Chain fresh) "Z"
  /\ AddTransaction (rt := runtime) fresh "Z" "B" MINING_REWARD (Some 11)
       (Some (sign 11 (NewTransaction "Z" "B" MINING_REWARD)))
     = Returns (false, fresh)
  /\ exists bc',
       AddTransaction (rt := runtime) fresh "Z" "B" (S754_finite true 8388608 (-23))
         (Some 11)
         (Some (sign 11 (NewTransaction "Z" "B" (S754_finite true 8388608 (-23)))))
       = Returns (true, bc')
       /\ TransactionPool bc'
          = Some [Some (NewTransaction "Z" "B" (S754_finite true 8388608 (-23)))].
Proof.
  assert (Hne : "Z"%string <> MINING_SENDER) by discriminate.
  split; [exact Hne|]. split; [exact fresh_no_nil_entry|].
  split; [exact fresh_no_history|]. split.
  - destruct (FullProperties.AddTransaction_no_history (rt := runtime) fresh "Z" "B"
                MINING_REWARD (Some 11)
                (Some (sign 11 (NewTransaction "Z" "B" MINING_REWARD)))
                Hne fresh_no_nil_entry fresh_no_history eq_refl)
      as (result & bc' & Hrun & -> & Hsame & _).
    rewrite Hrun. cbn [negb f32_positive MINING_REWARD]. now rewrite (Hsame eq_refl).
  - destruct (FullProperties.AddTransaction_no_history (rt := runtime) fresh "Z" "B"
                (S754_finite true 8388608 (-23)) (Some 11)
                (Some (sign 11 (NewTransaction "Z" "B" (S754_finite true 8388608 (-23)))))
                Hne fresh_no_nil_entry fresh_no_history eq_refl)
      as (result & bc' & Hrun & -> & _ & Hpool).
    exists bc'. split; [exact Hrun|]. exact (proj1 (Hpool eq_refl)).
Defined.

End FullSamples.

